(** * Structural indexing of Java sources: a shallow embedding

    This development embeds the hierarchy scanner
    ([src/parser/hierarchy_scanner.py]), the structural parser
    ([src/parser/java_parser.py]), the enricher
    ([src/embedding/enricher.py]), the identity function and the metadata
    of the vector store ([src/database/vector_store.py]) and the Pass 2
    loop of the ingestion pipeline ([main_ingest.py]) and states their
    properties.

    Conventions.
    - A Python [str] is the list of its code points (integers).
    - A [bytes] value is the list of its byte values.
    - A raised exception is the [Raise] constructor of [result]. *)

From Stdlib Require Import ZArith List Bool Lia Permutation.
From Stdlib Require String Ascii.
Import ListNotations String.StringSyntax.

Local Open Scope string_scope.
Local Open Scope Z_scope.

(* ------------------------------------------------------------------ *)
(** ** Exceptions *)

Inductive exn : Type :=
| FileNotFoundError
| UnicodeEncodeError
| RecursionError
| OSError.

Inductive result (A : Type) : Type :=
| Ok (a : A)
| Raise (e : exn).

Arguments Ok {A} a.
Arguments Raise {A} e.

Definition bind {A B : Type} (r : result A) (k : A -> result B) : result B :=
  match r with
  | Ok a => k a
  | Raise e => Raise e
  end.

Notation "x <- r ;; k" := (bind r (fun x => k))
  (at level 61, r at next level, right associativity).

Fixpoint mapM {A B : Type} (f : A -> result B) (l : list A) : result (list B) :=
  match l with
  | [] => Ok []
  | a :: t => b <- f a ;; bs <- mapM f t ;; Ok (b :: bs)
  end.

(* ------------------------------------------------------------------ *)
(** ** Python strings *)

Module PyStr.

Definition str := list Z.

(** An ASCII literal of the source, as a [str]. *)
Definition lit (s : String.string) : str :=
  map (fun a => Z.of_N (Ascii.N_of_ascii a)) (String.list_ascii_of_string s).

Fixpoint str_eqb (a b : str) : bool :=
  match a, b with
  | [], [] => true
  | x :: a', y :: b' => (x =? y) && str_eqb a' b'
  | _, _ => false
  end.

(** [s.startswith(p)] *)
Fixpoint startswith (p s : str) : bool :=
  match p, s with
  | [], _ => true
  | x :: p', y :: s' => (x =? y) && startswith p' s'
  | _ :: _, [] => false
  end.

(** [s.endswith(p)] *)
Definition endswith (p s : str) : bool :=
  startswith (rev p) (rev s).

(** [p in s] for strings: [p] occurs as a substring of [s]. *)
Fixpoint contains (p s : str) : bool :=
  startswith p s ||
  match s with
  | [] => false
  | _ :: s' => contains p s'
  end.

(** The characters [str.strip()] and [str.split()] treat as white space. *)
Definition isspace (c : Z) : bool :=
  ((0x09 <=? c) && (c <=? 0x0D)) || ((0x1C <=? c) && (c <=? 0x20))
  || (c =? 0x85) || (c =? 0xA0) || (c =? 0x1680)
  || ((0x2000 <=? c) && (c <=? 0x200A))
  || (c =? 0x2028) || (c =? 0x2029) || (c =? 0x202F) || (c =? 0x205F)
  || (c =? 0x3000).

Fixpoint lstrip (s : str) : str :=
  match s with
  | [] => []
  | c :: t => if isspace c then lstrip t else s
  end.

Definition rstrip (s : str) : str := rev (lstrip (rev s)).

(** [s.strip()] *)
Definition strip (s : str) : str := rstrip (lstrip s).

(** [s[a:b]] for non-negative [a] and [b]. *)
Definition slice (s : str) (a b : nat) : str :=
  firstn (b - a) (skipn a s).

(** [s[1:-1]] *)
Definition slice_1_m1 (s : str) : str :=
  removelast (tl s).

(** [sep.join(l)] *)
Fixpoint join (sep : str) (l : list str) : str :=
  match l with
  | [] => []
  | [x] => x
  | x :: t => x ++ sep ++ join sep t
  end.

(** [s.split(sep)] for a non-empty separator: the pieces between the
    non-overlapping occurrences of [sep], found from the left.  [skip]
    counts the characters of a matched separator still to pass over and
    [cur] holds the current piece, reversed. *)
Fixpoint split_go (sep : str) (skip : nat) (cur s : str) : list str :=
  match s with
  | [] => [rev cur]
  | c :: t =>
      match skip with
      | S k => split_go sep k cur t
      | O =>
          if startswith sep s
          then rev cur :: split_go sep (length sep - 1) [] t
          else split_go sep 0 (c :: cur) t
      end
  end.

Definition split (sep s : str) : list str := split_go sep 0 [] s.

(** [s.split()]: the maximal runs of non-space characters. *)
Fixpoint split_ws_go (cur s : str) : list str :=
  match s with
  | [] => match cur with [] => [] | _ => [rev cur] end
  | c :: t =>
      if isspace c
      then match cur with
           | [] => split_ws_go [] t
           | _ => rev cur :: split_ws_go [] t
           end
      else split_ws_go (c :: cur) t
  end.

Definition split_ws (s : str) : list str := split_ws_go [] s.

(** [s.replace(old, new)] for a non-empty [old]. *)
Fixpoint replace_go (old new : str) (skip : nat) (s : str) : str :=
  match s with
  | [] => []
  | c :: t =>
      match skip with
      | S k => replace_go old new k t
      | O =>
          if startswith old s
          then new ++ replace_go old new (length old - 1) t
          else c :: replace_go old new 0 t
      end
  end.

Definition replace (old new s : str) : str := replace_go old new 0 s.

(** Truth value of a string: non-empty. *)
Definition truthy (s : str) : bool :=
  match s with [] => false | _ => true end.

(** [x in l] for a list of strings. *)
Definition mem (x : str) (l : list str) : bool :=
  existsb (str_eqb x) l.

End PyStr.

Import PyStr.

(* ------------------------------------------------------------------ *)
(** ** [str.encode('utf-8')] *)

Module Utf8.

(** A code point that strict UTF-8 encodes: a Unicode scalar value. *)
Definition scalar (c : Z) : Prop :=
  (0 <= c < 0xD800) \/ (0xE000 <= c < 0x110000).

Definition cont (c : Z) (k : Z) : Z :=
  Z.lor 0x80 (Z.land (Z.shiftr c k) 0x3F).

(** The bytes of one code point; a surrogate makes the strict encoder
    raise. *)
Definition encode_cp (c : Z) : result (list Z) :=
  if c <? 0 then Raise UnicodeEncodeError
  else if c <? 0x80 then Ok [c]
  else if c <? 0x800 then Ok [Z.lor 0xC0 (Z.shiftr c 6); cont c 0]
  else if c <? 0xD800 then
    Ok [Z.lor 0xE0 (Z.shiftr c 12); cont c 6; cont c 0]
  else if c <? 0xE000 then Raise UnicodeEncodeError
  else if c <? 0x10000 then
    Ok [Z.lor 0xE0 (Z.shiftr c 12); cont c 6; cont c 0]
  else if c <? 0x110000 then
    Ok [Z.lor 0xF0 (Z.shiftr c 18); cont c 12; cont c 6; cont c 0]
  else Raise UnicodeEncodeError.

Definition encode (s : str) : result (list Z) :=
  bs <- mapM encode_cp s ;; Ok (concat bs).

End Utf8.

(* ------------------------------------------------------------------ *)
(** ** [hashlib.sha256] (FIPS 180-4) on 32-bit words held in [Z] *)

Module Sha256.

Definition wrap (x : Z) : Z := x mod 2 ^ 32.

Definition add32 (x y : Z) : Z := wrap (x + y).

Definition rotr (n x : Z) : Z :=
  wrap (Z.lor (Z.shiftr x n) (Z.shiftl x (32 - n))).

Definition Ch (x y z : Z) : Z :=
  Z.lxor (Z.land x y) (Z.land (Z.lxor x 0xFFFFFFFF) z).

Definition Maj (x y z : Z) : Z :=
  Z.lxor (Z.lxor (Z.land x y) (Z.land x z)) (Z.land y z).

Definition Sigma0 (x : Z) : Z :=
  Z.lxor (Z.lxor (rotr 2 x) (rotr 13 x)) (rotr 22 x).

Definition Sigma1 (x : Z) : Z :=
  Z.lxor (Z.lxor (rotr 6 x) (rotr 11 x)) (rotr 25 x).

Definition sigma0 (x : Z) : Z :=
  Z.lxor (Z.lxor (rotr 7 x) (rotr 18 x)) (Z.shiftr x 3).

Definition sigma1 (x : Z) : Z :=
  Z.lxor (Z.lxor (rotr 17 x) (rotr 19 x)) (Z.shiftr x 10).

Definition K : list Z :=
  [ 0x428A2F98; 0x71374491; 0xB5C0FBCF; 0xE9B5DBA5;
    0x3956C25B; 0x59F111F1; 0x923F82A4; 0xAB1C5ED5;
    0xD807AA98; 0x12835B01; 0x243185BE; 0x550C7DC3;
    0x72BE5D74; 0x80DEB1FE; 0x9BDC06A7; 0xC19BF174;
    0xE49B69C1; 0xEFBE4786; 0x0FC19DC6; 0x240CA1CC;
    0x2DE92C6F; 0x4A7484AA; 0x5CB0A9DC; 0x76F988DA;
    0x983E5152; 0xA831C66D; 0xB00327C8; 0xBF597FC7;
    0xC6E00BF3; 0xD5A79147; 0x06CA6351; 0x14292967;
    0x27B70A85; 0x2E1B2138; 0x4D2C6DFC; 0x53380D13;
    0x650A7354; 0x766A0ABB; 0x81C2C92E; 0x92722C85;
    0xA2BFE8A1; 0xA81A664B; 0xC24B8B70; 0xC76C51A3;
    0xD192E819; 0xD6990624; 0xF40E3585; 0x106AA070;
    0x19A4C116; 0x1E376C08; 0x2748774C; 0x34B0BCB5;
    0x391C0CB3; 0x4ED8AA4A; 0x5B9CCA4F; 0x682E6FF3;
    0x748F82EE; 0x78A5636F; 0x84C87814; 0x8CC70208;
    0x90BEFFFA; 0xA4506CEB; 0xBEF9A3F7; 0xC67178F2 ].

(** The eight working words. *)
Record state : Type := State {
  ha : Z; hb : Z; hc : Z; hd : Z; he : Z; hf : Z; hg : Z; hh : Z
}.

Definition H0 : state :=
  State 0x6A09E667 0xBB67AE85 0x3C6EF372 0xA54FF53A
        0x510E527F 0x9B05688C 0x1F83D9AB 0x5BE0CD19.

(** Big-endian bytes of a word and back. *)
Definition be4 (w : Z) : list Z :=
  [ Z.land (Z.shiftr w 24) 0xFF; Z.land (Z.shiftr w 16) 0xFF;
    Z.land (Z.shiftr w 8) 0xFF; Z.land w 0xFF ].

Fixpoint words (bs : list Z) : list Z :=
  match bs with
  | b0 :: b1 :: b2 :: b3 :: t =>
      Z.lor (Z.lor (Z.lor (Z.shiftl b0 24) (Z.shiftl b1 16)) (Z.shiftl b2 8)) b3
      :: words t
  | _ => []
  end.

(** Padding: a one bit, zeros up to 56 modulo 64, the bit length on
    eight bytes. *)
Definition pad (msg : list Z) : list Z :=
  let n := Z.of_nat (length msg) in
  let zeros := Z.to_nat ((55 - n) mod 64) in
  let bits := 8 * n in
  msg ++ [0x80] ++ repeat 0 zeros
      ++ be4 (wrap (Z.shiftr bits 32)) ++ be4 (wrap bits).

(** The message schedule: the sixteen words of the block extended to
    sixty-four. *)
Fixpoint schedule (n : nat) (w : list Z) : list Z :=
  match n with
  | O => w
  | S n' =>
      let t := length w in
      let at_ k := nth (t - k) w 0 in
      schedule n'
        (w ++ [add32 (add32 (sigma1 (at_ 2%nat)) (at_ 7%nat))
                     (add32 (sigma0 (at_ 15%nat)) (at_ 16%nat))])
  end.

Definition round (s : state) (kw : Z * Z) : state :=
  let (k, w) := kw in
  let t1 := add32 (add32 (add32 (hh s) (Sigma1 (he s)))
                         (add32 (Ch (he s) (hf s) (hg s)) k)) w in
  let t2 := add32 (Sigma0 (ha s)) (Maj (ha s) (hb s) (hc s)) in
  State (add32 t1 t2) (ha s) (hb s) (hc s)
        (add32 (hd s) t1) (he s) (hf s) (hg s).

Definition compress (s : state) (block : list Z) : state :=
  let w := schedule 48 (words block) in
  let r := fold_left round (combine K w) s in
  State (add32 (ha s) (ha r)) (add32 (hb s) (hb r))
        (add32 (hc s) (hc r)) (add32 (hd s) (hd r))
        (add32 (he s) (he r)) (add32 (hf s) (hf r))
        (add32 (hg s) (hg r)) (add32 (hh s) (hh r)).

Fixpoint blocks (fuel : nat) (bs : list Z) : list (list Z) :=
  match fuel, bs with
  | S f, _ :: _ => firstn 64 bs :: blocks f (skipn 64 bs)
  | _, _ => []
  end.

Definition sha256 (msg : list Z) : state :=
  let p := pad msg in
  fold_left compress (blocks (length p) p) H0.

(** [digest()]: thirty-two bytes. *)
Definition digest (s : state) : list Z :=
  be4 (ha s) ++ be4 (hb s) ++ be4 (hc s) ++ be4 (hd s)
  ++ be4 (he s) ++ be4 (hf s) ++ be4 (hg s) ++ be4 (hh s).

Definition hexdigits : str := lit "0123456789abcdef".

Definition hexchar (d : Z) : Z :=
  nth (Z.to_nat (Z.land d 0xF)) hexdigits 0.

Definition hexbyte (b : Z) : str :=
  [hexchar (Z.shiftr b 4); hexchar b].

(** [hexdigest()]: two lower-case hexadecimal characters per byte. *)
Definition hexdigest (s : state) : str :=
  flat_map hexbyte (digest s).

End Sha256.

(* ------------------------------------------------------------------ *)
(** ** Identities *)

(** [JavaCodeParser._generate_method_id] *)
Definition _generate_method_id (class_context method_signature : str)
  : result str :=
  let unique_string := class_context ++ lit "::" ++ method_signature in
  bytes <- Utf8.encode unique_string ;;
  Ok (Sha256.hexdigest (Sha256.sha256 bytes)).

(** [VectorStore.generate_id] *)
Definition generate_id (package class_name signature : str) : result str :=
  let unique_string :=
    package ++ lit "::" ++ class_name ++ lit "::" ++ signature in
  bytes <- Utf8.encode unique_string ;;
  Ok (Sha256.hexdigest (Sha256.sha256 bytes)).

(** A lower-case hexadecimal character. *)
Definition is_hex_char (c : Z) : Prop := In c Sha256.hexdigits.

(* ------------------------------------------------------------------ *)
(** ** Syntax trees

    A node of the concrete syntax tree built by the grammar library: its
    type, its byte range, its text ([node.text.decode('utf8')]) and its
    children.  The Python code reads the text of a node in two ways, through
    [node.text] and through the slice
    [source_code[node.start_byte:node.end_byte]] of the decoded source; both
    are kept. *)

#[warnings="-register-all"]
Inductive node : Type :=
| Node (type : str) (start_byte end_byte : nat) (text : str)
       (children : list node).

Definition type (n : node) : str :=
  match n with Node t _ _ _ _ => t end.

Definition start_byte (n : node) : nat :=
  match n with Node _ a _ _ _ => a end.

Definition end_byte (n : node) : nat :=
  match n with Node _ _ b _ _ => b end.

Definition text (n : node) : str :=
  match n with Node _ _ _ x _ => x end.

Definition children (n : node) : list node :=
  match n with Node _ _ _ _ cs => cs end.

(** [source_code[n.start_byte:n.end_byte]] *)
Definition src_text (source_code : str) (n : node) : str :=
  slice source_code (start_byte n) (end_byte n).

(** [n.type == t] and [n.type in [t1, ..., tk]] *)
Definition has_type (t : String.string) (n : node) : bool :=
  str_eqb (type n) (lit t).

Definition type_in (ts : list String.string) (n : node) : bool :=
  existsb (fun t => has_type t n) ts.

(** A loop that returns from its first iteration producing a value. *)
Fixpoint first_some {A B : Type} (f : A -> option B) (l : list A)
  : option B :=
  match l with
  | [] => None
  | a :: t => match f a with
              | Some b => Some b
              | None => first_some f t
              end
  end.

(** [_find_nodes_by_type], the same in both classes: the node itself when
    its type matches, then the matches of each child, in order. *)
Fixpoint _find_nodes_by_type (n : node) (node_type : String.string)
  : list node :=
  match n with
  | Node _ _ _ _ cs =>
      (if has_type node_type n then [n] else [])
      ++ flat_map (fun c => _find_nodes_by_type c node_type) cs
  end.

(** [_get_parent_class], the same in both classes. *)
Definition _get_parent_class (class_node : node) (source_code : str)
  : option str :=
  first_some
    (fun child =>
       if has_type "superclass" child then
         first_some
           (fun superclass_child =>
              if type_in ["type_identifier"; "generic_type";
                          "scoped_type_identifier"] superclass_child
              then
                let parent_name := src_text source_code superclass_child in
                let parent_name :=
                  if contains (lit "<") parent_name
                  then hd [] (split (lit "<") parent_name)
                  else parent_name in
                Some (strip parent_name)
              else None)
           (children child)
       else None)
    (children class_node).

(** The class body looked up by both classes: the first child of type
    [class_body]. *)
Definition class_body_of (class_node : node) : option node :=
  find (has_type "class_body") (children class_node).




(* ------------------------------------------------------------------ *)
(** ** The hierarchy map *)

(** One entry of the hierarchy map, with the three keys the scanner
    writes. *)
Record class_info : Type := ClassInfo {
  parent : option str;
  methods : list str;
  simple_name : str
}.

(** A Python dict with string keys: insertion-ordered, a key assigned again
    keeps its place. *)
Definition dict (V : Type) : Type := list (str * V).

Fixpoint dict_set {V : Type} (k : str) (v : V) (d : dict V) : dict V :=
  match d with
  | [] => [(k, v)]
  | (k', v') :: t =>
      if str_eqb k k' then (k, v) :: t else (k', v') :: dict_set k v t
  end.

Fixpoint dict_get {V : Type} (k : str) (d : dict V) : option V :=
  match d with
  | [] => None
  | (k', v) :: t => if str_eqb k k' then Some v else dict_get k t
  end.

(** [for k, v in items: d[k] = v] *)
Definition dict_update {V : Type} (d items : dict V) : dict V :=
  fold_left (fun acc kv => dict_set (fst kv) (snd kv) acc) items d.

Definition hierarchy := dict class_info.


(* ------------------------------------------------------------------ *)
(** ** HierarchyScanner *)

Module HierarchyScanner.

(** [_extract_package_name] *)
Definition _extract_package_name (root_node : node) (source_code : str)
  : str :=
  match
    first_some
      (fun child =>
         if has_type "package_declaration" child then
           first_some
             (fun package_child =>
                if type_in ["scoped_identifier"; "identifier"] package_child
                then Some (src_text source_code package_child)
                else None)
             (children child)
         else None)
      (children root_node)
  with
  | Some p => p
  | None => lit "None"
  end.

(** [_get_class_name] *)
Definition _get_class_name (class_node : node) : option str :=
  first_some
    (fun child => if has_type "identifier" child
                  then Some (text child) else None)
    (children class_node).

(** The inner loop of [_get_public_method_names] over the children of one
    method declaration: the pair [(is_public, method_name)]. *)
Definition scan_method_child (source_code : str)
    (acc : bool * option str) (method_child : node) : bool * option str :=
  let (is_public, method_name) := acc in
  if has_type "modifiers" method_child then
    let modifiers_text := src_text source_code method_child in
    if contains (lit "public") modifiers_text
    then (true, method_name)
    else (is_public, method_name)
  else if has_type "identifier" method_child then
    (is_public, Some (text method_child))
  else (is_public, method_name).

(** What one child of the class body appends to [method_names]. *)
Definition public_name (source_code : str) (child : node) : list str :=
  if has_type "method_declaration" child then
    match fold_left (scan_method_child source_code) (children child)
                    (false, None) with
    | (true, Some method_name) =>
        if truthy method_name then [method_name] else []
    | _ => []
    end
  else [].

(** [_get_public_method_names] *)
Definition _get_public_method_names (class_node : node) (source_code : str)
  : list str :=
  match class_body_of class_node with
  | None => []
  | Some class_body =>
      flat_map (public_name source_code) (children class_body)
  end.

(** A [modifiers] node whose text contains [public]. *)
Definition is_public_modifiers (source_code : str) (c : node) : bool :=
  has_type "modifiers" c && contains (lit "public") (src_text source_code c).

(** The text of the last [identifier] child. *)
Definition last_identifier (l : list node) : option str :=
  first_some (fun c => if has_type "identifier" c then Some (text c)
                       else None)
             (rev l).

(** A child of a class body that the scanner takes for a public method: a
    method declaration with a [modifiers] child containing [public] and a
    non-empty name. *)
Definition declares_public_method (source_code : str) (m : node) : bool :=
  has_type "method_declaration" m
  && existsb (is_public_modifiers source_code) (children m)
  && match last_identifier (children m) with
     | Some n => truthy n
     | None => false
     end.

Definition declared_name (m : node) : str :=
  match last_identifier (children m) with
  | Some n => n
  | None => []
  end.

(** The body of the loop of [_extract_class_info] over the class nodes. *)
Definition add_class (source_code package_name : str)
    (class_info : hierarchy) (class_node : node) : hierarchy :=
  match _get_class_name class_node with
  | None => class_info
  | Some class_name =>
      if negb (truthy class_name) then class_info
      else
        let parent_name := _get_parent_class class_node source_code in
        let public_methods :=
          _get_public_method_names class_node source_code in
        let full_class_name :=
          if truthy package_name
             && negb (str_eqb package_name (lit "None"))
          then package_name ++ lit "." ++ class_name
          else class_name in
        dict_set full_class_name
                 (ClassInfo parent_name public_methods class_name)
                 class_info
  end.

(** [_extract_class_info], after the file has been read and parsed. *)
Definition class_info_of_tree (source_code : str) (root_node : node)
  : hierarchy :=
  let package_name := _extract_package_name root_node source_code in
  fold_left (add_class source_code package_name)
            (_find_nodes_by_type root_node "class_declaration") [].

End HierarchyScanner.

(* ------------------------------------------------------------------ *)
(** ** JavaCodeParser *)

(** A chunk: the dict built by [_extract_method_info], to which
    [parse_file] adds [id], the pipeline [file_path] and the enricher
    [summary] and [keywords]. *)
Record chunk : Type := Chunk {
  method_name : str;
  method_signature : str;
  method_body : str;
  class_context : str;
  dependency_types : list str;
  id : option str;
  file_path : option str;
  summary : option str;
  keywords : option (list str)
}.

Definition set_id (c : chunk) (i : str) : chunk :=
  Chunk (method_name c) (method_signature c) (method_body c)
        (class_context c) (dependency_types c) (Some i)
        (file_path c) (summary c) (keywords c).

Definition set_file_path (c : chunk) (p : str) : chunk :=
  Chunk (method_name c) (method_signature c) (method_body c)
        (class_context c) (dependency_types c) (id c)
        (Some p) (summary c) (keywords c).

Module JavaCodeParser.

(** [_extract_package_name]: the first package declaration decides. *)
Definition _extract_package_name (root_node : node) (source_code : str)
  : str :=
  match find (has_type "package_declaration") (children root_node) with
  | None => lit "None"
  | Some child =>
      match find (type_in ["scoped_identifier"; "identifier"])
                 (children child) with
      | Some package_child => src_text source_code package_child
      | None =>
          let package_text := src_text source_code child in
          strip (replace (lit ";") []
                   (replace (lit "package") [] package_text))
      end
  end.

(** [_get_class_name] *)
Definition _get_class_name (class_node : node) : str :=
  match find (has_type "identifier") (children class_node) with
  | Some child => text child
  | None => lit "UnknownClass"
  end.

(** [_extract_fields] *)
Definition _extract_fields (class_node : node) (source_code : str)
  : list str :=
  match class_body_of class_node with
  | None => []
  | Some class_body =>
      map (fun child =>
             let field_text := strip (src_text source_code child) in
             join (lit " ") (split_ws field_text))
          (filter (has_type "field_declaration") (children class_body))
  end.

(** Truth value of an optional string: present and non-empty. *)
Definition opt_truthy (o : option str) : bool :=
  match o with
  | Some s => truthy s
  | None => false
  end.

(** The lookup at the head of [_get_inherited_methods]: the exact key,
    else the first entry whose simple name is the parent or whose key
    ends in [.parent]. *)
Definition lookup_parent (hierarchy_map : hierarchy) (parent_class : str)
  : option class_info :=
  match dict_get parent_class hierarchy_map with
  | Some parent_info => Some parent_info
  | None =>
      first_some
        (fun entry : str * class_info =>
           let (class_name, info) := entry in
           if str_eqb (simple_name info) parent_class
              || endswith (lit "." ++ parent_class) class_name
           then Some info else None)
        hierarchy_map
  end.

(** [_get_inherited_methods].  The Python function calls itself once per
    ancestor and has no guard against a cycle: [depth] is the number of
    nested calls the interpreter still allows, and exhausting it is the
    interpreter's [RecursionError]. *)
Fixpoint _get_inherited_methods (depth : nat) (hierarchy_map : hierarchy)
    (parent_class : str) : result (list str) :=
  match depth with
  | O => Raise RecursionError
  | S depth' =>
      match hierarchy_map with
      | [] => Ok []
      | _ =>
          match lookup_parent hierarchy_map parent_class with
          | None => Ok []
          | Some parent_info =>
              let inherited_methods := methods parent_info in
              match parent parent_info with
              | Some grandparent =>
                  if truthy grandparent then
                    grandparent_methods <-
                      _get_inherited_methods depth' hierarchy_map
                                             grandparent ;;
                    Ok (inherited_methods ++ grandparent_methods)
                  else Ok inherited_methods
              | None => Ok inherited_methods
              end
          end
      end
  end.

(** The chain of ancestors the lookup resolves from a parent name: empty
    when the name is not in the map, ended by the first ancestor without a
    recorded parent or whose parent is not in the map. *)
Inductive ancestors (hierarchy_map : hierarchy)
  : str -> list class_info -> Prop :=
| ancestors_unknown (p : str) :
    lookup_parent hierarchy_map p = None ->
    ancestors hierarchy_map p []
| ancestors_last (p : str) (info : class_info) :
    lookup_parent hierarchy_map p = Some info ->
    opt_truthy (parent info) = false ->
    ancestors hierarchy_map p [info]
| ancestors_next (p grandparent : str) (info : class_info)
                 (chain : list class_info) :
    lookup_parent hierarchy_map p = Some info ->
    parent info = Some grandparent ->
    truthy grandparent = true ->
    ancestors hierarchy_map grandparent chain ->
    ancestors hierarchy_map p (info :: chain).

(** The inheritance clause appended for a list of inherited methods. *)
Definition inherited_clause (inherited_methods : list str) : str :=
  match inherited_methods with
  | [] => []
  | _ => lit ", Inherited Methods: [" ++ join (lit ", ") inherited_methods
             ++ lit "]"
  end.

(** The part of the context built before the inheritance information. *)
Definition base_context (package_name class_name : str)
    (fields : list str) : str :=
  let package_str :=
    if truthy package_name then lit "Package: " ++ package_name
    else lit "Package: None" in
  match fields with
  | _ :: _ =>
      let fields_str := join (lit "; ") fields in
      package_str ++ lit ", Class: " ++ class_name
                  ++ lit ", Fields: " ++ fields_str
  | [] =>
      package_str ++ lit ", Class: " ++ class_name ++ lit ", Fields: None"
  end.

(** [_format_class_context] *)
Definition _format_class_context (depth : nat) (hierarchy_map : hierarchy)
    (package_name class_name : str) (fields : list str)
    (parent_class : option str) : result str :=
  let context := base_context package_name class_name fields in
  match parent_class with
  | None => Ok context
  | Some p =>
      if truthy p then
        let context := context ++ lit ", Extends: " ++ p in
        inherited_methods <-
          _get_inherited_methods depth hierarchy_map p ;;
        match inherited_methods with
        | _ :: _ =>
            let methods_str := join (lit ", ") inherited_methods in
            Ok (context ++ lit ", Inherited Methods: [" ++ methods_str
                        ++ lit "]")
        | [] => Ok context
        end
      else Ok context
  end.

(** [_is_public_method]: the first [modifiers] child decides. *)
Definition _is_public_method (method_node : node) (source_code : str)
  : bool :=
  match find (has_type "modifiers") (children method_node) with
  | Some child =>
      let modifiers_text := src_text source_code child in
      contains (lit "public") modifiers_text
  | None => false
  end.

(** The body of the loop of [_extract_parameters_with_types] over the
    children of one formal parameter: [(param_type, param_name)]. *)
Definition scan_param_child (source_code : str)
    (acc : option str * option str) (param_child : node)
  : option str * option str :=
  let (param_type, param_name) := acc in
  if type_in ["type_identifier"; "integral_type"; "floating_point_type";
              "boolean_type"; "generic_type"; "array_type";
              "scoped_type_identifier"; "void_type"] param_child
  then (Some (strip (src_text source_code param_child)), param_name)
  else if has_type "identifier" param_child
  then (param_type, Some (text param_child))
  else (param_type, param_name).

(** The clean-up of a parameter type for dependency tracking. *)
Definition clean_type (param_type : str) : str :=
  let clean := strip (hd [] (split (lit "<") param_type)) in
  strip (replace (lit "[]") [] clean).

(** The body of the outer loop of [_extract_parameters_with_types]. *)
Definition scan_param (source_code : str)
    (acc : list str * list str) (child : node) : list str * list str :=
  let (parameters, parameter_types) := acc in
  if has_type "formal_parameter" child then
    let (param_type, param_name) :=
      fold_left (scan_param_child source_code) (children child)
                (None, None) in
    let parameter_types :=
      match param_type with
      | Some ty => if truthy ty then parameter_types ++ [clean_type ty]
                   else parameter_types
      | None => parameter_types
      end in
    let parameters :=
      match param_type with
      | Some ty =>
          if truthy ty then
            match param_name with
            | Some name =>
                if truthy name
                then parameters ++ [ty ++ lit " " ++ name]
                else parameters ++ [ty]
            | None => parameters ++ [ty]
            end
          else parameters
      | None => parameters
      end in
    (parameters, parameter_types)
  else (parameters, parameter_types).

(** [_extract_parameters_with_types] *)
Definition _extract_parameters_with_types (formal_params_node : node)
    (source_code : str) : list str * list str :=
  fold_left (scan_param source_code) (children formal_params_node)
            ([], []).

Definition primitives_and_common : list str :=
  map lit
    [ "int"; "Integer"; "long"; "Long"; "short"; "Short";
      "byte"; "Byte"; "float"; "Float"; "double"; "Double";
      "boolean"; "Boolean"; "char"; "Character";
      "void"; "Void";
      "String"; "Object";
      "List"; "ArrayList"; "Set"; "HashSet"; "Map"; "HashMap";
      "Collection"; "Iterable"; "Iterator";
      "Optional"; "Stream" ].

(** The second loop of [_filter_complex_types]: [(seen, unique)]. *)
Definition dedup_step (acc : list str * list str) (t : str)
  : list str * list str :=
  let (seen, unique_complex_types) := acc in
  if negb (mem t seen)
  then (t :: seen, unique_complex_types ++ [t])
  else (seen, unique_complex_types).

(** [_filter_complex_types] *)
Definition _filter_complex_types (parameter_types : list str) : list str :=
  let complex_types :=
    fold_left
      (fun acc param_type =>
         if negb (mem param_type primitives_and_common)
         then acc ++ [param_type] else acc)
      parameter_types [] in
  snd (fold_left dedup_step complex_types ([], [])).

(** The declared type of a formal parameter: the stripped text of its last
    type child. *)
Definition declared_type (source_code : str) (param : node) : option str :=
  first_some
    (fun c =>
       if type_in ["type_identifier"; "integral_type"; "floating_point_type";
                   "boolean_type"; "generic_type"; "array_type";
                   "scoped_type_identifier"; "void_type"] c
       then Some (strip (src_text source_code c)) else None)
    (rev (children param)).

(** The non-empty declared types of the formal parameters of a parameter
    list, in order. *)
Definition parameter_types_of (source_code : str) (formal_params_node : node)
  : list str :=
  flat_map
    (fun child =>
       if has_type "formal_parameter" child then
         match declared_type source_code child with
         | Some ty => if truthy ty then [ty] else []
         | None => []
         end
       else [])
    (children formal_params_node).

(** Membership in the exclusion set. *)
Definition excluded (t : str) : bool := mem t primitives_and_common.

Definition str_eq_dec : forall a b : str, {a = b} + {a <> b} :=
  list_eq_dec Z.eq_dec.

(** A list without its repetitions, every element at the place of its
    first occurrence. *)
Definition first_seen (l : list str) : list str :=
  rev (nodup str_eq_dec (rev l)).

(** The variables assigned by the loop of [_extract_method_info]. *)
Record method_vars : Type := MethodVars {
  v_name : option str;
  v_body : option str;
  v_modifiers : list str;
  v_return_type : option str;
  v_parameters : list str;
  v_parameter_types : list str
}.

Definition scan_method_part (source_code : str) (v : method_vars)
    (child : node) : method_vars :=
  if has_type "modifiers" child then
    let modifiers_text := src_text source_code child in
    MethodVars (v_name v) (v_body v) (split_ws modifiers_text)
               (v_return_type v) (v_parameters v) (v_parameter_types v)
  else if has_type "identifier" child then
    MethodVars (Some (text child)) (v_body v) (v_modifiers v)
               (v_return_type v) (v_parameters v) (v_parameter_types v)
  else if type_in ["type_identifier"; "void_type"; "integral_type";
                   "floating_point_type"; "boolean_type"; "generic_type";
                   "array_type"; "scoped_type_identifier"] child then
    MethodVars (v_name v) (v_body v) (v_modifiers v)
               (Some (strip (src_text source_code child)))
               (v_parameters v) (v_parameter_types v)
  else if has_type "formal_parameters" child then
    let (parameters, parameter_types) :=
      _extract_parameters_with_types child source_code in
    MethodVars (v_name v) (v_body v) (v_modifiers v) (v_return_type v)
               parameters parameter_types
  else if type_in ["block"; "constructor_body"] child then
    MethodVars (v_name v) (Some (strip (src_text source_code child)))
               (v_modifiers v) (v_return_type v)
               (v_parameters v) (v_parameter_types v)
  else v.


(** [_extract_method_info] *)
Definition _extract_method_info (method_node : node) (source_code : str)
    (class_context class_name : str) (is_constructor : bool)
  : option chunk :=
  let v := fold_left (scan_method_part source_code) (children method_node)
                     (MethodVars None None [] None [] []) in
  if negb is_constructor && negb (opt_truthy (v_name v)) then None
  else
    let method_name :=
      if is_constructor then lit "<Constructor>"
      else match v_name v with Some n => n | None => [] end in
    let return_type :=
      if is_constructor then None else v_return_type v in
    let method_body :=
      match v_body v with
      | Some b => if truthy b then b
                  else strip (src_text source_code method_node)
      | None => strip (src_text source_code method_node)
      end in
    let dependency_types := _filter_complex_types (v_parameter_types v) in
    let modifiers_str := join (lit " ") (v_modifiers v) in
    let params_str := join (lit ", ") (v_parameters v) in
    let signature_parts :=
      (if truthy modifiers_str then [modifiers_str] else [])
      ++ (if is_constructor
          then [lit "<Constructor>";
                class_name ++ lit "(" ++ params_str ++ lit ")"]
          else [(if opt_truthy return_type
                 then match return_type with Some r => r | None => [] end
                 else lit "void");
                method_name ++ lit "(" ++ params_str ++ lit ")"]) in
    let method_signature := join (lit " ") signature_parts in
    Some (Chunk method_name method_signature method_body class_context
                dependency_types None None None None).

(** The comment markers of [_is_empty_method]. *)
Definition is_code_line (line : str) : bool :=
  truthy line
  && negb (startswith (lit "//") line)
  && negb (startswith (lit "/*") line)
  && negb (startswith (lit "*") line).

(** The body without its surrounding braces. *)
Definition brace_stripped (method_body : str) : str :=
  let body := strip method_body in
  if startswith (lit "{") body && endswith (lit "}") body
  then strip (slice_1_m1 body) else body.

(** The brace-stripped body, split into trimmed lines, has no line that is
    non-empty and does not start with a comment marker. *)
Definition has_no_code_line (method_body : str) : bool :=
  forallb (fun line => negb (is_code_line line))
          (map strip (split [10] (brace_stripped method_body))).

(** [_is_empty_method] *)
Definition _is_empty_method (method_body : str) : bool :=
  let body := strip method_body in
  let body :=
    if startswith (lit "{") body && endswith (lit "}") body
    then strip (slice_1_m1 body) else body in
  if negb (truthy body) then true
  else
    let lines := map strip (split [10] body) in
    let non_comment_lines := filter is_code_line lines in
    (length non_comment_lines =? 0)%nat.

(** The node type of the declarations searched in a class. *)
Definition declaration_type (is_constructor : bool) : String.string :=
  if is_constructor then "constructor_declaration"
  else "method_declaration".

(** What [parse_file] does with one declaration node of a class: nothing
    when it is not public, when no information is extracted or when the
    body is empty; otherwise the chunk with its identifier. *)
Definition declaration_chunks (source_code class_context class_name : str)
    (is_constructor : bool) (method_node : node) : result (list chunk) :=
  if _is_public_method method_node source_code then
    match _extract_method_info method_node source_code class_context
                               class_name is_constructor with
    | Some method_info =>
        if negb (_is_empty_method (method_body method_info)) then
          i <- _generate_method_id class_context
                                   (method_signature method_info) ;;
          Ok [set_id method_info i]
        else Ok []
    | None => Ok []
    end
  else Ok [].

(** The class context [parse_file] computes for a class node. *)
Definition context_of_class (depth : nat) (hierarchy_map : hierarchy)
    (source_code package_name : str) (class_node : node) : result str :=
  let class_name := _get_class_name class_node in
  let fields := _extract_fields class_node source_code in
  let parent_class := _get_parent_class class_node source_code in
  _format_class_context depth hierarchy_map package_name class_name fields
                        parent_class.

(** The body of the loop of [parse_file] over the class nodes. *)
Definition class_chunks (depth : nat) (hierarchy_map : hierarchy)
    (source_code package_name : str) (class_node : node)
  : result (list chunk) :=
  let class_name := _get_class_name class_node in
  class_context <-
    context_of_class depth hierarchy_map source_code package_name
                     class_node ;;
  ms <- mapM (declaration_chunks source_code class_context class_name false)
             (_find_nodes_by_type class_node "method_declaration") ;;
  cs <- mapM (declaration_chunks source_code class_context class_name true)
             (_find_nodes_by_type class_node "constructor_declaration") ;;
  Ok (concat ms ++ concat cs).

(** [parse_file], after the file has been read and parsed. *)
Definition parse_tree (depth : nat) (hierarchy_map : hierarchy)
    (source_code : str) (root_node : node) : result (list chunk) :=
  let package_name := _extract_package_name root_node source_code in
  per_class <-
    mapM (class_chunks depth hierarchy_map source_code package_name)
         (_find_nodes_by_type root_node "class_declaration") ;;
  Ok (concat per_class).


End JavaCodeParser.

(* ------------------------------------------------------------------ *)
(** ** The file system

    Paths are strings with [/] as separator, written as [str(Path(...))]
    writes them: no trailing separator, no doubled separator.  The file
    system is the ordered table of its entries; the order is the one in
    which a directory walk enumerates them.  A file holds the text
    obtained by reading it with [encoding='utf-8', errors='ignore']. *)

Module FS.

Inductive entry : Type :=
| Dir
| File (content : str).

Definition fs := dict entry.

(** [Path(p).exists()] *)
Definition exists_ (p : str) (d : fs) : bool :=
  match dict_get p d with
  | Some _ => true
  | None => false
  end.

(** [open(p, 'r').read()] *)
Definition read_text (p : str) (d : fs) : result str :=
  match dict_get p d with
  | Some (File c) => Ok c
  | Some Dir => Raise OSError
  | None => Raise FileNotFoundError
  end.

(** The directory of a path: what stands before its last separator; empty
    for a name without a separator and for a name directly below [/]. *)
Fixpoint from_separator (reversed : str) : str :=
  match reversed with
  | [] => []
  | c :: t => if c =? 47 then reversed else from_separator t
  end.

Definition parent_dir (p : str) : str :=
  rev (tl (from_separator (rev p))).

(** [open(p, 'w').write(c)]: creates or replaces the file.  The directory
    of [p] has to be there ([FileNotFoundError] when it is missing,
    [NotADirectoryError] when it is a file) and [p] must not be a
    directory ([IsADirectoryError]); the current directory and [/] are
    always there. *)
Definition write_text (p c : str) (d : fs) : result fs :=
  let write :=
    match dict_get p d with
    | Some Dir => Raise OSError
    | _ => Ok (dict_set p (File c) d)
    end in
  match parent_dir p with
  | [] => write
  | q =>
      match dict_get q d with
      | Some Dir => write
      | Some (File _) => Raise OSError
      | None => Raise FileNotFoundError
      end
  end.

(** [root.rglob("*.java")]: every entry below [root] whose name ends in
    [.java], in enumeration order. *)
Definition rglob_java (root : str) (d : fs) : list str :=
  map fst
    (filter (fun e : str * entry =>
               startswith (root ++ lit "/") (fst e)
               && endswith (lit ".java") (fst e))
            d).

(** [Path(p).is_absolute()] *)
Definition is_absolute (p : str) : bool := startswith (lit "/") p.

(** [root / p] as a string: an absolute [p] replaces the root, the
    current directory [.] as root leaves no component (as in
    [str(Path('.') / 'a')], which is ['a']), and a root that ends in a
    separator, as [/] does, takes no second one. *)
Definition joinpath (root p : str) : str :=
  if is_absolute p then p
  else if str_eqb root (lit ".") then p
  else if endswith (lit "/") root then root ++ p
  else root ++ lit "/" ++ p.

(** The components of a path, and a relative path in normal form that
    does not step upwards: no component is empty, [.] or [..].  Such a
    path names its file in one way only. *)
Definition components (p : str) : list str := split (lit "/") p.

Definition plain_path (p : str) : bool :=
  forallb (fun c => truthy c && negb (str_eqb c (lit "."))
                    && negb (str_eqb c (lit "..")))
          (components p).

End FS.

(* ------------------------------------------------------------------ *)
(** ** [HierarchyScanner.build_project_map] *)

Section BuildProjectMap.

(** The grammar library: [parser.parse(bytes(source, 'utf8')).root_node]. *)
Variable ts_parse : str -> result node.

(** [json.dump(hierarchy_map, f, indent=2)] as the text written. *)
Variable json_dump : hierarchy -> str.

(** [_extract_class_info] *)
Definition _extract_class_info (d : FS.fs) (file_path : str)
  : result hierarchy :=
  source_code <- FS.read_text file_path d ;;
  root_node <- ts_parse source_code ;;
  Ok (HierarchyScanner.class_info_of_tree source_code root_node).

(** The body of the loop of [build_project_map] over the files: the
    [try]/[except Exception] around one file. *)
Definition scan_file (d : FS.fs) (hierarchy_map : hierarchy)
    (java_file : str) : hierarchy :=
  match _extract_class_info d java_file with
  | Ok class_info => dict_update hierarchy_map class_info
  | Raise _ => hierarchy_map
  end.

(** The map built by the loop. *)
Definition scan_files (d : FS.fs) (java_files : list str) : hierarchy :=
  fold_left (scan_file d) java_files [].

(** The class information of the files that are processed without an
    exception, in file order, and the merge of a list of such tables into
    one map, later entries replacing earlier ones of the same key. *)
Definition class_infos_read (d : FS.fs) (java_files : list str)
  : list hierarchy :=
  flat_map (fun java_file =>
              match _extract_class_info d java_file with
              | Ok class_info => [class_info]
              | Raise _ => []
              end) java_files.

Definition merge (tables : list hierarchy) : hierarchy :=
  fold_left dict_update tables [].

(** [build_project_map]: the value returned or the exception raised, and
    the file system left behind. *)
Definition build_project_map (d : FS.fs) (root_path output_file : str)
  : result hierarchy * FS.fs :=
  if negb (FS.exists_ root_path d) then (Raise FileNotFoundError, d)
  else
    let java_files := FS.rglob_java root_path d in
    let hierarchy_map := scan_files d java_files in
    let output_path := FS.joinpath root_path output_file in
    match FS.write_text output_path (json_dump hierarchy_map) d with
    | Ok d' => (Ok hierarchy_map, d')
    | Raise e => (Raise e, d)
    end.

(** [JavaCodeParser.parse_file] for a parser holding [hierarchy_map], with
    [depth] nested calls left to the interpreter. *)
Definition parse_file (depth : nat) (hierarchy_map : hierarchy)
    (d : FS.fs) (file_path : str) : result (list chunk) :=
  if negb (FS.exists_ file_path d) then Raise FileNotFoundError
  else
    source_code <- FS.read_text file_path d ;;
    root_node <- ts_parse source_code ;;
    JavaCodeParser.parse_tree depth hierarchy_map source_code root_node.

End BuildProjectMap.

(* ------------------------------------------------------------------ *)
(** ** [IngestionPipeline]: Pass 2 *)

Record stats : Type := Stats {
  files_processed : Z;
  files_failed : Z;
  chunks_indexed : Z;
  total_files : Z
}.

(** [self.stats] as set by [__init__]. *)
Definition init_stats : stats := Stats 0 0 0 0.

(** The calls made to the two collaborators, oldest first. *)
Inductive call : Type :=
| Enrich (buffer : list chunk) (outcome : result (list chunk))
| Write (enriched_chunks : list chunk) (outcome : result unit).

Section IngestionPipeline.

(** [self.parser.parse_file] *)
Variable parse_file : str -> result (list chunk).

(** The enricher and the vector store, each with a state of its own:
    [self.enricher.enrich_batch] and [self.vector_store.add_batch]. *)
Variables E S : Type.
Variable enrich_batch : E -> list chunk -> result (list chunk) * E.
Variable add_batch : S -> list chunk -> result unit * S.

(** [self.batch_size] *)
Variable batch_size : Z.

(** What Pass 2 reads and writes besides its two buffers: the counters,
    the lines appended to the error log ([log_error], which only appends
    and logs), the collaborators and the calls made to them. *)
Record world : Type := World {
  w_stats : stats;
  error_log : list (str * exn);
  enricher : E;
  vector_store : S;
  calls : list call
}.

(** [log_error] *)
Definition log_error (file_path : str) (error : exn) (w : world) : world :=
  World (w_stats w) (error_log w ++ [(file_path, error)])
        (enricher w) (vector_store w) (calls w).

(** [for chunk in chunks: self.log_error(Path(chunk.get('file_path',
    'unknown')), e)] *)
Definition log_chunks (chunks : list chunk) (e : exn) (w : world) : world :=
  fold_left
    (fun w chunk =>
       let file_path :=
         match file_path chunk with
         | Some p => p
         | None => lit "unknown"
         end in
       log_error file_path e w)
    chunks w.

(** [flush_buffer] *)
Definition flush_buffer (buffer : list chunk) (w : world)
  : list chunk * world :=
  match buffer with
  | [] => ([], w)
  | _ =>
      let (outcome, e') := enrich_batch (enricher w) buffer in
      let w := World (w_stats w) (error_log w) e' (vector_store w)
                     (calls w ++ [Enrich buffer outcome]) in
      match outcome with
      | Ok enriched_chunks => (enriched_chunks, w)
      | Raise e => ([], log_chunks buffer e w)
      end
  end.

(** [_write_to_db_sequential] *)
Definition _write_to_db_sequential (enriched_chunks : list chunk)
    (w : world) : world :=
  match enriched_chunks with
  | [] => w
  | _ =>
      let (outcome, s') := add_batch (vector_store w) enriched_chunks in
      let w := World (w_stats w) (error_log w) (enricher w) s'
                     (calls w ++ [Write enriched_chunks outcome]) in
      match outcome with
      | Ok _ =>
          let st := w_stats w in
          World (Stats (files_processed st) (files_failed st)
                       (chunks_indexed st
                        + Z.of_nat (length enriched_chunks))
                       (total_files st))
                (error_log w) (enricher w) (vector_store w) (calls w)
      | Raise e => log_chunks enriched_chunks e w
      end
  end.

(** The local variables of [phase2_ingestion_loop] with the world. *)
Record loop_state : Type := LoopState {
  buffer : list chunk;
  all_enriched_chunks : list chunk;
  the_world : world
}.

Definition with_stats (f : stats -> stats) (w : world) : world :=
  World (f (w_stats w)) (error_log w) (enricher w) (vector_store w)
        (calls w).

(** The chunks of one file as they enter the buffer. *)
Definition tag_chunks (file_path : str) (chunks : list chunk)
  : list chunk :=
  map (fun chunk => set_file_path chunk file_path) chunks.

(** One iteration of the loop over [java_files]. *)
Definition process_file (ls : loop_state) (file_path : str) : loop_state :=
  match parse_file file_path with
  | Ok chunks =>
      let buffer := buffer ls ++ tag_chunks file_path chunks in
      let w :=
        with_stats
          (fun st => Stats (files_processed st + 1) (files_failed st)
                           (chunks_indexed st) (total_files st))
          (the_world ls) in
      if Z.of_nat (length buffer) >=? batch_size then
        let (enriched, w) := flush_buffer buffer w in
        let all_enriched_chunks := all_enriched_chunks ls ++ enriched in
        if Z.of_nat (length all_enriched_chunks) >=? batch_size * 5 then
          LoopState [] [] (_write_to_db_sequential all_enriched_chunks w)
        else LoopState [] all_enriched_chunks w
      else LoopState buffer (all_enriched_chunks ls) w
  | Raise e =>
      let w := log_error file_path e (the_world ls) in
      let w :=
        with_stats
          (fun st => Stats (files_processed st) (files_failed st + 1)
                           (chunks_indexed st) (total_files st))
          w in
      LoopState (buffer ls) (all_enriched_chunks ls) w
  end.

(** The state in which the loop starts. *)
Definition loop_start (java_files : list str) (w : world) : loop_state :=
  LoopState [] []
    (with_stats
       (fun st => Stats (files_processed st) (files_failed st)
                        (chunks_indexed st)
                        (Z.of_nat (length java_files)))
       w).

(** The state after the loop. *)
Definition run_loop (java_files : list str) (w : world) : loop_state :=
  fold_left process_file java_files (loop_start java_files w).

(** What follows the loop: both remainders. *)
Definition drain (ls : loop_state) : world :=
  let (enriched, w) :=
    match buffer ls with
    | [] => ([], the_world ls)
    | _ => flush_buffer (buffer ls) (the_world ls)
    end in
  let all_enriched_chunks := all_enriched_chunks ls ++ enriched in
  match all_enriched_chunks with
  | [] => w
  | _ => _write_to_db_sequential all_enriched_chunks w
  end.

(** [phase2_ingestion_loop] *)
Definition phase2_ingestion_loop (java_files : list str) (w : world)
  : world :=
  drain (run_loop java_files w).

(** The buffers handed to the enricher, the chunks it returned and the
    batches handed to the store, read off the calls. *)
Definition enrich_inputs (cs : list call) : list (list chunk) :=
  flat_map (fun c => match c with
                     | Enrich b _ => [b]
                     | Write _ _ => []
                     end) cs.

Definition enrich_outputs (cs : list call) : list (list chunk) :=
  flat_map (fun c => match c with
                     | Enrich _ (Ok r) => [r]
                     | _ => []
                     end) cs.

Definition write_inputs (cs : list call) : list (list chunk) :=
  flat_map (fun c => match c with
                     | Write b _ => [b]
                     | Enrich _ _ => []
                     end) cs.

(** The chunks parsed from the files that parse, tagged, in file
    order. *)
Definition parsed_chunks (java_files : list str) : list chunk :=
  flat_map (fun file_path =>
              match parse_file file_path with
              | Ok chunks => tag_chunks file_path chunks
              | Raise _ => []
              end) java_files.

Definition parses (file_path : str) : bool :=
  match parse_file file_path with
  | Ok _ => true
  | Raise _ => false
  end.

(** What holds between two iterations of the loop started in [w0], once
    the files [done] have been processed: every chunk parsed so far was
    handed to the enricher or waits in the parse buffer, every chunk the
    enricher returned was handed to the store or waits in the accumulation
    buffer, the counters count the files, and neither buffer is left at or
    above its threshold. *)
Definition loop_invariant (w0 : world) (n_files : nat) (done : list str)
    (ls : loop_state) : Prop :=
  let st := w_stats (the_world ls) in
  exists new : list call,
    calls (the_world ls) = calls w0 ++ new
    /\ concat (enrich_inputs new) ++ buffer ls = parsed_chunks done
    /\ concat (write_inputs new) ++ all_enriched_chunks ls
       = concat (enrich_outputs new)
    /\ files_processed st
       = files_processed (w_stats w0)
         + Z.of_nat (length (filter parses done))
    /\ files_failed st
       = files_failed (w_stats w0)
         + Z.of_nat (length (filter (fun f => negb (parses f)) done))
    /\ total_files st = Z.of_nat n_files
    /\ (buffer ls = [] \/ Z.of_nat (length (buffer ls)) < batch_size)
    /\ (all_enriched_chunks ls = []
        \/ Z.of_nat (length (all_enriched_chunks ls)) < batch_size * 5).

End IngestionPipeline.

Arguments World {E S}.
Arguments w_stats {E S}.
Arguments error_log {E S}.
Arguments enricher {E S}.
Arguments vector_store {E S}.
Arguments calls {E S}.
Arguments log_error {E S}.
Arguments log_chunks {E S}.
Arguments flush_buffer {E S}.
Arguments _write_to_db_sequential {E S}.
Arguments LoopState {E S}.
Arguments buffer {E S}.
Arguments all_enriched_chunks {E S}.
Arguments the_world {E S}.
Arguments with_stats {E S}.
Arguments loop_start {E S}.
Arguments drain {E S}.
Arguments loop_invariant parse_file {E S}.
Arguments process_file parse_file {E S}.
Arguments run_loop parse_file {E S}.
Arguments phase2_ingestion_loop parse_file {E S}.

(* ------------------------------------------------------------------ *)
(** ** Sample sources

    Small Java sources with the syntax trees the Java grammar gives them.
    The sources are ASCII, so byte offsets are character offsets and the
    text of a node is its slice of the source. *)

Module Samples.

Definition tok (src : str) (ty : String.string) (a b : nat)
    (kids : list node) : node :=
  Node (lit ty) a b (slice src a b) kids.

Definition animal_src : str :=
  lit "public class Animal {" ++ [10]
  ++ lit "  public void eat() { return; }" ++ [10]
  ++ lit "  public void sleep() { return; }" ++ [10]
  ++ lit "  public String getName() { return name; }" ++ [10]
  ++ lit "  public void makeSound() { return; }" ++ [10]
  ++ lit "}".

Definition animal_tree : node :=
  let src := animal_src in
  tok src "program" 0 170 [
    tok src "class_declaration" 0 170 [
      tok src "modifiers" 0 6 [
        tok src "public" 0 6 [] ];
      tok src "class" 7 12 [];
      tok src "identifier" 13 19 [];
      tok src "class_body" 20 170 [
        tok src "{" 20 21 [];
        tok src "method_declaration" 24 53 [
          tok src "modifiers" 24 30 [
            tok src "public" 24 30 [] ];
          tok src "void_type" 31 35 [];
          tok src "identifier" 36 39 [];
          tok src "formal_parameters" 39 41 [
            tok src "(" 39 40 [];
            tok src ")" 40 41 [] ];
          tok src "block" 42 53 [
            tok src "{" 42 43 [];
            tok src "return_statement" 44 51 [
              tok src "return" 44 50 [];
              tok src ";" 50 51 [] ];
            tok src "}" 52 53 [] ] ];
        tok src "method_declaration" 56 87 [
          tok src "modifiers" 56 62 [
            tok src "public" 56 62 [] ];
          tok src "void_type" 63 67 [];
          tok src "identifier" 68 73 [];
          tok src "formal_parameters" 73 75 [
            tok src "(" 73 74 [];
            tok src ")" 74 75 [] ];
          tok src "block" 76 87 [
            tok src "{" 76 77 [];
            tok src "return_statement" 78 85 [
              tok src "return" 78 84 [];
              tok src ";" 84 85 [] ];
            tok src "}" 86 87 [] ] ];
        tok src "method_declaration" 90 130 [
          tok src "modifiers" 90 96 [
            tok src "public" 90 96 [] ];
          tok src "type_identifier" 97 103 [];
          tok src "identifier" 104 111 [];
          tok src "formal_parameters" 111 113 [
            tok src "(" 111 112 [];
            tok src ")" 112 113 [] ];
          tok src "block" 114 130 [
            tok src "{" 114 115 [];
            tok src "return_statement" 116 128 [
              tok src "return" 116 122 [];
              tok src "identifier" 123 127 [];
              tok src ";" 127 128 [] ];
            tok src "}" 129 130 [] ] ];
        tok src "method_declaration" 133 168 [
          tok src "modifiers" 133 139 [
            tok src "public" 133 139 [] ];
          tok src "void_type" 140 144 [];
          tok src "identifier" 145 154 [];
          tok src "formal_parameters" 154 156 [
            tok src "(" 154 155 [];
            tok src ")" 155 156 [] ];
          tok src "block" 157 168 [
            tok src "{" 157 158 [];
            tok src "return_statement" 159 166 [
              tok src "return" 159 165 [];
              tok src ";" 165 166 [] ];
            tok src "}" 167 168 [] ] ];
        tok src "}" 169 170 [] ] ] ].

Definition dog_src : str :=
  lit "public class Dog extends Animal {" ++ [10]
  ++ lit "  public void bark() { return; }" ++ [10]
  ++ lit "}".

Definition dog_tree : node :=
  let src := dog_src in
  tok src "program" 0 68 [
    tok src "class_declaration" 0 68 [
      tok src "modifiers" 0 6 [
        tok src "public" 0 6 [] ];
      tok src "class" 7 12 [];
      tok src "identifier" 13 16 [];
      tok src "superclass" 17 31 [
        tok src "extends" 17 24 [];
        tok src "type_identifier" 25 31 [] ];
      tok src "class_body" 32 68 [
        tok src "{" 32 33 [];
        tok src "method_declaration" 36 66 [
          tok src "modifiers" 36 42 [
            tok src "public" 36 42 [] ];
          tok src "void_type" 43 47 [];
          tok src "identifier" 48 52 [];
          tok src "formal_parameters" 52 54 [
            tok src "(" 52 53 [];
            tok src ")" 53 54 [] ];
          tok src "block" 55 66 [
            tok src "{" 55 56 [];
            tok src "return_statement" 57 64 [
              tok src "return" 57 63 [];
              tok src ";" 63 64 [] ];
            tok src "}" 65 66 [] ] ];
        tok src "}" 67 68 [] ] ] ].

Definition empty_src : str :=
  lit "class Empty { }".

Definition empty_tree : node :=
  let src := empty_src in
  tok src "program" 0 15 [
    tok src "class_declaration" 0 15 [
      tok src "class" 0 5 [];
      tok src "identifier" 6 11 [];
      tok src "class_body" 12 15 [
        tok src "{" 12 13 [];
        tok src "}" 14 15 [] ] ] ].

Definition sub_src : str :=
  lit "class Sub extends Empty {" ++ [10]
  ++ lit "  public int one() { return 1; }" ++ [10]
  ++ lit "}".

Definition sub_tree : node :=
  let src := sub_src in
  tok src "program" 0 60 [
    tok src "class_declaration" 0 60 [
      tok src "class" 0 5 [];
      tok src "identifier" 6 9 [];
      tok src "superclass" 10 23 [
        tok src "extends" 10 17 [];
        tok src "type_identifier" 18 23 [] ];
      tok src "class_body" 24 60 [
        tok src "{" 24 25 [];
        tok src "method_declaration" 28 58 [
          tok src "modifiers" 28 34 [
            tok src "public" 28 34 [] ];
          tok src "integral_type" 35 38 [];
          tok src "identifier" 39 42 [];
          tok src "formal_parameters" 42 44 [
            tok src "(" 42 43 [];
            tok src ")" 43 44 [] ];
          tok src "block" 45 58 [
            tok src "{" 45 46 [];
            tok src "return_statement" 47 56 [
              tok src "return" 47 53 [];
              tok src "decimal_integer_literal" 54 55 [];
              tok src ";" 55 56 [] ];
            tok src "}" 57 58 [] ] ];
        tok src "}" 59 60 [] ] ] ].

Definition ext_src : str :=
  lit "class Ext extends Thread {" ++ [10]
  ++ lit "  public int one() { return 1; }" ++ [10]
  ++ lit "}".

Definition ext_tree : node :=
  let src := ext_src in
  tok src "program" 0 61 [
    tok src "class_declaration" 0 61 [
      tok src "class" 0 5 [];
      tok src "identifier" 6 9 [];
      tok src "superclass" 10 24 [
        tok src "extends" 10 17 [];
        tok src "type_identifier" 18 24 [] ];
      tok src "class_body" 25 61 [
        tok src "{" 25 26 [];
        tok src "method_declaration" 29 59 [
          tok src "modifiers" 29 35 [
            tok src "public" 29 35 [] ];
          tok src "integral_type" 36 39 [];
          tok src "identifier" 40 43 [];
          tok src "formal_parameters" 43 45 [
            tok src "(" 43 44 [];
            tok src ")" 44 45 [] ];
          tok src "block" 46 59 [
            tok src "{" 46 47 [];
            tok src "return_statement" 48 57 [
              tok src "return" 48 54 [];
              tok src "decimal_integer_literal" 55 56 [];
              tok src ";" 56 57 [] ];
            tok src "}" 58 59 [] ] ];
        tok src "}" 60 61 [] ] ] ].

Definition calc_src : str :=
  lit "public class Calc {" ++ [10]
  ++ lit "  public int add(int a, int b) { return a; }" ++ [10]
  ++ lit "  public int add(int a) { return a; }" ++ [10]
  ++ lit "  public int neg(int a) { return a; }" ++ [10]
  ++ lit "}".

Definition calc_tree : node :=
  let src := calc_src in
  tok src "program" 0 142 [
    tok src "class_declaration" 0 142 [
      tok src "modifiers" 0 6 [
        tok src "public" 0 6 [] ];
      tok src "class" 7 12 [];
      tok src "identifier" 13 17 [];
      tok src "class_body" 18 142 [
        tok src "{" 18 19 [];
        tok src "method_declaration" 22 64 [
          tok src "modifiers" 22 28 [
            tok src "public" 22 28 [] ];
          tok src "integral_type" 29 32 [];
          tok src "identifier" 33 36 [];
          tok src "formal_parameters" 36 50 [
            tok src "(" 36 37 [];
            tok src "formal_parameter" 37 42 [
              tok src "integral_type" 37 40 [];
              tok src "identifier" 41 42 [] ];
            tok src "," 42 43 [];
            tok src "formal_parameter" 44 49 [
              tok src "integral_type" 44 47 [];
              tok src "identifier" 48 49 [] ];
            tok src ")" 49 50 [] ];
          tok src "block" 51 64 [
            tok src "{" 51 52 [];
            tok src "return_statement" 53 62 [
              tok src "return" 53 59 [];
              tok src "identifier" 60 61 [];
              tok src ";" 61 62 [] ];
            tok src "}" 63 64 [] ] ];
        tok src "method_declaration" 67 102 [
          tok src "modifiers" 67 73 [
            tok src "public" 67 73 [] ];
          tok src "integral_type" 74 77 [];
          tok src "identifier" 78 81 [];
          tok src "formal_parameters" 81 88 [
            tok src "(" 81 82 [];
            tok src "formal_parameter" 82 87 [
              tok src "integral_type" 82 85 [];
              tok src "identifier" 86 87 [] ];
            tok src ")" 87 88 [] ];
          tok src "block" 89 102 [
            tok src "{" 89 90 [];
            tok src "return_statement" 91 100 [
              tok src "return" 91 97 [];
              tok src "identifier" 98 99 [];
              tok src ";" 99 100 [] ];
            tok src "}" 101 102 [] ] ];
        tok src "method_declaration" 105 140 [
          tok src "modifiers" 105 111 [
            tok src "public" 105 111 [] ];
          tok src "integral_type" 112 115 [];
          tok src "identifier" 116 119 [];
          tok src "formal_parameters" 119 126 [
            tok src "(" 119 120 [];
            tok src "formal_parameter" 120 125 [
              tok src "integral_type" 120 123 [];
              tok src "identifier" 124 125 [] ];
            tok src ")" 125 126 [] ];
          tok src "block" 127 140 [
            tok src "{" 127 128 [];
            tok src "return_statement" 129 138 [
              tok src "return" 129 135 [];
              tok src "identifier" 136 137 [];
              tok src ";" 137 138 [] ];
            tok src "}" 139 140 [] ] ];
        tok src "}" 141 142 [] ] ] ].

Definition stubs_src : str :=
  lit "class Stubs {" ++ [10]
  ++ lit "  public void a() { }" ++ [10]
  ++ lit "  public void b() { // comment" ++ [10]
  ++ lit "  }" ++ [10]
  ++ lit "  public int c() { return 1; }" ++ [10]
  ++ lit "  void hidden() { return; }" ++ [10]
  ++ lit "}".

Definition stubs_tree : node :=
  let src := stubs_src in
  tok src "program" 0 131 [
    tok src "class_declaration" 0 131 [
      tok src "class" 0 5 [];
      tok src "identifier" 6 11 [];
      tok src "class_body" 12 131 [
        tok src "{" 12 13 [];
        tok src "method_declaration" 16 35 [
          tok src "modifiers" 16 22 [
            tok src "public" 16 22 [] ];
          tok src "void_type" 23 27 [];
          tok src "identifier" 28 29 [];
          tok src "formal_parameters" 29 31 [
            tok src "(" 29 30 [];
            tok src ")" 30 31 [] ];
          tok src "block" 32 35 [
            tok src "{" 32 33 [];
            tok src "}" 34 35 [] ] ];
        tok src "method_declaration" 38 70 [
          tok src "modifiers" 38 44 [
            tok src "public" 38 44 [] ];
          tok src "void_type" 45 49 [];
          tok src "identifier" 50 51 [];
          tok src "formal_parameters" 51 53 [
            tok src "(" 51 52 [];
            tok src ")" 52 53 [] ];
          tok src "block" 54 70 [
            tok src "{" 54 55 [];
            tok src "line_comment" 56 66 [];
            tok src "}" 69 70 [] ] ];
        tok src "method_declaration" 73 101 [
          tok src "modifiers" 73 79 [
            tok src "public" 73 79 [] ];
          tok src "integral_type" 80 83 [];
          tok src "identifier" 84 85 [];
          tok src "formal_parameters" 85 87 [
            tok src "(" 85 86 [];
            tok src ")" 86 87 [] ];
          tok src "block" 88 101 [
            tok src "{" 88 89 [];
            tok src "return_statement" 90 99 [
              tok src "return" 90 96 [];
              tok src "decimal_integer_literal" 97 98 [];
              tok src ";" 98 99 [] ];
            tok src "}" 100 101 [] ] ];
        tok src "method_declaration" 104 129 [
          tok src "void_type" 104 108 [];
          tok src "identifier" 109 115 [];
          tok src "formal_parameters" 115 117 [
            tok src "(" 115 116 [];
            tok src ")" 116 117 [] ];
          tok src "block" 118 129 [
            tok src "{" 118 119 [];
            tok src "return_statement" 120 127 [
              tok src "return" 120 126 [];
              tok src ";" 126 127 [] ];
            tok src "}" 128 129 [] ] ];
        tok src "}" 130 131 [] ] ] ].

Definition bank_src : str :=
  lit "class Bank {" ++ [10]
  ++ lit "  public void pay(Transaction t1, Transaction t2) { return; }" ++ [10]
  ++ lit "  public void log(int x, String s) { return; }" ++ [10]
  ++ lit "}".

Definition bank_tree : node :=
  let src := bank_src in
  tok src "program" 0 123 [
    tok src "class_declaration" 0 123 [
      tok src "class" 0 5 [];
      tok src "identifier" 6 10 [];
      tok src "class_body" 11 123 [
        tok src "{" 11 12 [];
        tok src "method_declaration" 15 74 [
          tok src "modifiers" 15 21 [
            tok src "public" 15 21 [] ];
          tok src "void_type" 22 26 [];
          tok src "identifier" 27 30 [];
          tok src "formal_parameters" 30 62 [
            tok src "(" 30 31 [];
            tok src "formal_parameter" 31 45 [
              tok src "type_identifier" 31 42 [];
              tok src "identifier" 43 45 [] ];
            tok src "," 45 46 [];
            tok src "formal_parameter" 47 61 [
              tok src "type_identifier" 47 58 [];
              tok src "identifier" 59 61 [] ];
            tok src ")" 61 62 [] ];
          tok src "block" 63 74 [
            tok src "{" 63 64 [];
            tok src "return_statement" 65 72 [
              tok src "return" 65 71 [];
              tok src ";" 71 72 [] ];
            tok src "}" 73 74 [] ] ];
        tok src "method_declaration" 77 121 [
          tok src "modifiers" 77 83 [
            tok src "public" 77 83 [] ];
          tok src "void_type" 84 88 [];
          tok src "identifier" 89 92 [];
          tok src "formal_parameters" 92 109 [
            tok src "(" 92 93 [];
            tok src "formal_parameter" 93 98 [
              tok src "integral_type" 93 96 [];
              tok src "identifier" 97 98 [] ];
            tok src "," 98 99 [];
            tok src "formal_parameter" 100 108 [
              tok src "type_identifier" 100 106 [];
              tok src "identifier" 107 108 [] ];
            tok src ")" 108 109 [] ];
          tok src "block" 110 121 [
            tok src "{" 110 111 [];
            tok src "return_statement" 112 119 [
              tok src "return" 112 118 [];
              tok src ";" 118 119 [] ];
            tok src "}" 120 121 [] ] ];
        tok src "}" 122 123 [] ] ] ].


(** The class declared by a sample and the [k]-th child of its body. *)
Definition class_of (tree : node) : node := hd tree (children tree).

Definition member (k : nat) (class_node : node) : node :=
  match class_body_of class_node with
  | Some class_body => nth k (children class_body) class_node
  | None => class_node
  end.

(** A stand-in for the grammar library: the trees of two samples, and a
    program without children for any other source. *)
Definition ts_parse (source_code : str) : result node :=
  if str_eqb source_code animal_src then Ok animal_tree
  else if str_eqb source_code dog_src then Ok dog_tree
  else Ok (tok source_code "program" 0 (length source_code) []).

(** A stand-in for the serialiser: the keys of the map. *)
Definition json_dump (hierarchy_map : hierarchy) : str :=
  join (lit ",") (map fst hierarchy_map).

(** A project of two sources and a directory whose name ends in [.java],
    which cannot be read as a file. *)
Definition project : FS.fs :=
  [ (lit "/proj", FS.Dir);
    (lit "/proj/Animal.java", FS.File animal_src);
    (lit "/proj/gen.java", FS.Dir);
    (lit "/proj/Dog.java", FS.File dog_src) ].

(** Stand-ins for the collaborators of Pass 2: an enricher that returns
    its input and a store that accepts every batch and keeps their sizes. *)
Definition enrich_batch (e : unit) (buffer : list chunk)
  : result (list chunk) * unit :=
  (Ok buffer, e).

Definition add_batch (sizes : list nat) (enriched_chunks : list chunk)
  : result unit * list nat :=
  (Ok tt, sizes ++ [length enriched_chunks]).

(** A recursion depth the interpreter leaves to the parser in any run:
    its default limit is 1000 frames, of which the callers of the parser
    hold some dozens. *)
Definition depth : nat := 900.

End Samples.

(* ------------------------------------------------------------------ *)
(** ** More of the syntax tree *)

(** The nodes of a tree in document order: the node, then the nodes of
    each child. *)
Fixpoint subnodes (n : node) : list node :=
  match n with
  | Node _ _ _ _ cs => n :: flat_map subnodes cs
  end.

(** [JavaCodeParser._extract_parameters]: the formatted parameters only. *)
Definition _extract_parameters (formal_params_node : node)
    (source_code : str) : list str :=
  fst (JavaCodeParser._extract_parameters_with_types formal_params_node
                                                     source_code).

(** A formatted parameter and the type recorded for it: the type as
    declared, alone or followed by the name, and its cleaned form. *)
Definition parameter_of_type (parameter parameter_type : str) : Prop :=
  exists declared,
    truthy declared = true
    /\ parameter_type = JavaCodeParser.clean_type declared
    /\ (parameter = declared
        \/ exists name,
             truthy name = true
             /\ parameter = declared ++ lit " " ++ name).

(* ------------------------------------------------------------------ *)
(** ** More sample sources

    A class nested in another one, and an abstract class in a package. *)

Module MoreSamples.

Definition nest_src : str :=
  lit "class Outer {" ++ [10]
  ++ lit "  class Inner {" ++ [10]
  ++ lit "    public int f() { return 1; }" ++ [10]
  ++ lit "  }" ++ [10]
  ++ lit "}".

Definition nest_tree : node :=
  let src := nest_src in
  Samples.tok src "program" 0 68 [
    Samples.tok src "class_declaration" 0 68 [
      Samples.tok src "class" 0 5 [];
      Samples.tok src "identifier" 6 11 [];
      Samples.tok src "class_body" 12 68 [
        Samples.tok src "{" 12 13 [];
        Samples.tok src "class_declaration" 16 66 [
          Samples.tok src "class" 16 21 [];
          Samples.tok src "identifier" 22 27 [];
          Samples.tok src "class_body" 28 66 [
            Samples.tok src "{" 28 29 [];
            Samples.tok src "method_declaration" 34 62 [
              Samples.tok src "modifiers" 34 40 [
                Samples.tok src "public" 34 40 [] ];
              Samples.tok src "integral_type" 41 44 [];
              Samples.tok src "identifier" 45 46 [];
              Samples.tok src "formal_parameters" 46 48 [
                Samples.tok src "(" 46 47 [];
                Samples.tok src ")" 47 48 [] ];
              Samples.tok src "block" 49 62 [
                Samples.tok src "{" 49 50 [];
                Samples.tok src "return_statement" 51 60 [
                  Samples.tok src "return" 51 57 [];
                  Samples.tok src "decimal_integer_literal" 58 59 [];
                  Samples.tok src ";" 59 60 [] ];
                Samples.tok src "}" 61 62 [] ] ];
            Samples.tok src "}" 65 66 [] ] ];
        Samples.tok src "}" 67 68 [] ] ] ].

Definition shape_src : str :=
  lit "package com.geo;" ++ [10]
  ++ lit "public abstract class Shape {" ++ [10]
  ++ lit "  public abstract int area();" ++ [10]
  ++ lit "}".

Definition shape_tree : node :=
  let src := shape_src in
  Samples.tok src "program" 0 78 [
    Samples.tok src "package_declaration" 0 16 [
      Samples.tok src "package" 0 7 [];
      Samples.tok src "scoped_identifier" 8 15 [
        Samples.tok src "identifier" 8 11 [];
        Samples.tok src "." 11 12 [];
        Samples.tok src "identifier" 12 15 [] ];
      Samples.tok src ";" 15 16 [] ];
    Samples.tok src "class_declaration" 17 78 [
      Samples.tok src "modifiers" 17 32 [
        Samples.tok src "public" 17 23 [];
        Samples.tok src "abstract" 24 32 [] ];
      Samples.tok src "class" 33 38 [];
      Samples.tok src "identifier" 39 44 [];
      Samples.tok src "class_body" 45 78 [
        Samples.tok src "{" 45 46 [];
        Samples.tok src "method_declaration" 49 76 [
          Samples.tok src "modifiers" 49 64 [
            Samples.tok src "public" 49 55 [];
            Samples.tok src "abstract" 56 64 [] ];
          Samples.tok src "integral_type" 65 68 [];
          Samples.tok src "identifier" 69 73 [];
          Samples.tok src "formal_parameters" 73 75 [
            Samples.tok src "(" 73 74 [];
            Samples.tok src ")" 74 75 [] ];
          Samples.tok src ";" 75 76 [] ];
        Samples.tok src "}" 77 78 [] ] ] ].

(** The parser on the sample project, without a hierarchy map, and the
    sources of the project as Pass 2 finds them. *)
Definition sample_parse : str -> result (list chunk) :=
  parse_file Samples.ts_parse Samples.depth [] Samples.project.

Definition sample_files : list str :=
  FS.rglob_java (lit "/proj") Samples.project.

Definition sample_world : world unit (list nat) :=
  World init_stats [] tt [] [].

(** A store that refuses every batch. *)
Definition refuse_batch (sizes : list nat) (enriched_chunks : list chunk)
  : result unit * list nat :=
  (Raise OSError, sizes).

(** A chunk of [Dog] as Pass 2 hands it on, with the map of [Animal]. *)
Definition animal_map : hierarchy :=
  HierarchyScanner.class_info_of_tree Samples.animal_src
                                      Samples.animal_tree.

Definition dog_chunk : chunk :=
  Chunk (lit "bark") (lit "public void bark()") (lit "{ return; }")
        (lit "Package: None, Class: Dog, Fields: None, Extends: Animal, Inherited Methods: [eat, sleep, getName, makeSound]")
        [] None (Some (lit "/proj/Dog.java")) None None.

End MoreSamples.

(* ------------------------------------------------------------------ *)
(** ** More of the hierarchy map *)

(** The key under which [_extract_class_info] records a class: the local
    [full_class_name]. *)
Definition full_class_name (package_name class_name : str) : str :=
  if truthy package_name && negb (str_eqb package_name (lit "None"))
  then package_name ++ lit "." ++ class_name
  else class_name.

(** The name on which [_get_inherited_methods] calls itself for a parent
    name: the non-empty recorded parent of the entry the lookup finds. *)
Definition grandparent_of (hierarchy_map : hierarchy) (parent_class : str)
  : option str :=
  match JavaCodeParser.lookup_parent hierarchy_map parent_class with
  | Some parent_info =>
      match parent parent_info with
      | Some grandparent =>
          if truthy grandparent then Some grandparent else None
      | None => None
      end
  | None => None
  end.

(** Names closed under the step to the grandparent: from each of them the
    recursion goes on to another one of them. *)
Definition closed_cycle (hierarchy_map : hierarchy) (names : list str)
  : bool :=
  forallb (fun q => match grandparent_of hierarchy_map q with
                    | Some g => mem g names
                    | None => false
                    end) names.

(* ------------------------------------------------------------------ *)
(** ** What Pass 2 leaves in the counters and in the error log *)

(** [chunk.get('file_path', 'unknown')] *)
Definition chunk_path (c : chunk) : str :=
  match file_path c with
  | Some p => p
  | None => lit "unknown"
  end.

(** The number of chunks in the batches the store accepted. *)
Definition indexed (cs : list call) : Z :=
  fold_right
    (fun c n => match c with
                | Write b (Ok _) => Z.of_nat (length b) + n
                | _ => n
                end) 0 cs.

(** The lines logged for the batches the enricher or the store refused:
    one per chunk of the batch. *)
Definition chunk_errors (cs : list call) : list (str * exn) :=
  flat_map
    (fun c => match c with
              | Enrich b (Raise e) => map (fun ch => (chunk_path ch, e)) b
              | Write b (Raise e) => map (fun ch => (chunk_path ch, e)) b
              | _ => []
              end) cs.

Section Ledger.

Variable parse_file : str -> result (list chunk).
Variables E S : Type.
Variable enrich_batch : E -> list chunk -> result (list chunk) * E.
Variable add_batch : S -> list chunk -> result unit * S.

(** The lines logged for the files that do not parse. *)
Definition file_errors (java_files : list str) : list (str * exn) :=
  flat_map (fun f => match parse_file f with
                     | Ok _ => []
                     | Raise e => [(f, e)]
                     end) java_files.

(** A recorded call that was made: on a non-empty batch, with the outcome
    the collaborator gives in some state. *)
Definition call_made (c : call) : Prop :=
  match c with
  | Enrich b o => b <> [] /\ exists e, o = fst (enrich_batch e b)
  | Write b o => b <> [] /\ exists s, o = fst (add_batch s b)
  end.

(** From one world to a later one: the calls made in between, what they
    add to the chunk counter and, with the lines [fe] logged for files, to
    the error log. *)
Definition delta (w w' : world E S) (fe : list (str * exn)) : Prop :=
  exists new : list call,
    calls w' = calls w ++ new
    /\ chunks_indexed (w_stats w')
       = chunks_indexed (w_stats w) + indexed new
    /\ Permutation (error_log w')
                   (error_log w ++ fe ++ chunk_errors new)
    /\ Forall call_made new.

End Ledger.

Arguments call_made {E S}.
Arguments delta {E S}.

(** A call on a full batch: at least the flush size for the enricher, at
    least five times the flush size for the store. *)
Definition full_batch (batch_size : Z) (c : call) : Prop :=
  match c with
  | Enrich b _ => batch_size <= Z.of_nat (length b)
  | Write b _ => batch_size * 5 <= Z.of_nat (length b)
  end.

(* ------------------------------------------------------------------ *)
(** ** CodeEnricher *)

(** [chunk['summary'] = summary; chunk['keywords'] = keywords] *)
Definition with_enrichment (c : chunk) (summary_text : str)
    (keyword_list : list str) : chunk :=
  Chunk (method_name c) (method_signature c) (method_body c)
        (class_context c) (dependency_types c) (id c) (file_path c)
        (Some summary_text) (Some keyword_list).

(** A chunk and what the enricher makes of it: the same chunk with a
    summary and at most five keywords. *)
Definition enriches (c c' : chunk) : Prop :=
  method_name c' = method_name c
  /\ method_signature c' = method_signature c
  /\ method_body c' = method_body c
  /\ class_context c' = class_context c
  /\ dependency_types c' = dependency_types c
  /\ id c' = id c
  /\ file_path c' = file_path c
  /\ exists s k,
       summary c' = Some s /\ keywords c' = Some k
       /\ (length k <= 5)%nat.

Module CodeEnricher.

Section Enricher.

(** [str.lower] *)
Variable lower : str -> str.

(** The language model behind [_llm_enrich]: the request built from the
    chunk and the parsing of the answer up to its validation, which give
    the summary and the keywords of the answer or raise.  The state is
    whatever the service keeps between two requests. *)
Variable O : Type.
Variable llm : O -> chunk -> result (str * list str) * O.

(** [_mock_enrich] *)
Definition _mock_enrich (c : chunk) : chunk :=
  let name := method_name c in
  let summary_text :=
    if str_eqb name (lit "<Constructor>")
    then lit "Constructor that initializes a new instance with provided parameters"
    else lit "Method " ++ name ++ lit " performs business logic operations" in
  let keyword_list :=
    [ (if negb (str_eqb name (lit "<Constructor>")) then lower name
       else lit "constructor");
      lit "java";
      lit "method" ] in
  let keyword_list :=
    match dependency_types c with
    | [] => keyword_list
    | deps => keyword_list ++ map lower (firstn 2 deps)
    end in
  with_enrichment c summary_text (firstn 5 keyword_list).

(** [_add_fallback_enrichment] *)
Definition _add_fallback_enrichment (c : chunk) : chunk :=
  let name := method_name c in
  with_enrichment c (lit "Method " ++ name ++ lit " - enrichment unavailable")
                  [lower name; lit "java"].

(** [_llm_enrich]: an oversized body is not sent; an answer that fails,
    or does not parse, is replaced by the fallback. *)
Definition _llm_enrich (o : O) (c : chunk) : chunk * O :=
  let name := method_name c in
  if 50000 <? Z.of_nat (length (method_body c)) then
    (with_enrichment c
       (lit "Large method: " ++ name ++ lit " (too large for LLM analysis)")
       [name; lit "large-method"; lit "auto-generated"],
     o)
  else
    let (answer, o') := llm o c in
    match answer with
    | Ok (summary_text, keyword_list) =>
        (with_enrichment c summary_text (firstn 5 keyword_list), o')
    | Raise _ => (_add_fallback_enrichment c, o')
    end.

(** [_enrich_single_chunk] *)
Definition _enrich_single_chunk (mock_mode : bool) (o : O) (c : chunk)
  : chunk * O :=
  if mock_mode then (_mock_enrich c, o) else _llm_enrich o c.

(** [enrich_batch]: the results of the tasks in the order of the chunks;
    a task that raised would be left out, and none does. *)
Definition enrich_batch (mock_mode : bool) (o : O) (chunks : list chunk)
  : result (list chunk) * O :=
  let (successful, o') :=
    fold_left
      (fun (acc : list chunk * O) c =>
         let (enriched, o1) := acc in
         let (c', o2) := _enrich_single_chunk mock_mode o1 c in
         (enriched ++ [c'], o2))
      chunks ([], o) in
  (Ok successful, o').

End Enricher.

End CodeEnricher.

(* ------------------------------------------------------------------ *)
(** ** VectorStore: the metadata of a chunk *)

(** [s.find(p)]: the position of the first occurrence of [p] in [s]. *)
Fixpoint find_at (p s : str) : option nat :=
  if startswith p s then Some O
  else match s with
       | [] => None
       | _ :: t => match find_at p t with
                   | Some i => Some (S i)
                   | None => None
                   end
       end.

(** [s.index(p, start)] for [start] within [s]; [None] stands for the
    [ValueError] raised when [p] does not occur from [start] on. *)
Definition index_from (p s : str) (start : nat) : option nat :=
  match find_at p (skipn start s) with
  | Some i => Some (start + i)%nat
  | None => None
  end.

(** The dict built by [extract_metadata]. *)
Record metadata : Type := Metadata {
  m_package : str;
  m_class_name : str;
  m_signature : str;
  m_method_name : str;
  m_dependencies : list str;
  m_inherited_methods : list str;
  m_file_path : str
}.

(** The three readings [extract_metadata] takes from the class context. *)
Definition package_of (context : str) : str :=
  if contains (lit "Package: ") context then
    let package_part := hd [] (split (lit ",") context) in
    strip (replace (lit "Package: ") [] package_part)
  else lit "Unknown".

Definition class_name_of (context : str) : str :=
  if contains (lit "Class: ") context then
    let class_parts := split (lit "Class: ") context in
    if (1 <? length class_parts)%nat
    then strip (hd [] (split (lit ",") (nth 1 class_parts [])))
    else lit "Unknown"
  else lit "Unknown".

Definition inherited_marker : str := lit "Inherited Methods: [".

Definition inherited_methods_of (context : str) : option (list str) :=
  if contains inherited_marker context then
    match index_from inherited_marker context 0 with
    | Some i =>
        let start := (i + length inherited_marker)%nat in
        match index_from (lit "]") context start with
        | Some stop =>
            let inherited_str := slice context start stop in
            Some (filter truthy
                    (map strip (split (lit ",") inherited_str)))
        | None => None
        end
    | None => None
    end
  else Some [].

(** [extract_metadata]; [None] stands for the [ValueError] of
    [str.index]. *)
Definition extract_metadata (c : chunk) (path : option str)
  : option metadata :=
  let context := class_context c in
  let package := package_of context in
  let class_name := class_name_of context in
  match inherited_methods_of context with
  | Some inherited_methods =>
      Some (Metadata package class_name (method_signature c)
              (method_name c) (dependency_types c) inherited_methods
              (match path with
               | Some p => if truthy p then p else lit "unknown"
               | None => lit "unknown"
               end))
  | None => None
  end.

(** Text without a comma, a colon, a closing bracket or white space, as a
    Java name is. *)
Definition plain_char (ch : Z) : bool :=
  negb (ch =? 44) && negb (ch =? 58) && negb (ch =? 93)
  && negb (isspace ch).

Definition plain (s : str) : bool := forallb plain_char s.

(** The package as the class context shows it. *)
Definition shown_package (package_name : str) : str :=
  if truthy package_name then package_name else lit "None".

(* ------------------------------------------------------------------ *)
(** ** The bytes of a code point

    What [Utf8.encode_cp] returns for a code point it encodes, in
    arithmetic. *)

Definition bytes_of (c : Z) : list Z :=
  if c <? 0x80 then [c]
  else if c <? 0x800 then [192 + c / 64; 128 + c mod 64]
  else if c <? 0x10000 then
    [224 + c / 4096; 128 + (c / 64) mod 64; 128 + c mod 64]
  else [240 + c / 262144; 128 + (c / 4096) mod 64;
        128 + (c / 64) mod 64; 128 + c mod 64].

(* ------------------------------------------------------------------ *)
(** ** Pass 1 as the pipeline runs it, and the map the parser loads

    Paths are the strings [str(Path(...))] gives. *)

Section Phase1.

Variable ts_parse : str -> result node.
Variable json_dump : hierarchy -> str.

(** [json.load] on the text of a file. *)
Variable json_load : str -> result hierarchy.

(** [self.root_path / "project_hierarchy.json"] *)
Definition hierarchy_file_of (root_path : str) : str :=
  FS.joinpath root_path (lit "project_hierarchy.json").

(** [phase1_hierarchy_scan]: the path returned, or the exception of the
    scan, and the file system left behind. *)
Definition phase1_hierarchy_scan (d : FS.fs) (root_path : str)
  : result str * FS.fs :=
  let hierarchy_file := hierarchy_file_of root_path in
  match build_project_map ts_parse json_dump d root_path hierarchy_file with
  | (Ok _, d') => (Ok hierarchy_file, d')
  | (Raise e, d') => (Raise e, d')
  end.

(** [_load_hierarchy_map]: the map read from the file, or the empty map
    when the file is missing or cannot be read or parsed. *)
Definition _load_hierarchy_map (d : FS.fs) (hierarchy_map_path : str)
  : hierarchy :=
  match FS.read_text hierarchy_map_path d with
  | Ok content =>
      match json_load content with
      | Ok hierarchy_map => hierarchy_map
      | Raise _ => []
      end
  | Raise _ => []
  end.

(** The map held by [JavaCodeParser(hierarchy_map_path=...)]. *)
Definition parser_hierarchy_map (d : FS.fs) (hierarchy_map_path : str)
  : hierarchy :=
  if truthy hierarchy_map_path
  then _load_hierarchy_map d hierarchy_map_path
  else [].

End Phase1.

(* ------------------------------------------------------------------ *)
(** ** What the parser returned during a run *)

(** The chunks [parse_file] returns for the files of a list, each with
    the file it was returned for, in order; a file on which it raises
    gives none. *)
Definition returned_chunks (parse_file : str -> result (list chunk))
    (java_files : list str) : list (str * chunk) :=
  flat_map (fun file_path =>
              match parse_file file_path with
              | Ok chunks => map (pair file_path) chunks
              | Raise _ => []
              end) java_files.

(** [handed] is the chunk [snd returned], returned for the file
    [fst returned], with the path of that file recorded and nothing else
    changed. *)
Definition handed_on (returned : str * chunk) (handed : chunk) : Prop :=
  file_path handed = Some (fst returned)
  /\ method_name handed = method_name (snd returned)
  /\ method_signature handed = method_signature (snd returned)
  /\ method_body handed = method_body (snd returned)
  /\ class_context handed = class_context (snd returned)
  /\ dependency_types handed = dependency_types (snd returned)
  /\ id handed = id (snd returned)
  /\ summary handed = summary (snd returned)
  /\ keywords handed = keywords (snd returned).

(* ------------------------------------------------------------------ *)
(** ** Java declarations, read off the syntax tree

    What a source declares, said with the tree alone and without the
    functions of the parser and the scanner: the text of a node is its
    [text], a modifier is a token of the [modifiers] node, the name is the
    [identifier] child.  The code reads most of this through slices of the
    decoded source taken at byte offsets; on an ASCII source the slice of a
    node is its text, elsewhere it need not be. *)

Module Java.

(** Text every character of which is one byte of UTF-8. *)
Definition ascii (s : str) : bool :=
  forallb (fun c => (0 <=? c) && (c <? 128)) s.

(** The tree lies over the source: the bytes of the text of every node
    are the bytes of the source between the offsets of the node. *)
Definition tree_of (source_code : str) (root_node : node) : bool :=
  match Utf8.encode source_code with
  | Ok bytes =>
      forallb
        (fun n =>
           match Utf8.encode (text n) with
           | Ok b => str_eqb b (slice bytes (start_byte n) (end_byte n))
           | Raise _ => false
           end)
        (subnodes root_node)
  | Raise _ => false
  end.

(** *** Modifiers and names *)

(** The modifiers of a declaration: the tokens and annotations of its
    [modifiers] node. *)
Definition modifiers_of (m : node) : list node :=
  flat_map children (filter (has_type "modifiers") (children m)).

(** The declaration has the modifier [public]. *)
Definition is_public (m : node) : bool :=
  existsb (has_type "public") (modifiers_of m).

(** The word [public] stands in the text of the modifiers as the modifier
    only, not inside an annotation. *)
Definition plain_modifiers (m : node) : bool :=
  forallb
    (fun c => Bool.eqb (contains (lit "public") (text c))
                       (existsb (has_type "public") (children c)))
    (filter (has_type "modifiers") (children m)).


(** The name of a declaration: the text of its [identifier] child, the
    last should there be several; empty without one. *)
Definition name_of (m : node) : str :=
  match find (has_type "identifier") (rev (children m)) with
  | Some c => text c
  | None => []
  end.

(** A public method declaration: it has the modifier and a name. *)
Definition public_method (m : node) : bool :=
  has_type "method_declaration" m && is_public m && truthy (name_of m).

(** *** Bodies *)

(** The block of a declaration, the last should there be several. *)
Definition block_of (m : node) : option node :=
  find (type_in ["block"; "constructor_body"]) (rev (children m)).

(** The text of the block; empty for a declaration without one, such as
    an abstract method. *)
Definition block_text (m : node) : str :=
  match block_of m with
  | Some b => text b
  | None => []
  end.

(** The text taken for the body: the block without the white space
    around it or, when that is empty, the whole declaration. *)
Definition body_text (m : node) : str :=
  if truthy (strip (block_text m)) then strip (block_text m)
  else strip (text m).

(** A body without the braces around it. *)
Definition unbraced (body : str) : str :=
  let b := strip body in
  match b with
  | 123 :: inside =>
      match rev inside with
      | 125 :: reversed => strip (rev reversed)
      | _ => b
      end
  | _ => b
  end.

Definition comment_markers : list str := [lit "//"; lit "/*"; lit "*"].

(** A line that is empty or starts with a comment marker. *)
Definition idle_line (line : str) : bool :=
  negb (truthy line)
  || existsb (fun marker => startswith marker line) comment_markers.

(** The body, without its braces and split into trimmed lines, has no
    line that is non-empty and does not start with a comment marker. *)
Definition no_code (body : str) : bool :=
  forallb idle_line (map strip (split [10] (unbraced body))).

(** *** Inheritance *)

(** The text up to the first occurrence of a character. *)
Fixpoint upto (stop : Z) (s : str) : str :=
  match s with
  | [] => []
  | c :: t => if c =? stop then [] else c :: upto stop t
  end.

(** The type named by the extends clause of a class: the first type
    below its [superclass] node. *)
Definition superclass_type (class_node : node) : option node :=
  find (type_in ["type_identifier"; "generic_type";
                 "scoped_type_identifier"])
       (flat_map children
          (filter (has_type "superclass") (children class_node))).

(** The parent of a class: the type of its extends clause without
    generic arguments. *)
Definition parent_of (class_node : node) : option str :=
  match superclass_type class_node with
  | Some t => Some (strip (upto 60 (text t)))
  | None => None
  end.

(** The key [k] ends in [.p]. *)
Definition ends_in_dot (p k : str) : Prop :=
  exists qualifier, k = qualifier ++ lit "." ++ p.

(** An entry goes by the name [p]: its simple name is [p] or its key ends
    in [.p]. *)
Definition goes_by (p : str) (e : str * class_info) : Prop :=
  simple_name (snd e) = p \/ ends_in_dot p (fst e).

(** How a parent name resolves in the map: to the entry whose key it is,
    else to the first entry that goes by the name. *)
Inductive resolves (hierarchy_map : hierarchy) (p : str)
  : class_info -> Prop :=
| resolves_key (before after : hierarchy) (info : class_info) :
    hierarchy_map = before ++ (p, info) :: after ->
    (forall e, In e before -> fst e <> p) ->
    resolves hierarchy_map p info
| resolves_name (before after : hierarchy) (e : str * class_info) :
    (forall e', In e' hierarchy_map -> fst e' <> p) ->
    hierarchy_map = before ++ e :: after ->
    goes_by p e ->
    (forall e', In e' before -> ~ goes_by p e') ->
    resolves hierarchy_map p (snd e).

(** The name is not in the map. *)
Definition unknown (hierarchy_map : hierarchy) (p : str) : Prop :=
  forall e, In e hierarchy_map -> fst e <> p /\ ~ goes_by p e.

(** The ancestors of a parent name, nearest first: none when the name is
    not in the map; the chain ends with the first ancestor that records no
    parent or whose parent is not in the map. *)
Inductive lineage (hierarchy_map : hierarchy)
  : str -> list class_info -> Prop :=
| lineage_unknown (p : str) :
    unknown hierarchy_map p ->
    lineage hierarchy_map p []
| lineage_root (p : str) (info : class_info) :
    resolves hierarchy_map p info ->
    parent info = None \/ parent info = Some [] ->
    lineage hierarchy_map p [info]
| lineage_step (p grandparent : str) (info : class_info)
               (chain : list class_info) :
    resolves hierarchy_map p info ->
    parent info = Some grandparent ->
    grandparent <> [] ->
    lineage hierarchy_map grandparent chain ->
    lineage hierarchy_map p (info :: chain).


(** *** Parameters *)

Definition type_kinds : list String.string :=
  ["type_identifier"; "integral_type"; "floating_point_type";
   "boolean_type"; "generic_type"; "array_type";
   "scoped_type_identifier"; "void_type"].

(** The parameters of a parameter list, the variable-arity one
    included. *)
Definition parameters_of (formal_params_node : node) : list node :=
  filter (type_in ["formal_parameter"; "spread_parameter"])
         (children formal_params_node).

(** The type a parameter is declared with; empty without one. *)
Definition type_of (parameter : node) : str :=
  match find (type_in type_kinds) (rev (children parameter)) with
  | Some t => strip (text t)
  | None => []
  end.

(** A type without its generic arguments and array suffixes. *)
Definition erased (t : str) : str :=
  strip (replace (lit "[]") [] (strip (upto 60 t))).

(** The types that are no dependencies: the primitives and their
    wrappers, [String], [Object], the core collections and interfaces,
    [Optional] and [Stream]. *)
Definition common_types : list str :=
  map lit
    [ "int"; "long"; "short"; "byte"; "float"; "double"; "boolean";
      "char"; "void";
      "Integer"; "Long"; "Short"; "Byte"; "Float"; "Double"; "Boolean";
      "Character"; "Void";
      "String"; "Object";
      "List"; "ArrayList"; "Set"; "HashSet"; "Map"; "HashMap";
      "Collection"; "Iterable"; "Iterator";
      "Optional"; "Stream" ].

(** A list without its repetitions, first occurrences kept. *)
Fixpoint distinct (l : list str) : list str :=
  match l with
  | [] => []
  | x :: t => x :: filter (fun y => negb (str_eqb y x)) (distinct t)
  end.

(** The dependency types of a parameter list. *)
Definition dependencies (formal_params_node : node) : list str :=
  distinct
    (filter (fun t => negb (mem t common_types))
       (map erased
          (filter truthy (map type_of (parameters_of formal_params_node))))).

End Java.

(* ------------------------------------------------------------------ *)
(** ** Sources off the beaten track

    A method of variable arity, a source with a character of two bytes
    in front of its class, whose nodes start one byte later than their
    text starts in the decoded source, and a method that is not public
    under an annotation whose name holds the word. *)

Module EdgeSamples.

(** A node with its text given by character offsets and its byte
    offsets. *)
Definition span (src : str) (ty : String.string)
    (from to start_byte end_byte : nat) (kids : list node) : node :=
  Node (lit ty) start_byte end_byte (slice src from to) kids.

Definition depot_src : str :=
  lit "class Depot {"
  ++ [10]
  ++ lit "  public void ship(Order... orders) { return; }"
  ++ [10]
  ++ lit "}".

Definition depot_tree : node :=
  let src := depot_src in
  span src "program" 0 63 0 63 [
    span src "class_declaration" 0 63 0 63 [
      span src "class" 0 5 0 5 [];
      span src "identifier" 6 11 6 11 [];
      span src "class_body" 12 63 12 63 [
        span src "{" 12 13 12 13 [];
        span src "method_declaration" 16 61 16 61 [
          span src "modifiers" 16 22 16 22 [
            span src "public" 16 22 16 22 [] ];
          span src "void_type" 23 27 23 27 [];
          span src "identifier" 28 32 28 32 [];
          span src "formal_parameters" 32 49 32 49 [
            span src "(" 32 33 32 33 [];
            span src "spread_parameter" 33 48 33 48 [
              span src "type_identifier" 33 38 33 38 [];
              span src "..." 38 41 38 41 [];
              span src "variable_declarator" 42 48 42 48 [
                span src "identifier" 42 48 42 48 [] ] ];
            span src ")" 48 49 48 49 [] ];
          span src "block" 50 61 50 61 [
            span src "{" 50 51 50 51 [];
            span src "return_statement" 52 59 52 59 [
              span src "return" 52 58 52 58 [];
              span src ";" 58 59 58 59 [] ];
            span src "}" 60 61 60 61 [] ] ];
        span src "}" 62 63 62 63 [] ] ] ].

Definition kiosk_src : str :=
  lit "// caf"
  ++ [233]
  ++ [10]
  ++ lit "class Kiosk extends Base {"
  ++ [10]
  ++ lit "  public int one(Order o) { return 1; }"
  ++ [10]
  ++ lit "}".

Definition kiosk_tree : node :=
  let src := kiosk_src in
  span src "program" 0 76 0 77 [
    span src "line_comment" 0 7 0 8 [];
    span src "class_declaration" 8 76 9 77 [
      span src "class" 8 13 9 14 [];
      span src "identifier" 14 19 15 20 [];
      span src "superclass" 20 32 21 33 [
        span src "extends" 20 27 21 28 [];
        span src "type_identifier" 28 32 29 33 [] ];
      span src "class_body" 33 76 34 77 [
        span src "{" 33 34 34 35 [];
        span src "method_declaration" 37 74 38 75 [
          span src "modifiers" 37 43 38 44 [
            span src "public" 37 43 38 44 [] ];
          span src "integral_type" 44 47 45 48 [];
          span src "identifier" 48 51 49 52 [];
          span src "formal_parameters" 51 60 52 61 [
            span src "(" 51 52 52 53 [];
            span src "formal_parameter" 52 59 53 60 [
              span src "type_identifier" 52 57 53 58 [];
              span src "identifier" 58 59 59 60 [] ];
            span src ")" 59 60 60 61 [] ];
          span src "block" 61 74 62 75 [
            span src "{" 61 62 62 63 [];
            span src "return_statement" 63 72 64 73 [
              span src "return" 63 69 64 70 [];
              span src "decimal_integer_literal" 70 71 71 72 [];
              span src ";" 71 72 72 73 [] ];
            span src "}" 73 74 74 75 [] ] ];
        span src "}" 75 76 76 77 [] ] ] ].

Definition vault_src : str :=
  lit "class Vault {"
  ++ [10]
  ++ lit "  @publicApi int peek() { return 1; }"
  ++ [10]
  ++ lit "}".

Definition vault_tree : node :=
  let src := vault_src in
  span src "program" 0 53 0 53 [
    span src "class_declaration" 0 53 0 53 [
      span src "class" 0 5 0 5 [];
      span src "identifier" 6 11 6 11 [];
      span src "class_body" 12 53 12 53 [
        span src "{" 12 13 12 13 [];
        span src "method_declaration" 16 51 16 51 [
          span src "modifiers" 16 26 16 26 [
            span src "marker_annotation" 16 26 16 26 [
              span src "@" 16 17 16 17 [];
              span src "identifier" 17 26 17 26 [] ] ];
          span src "integral_type" 27 30 27 30 [];
          span src "identifier" 31 35 31 35 [];
          span src "formal_parameters" 35 37 35 37 [
            span src "(" 35 36 35 36 [];
            span src ")" 36 37 36 37 [] ];
          span src "block" 38 51 38 51 [
            span src "{" 38 39 38 39 [];
            span src "return_statement" 40 49 40 49 [
              span src "return" 40 46 40 46 [];
              span src "decimal_integer_literal" 47 48 47 48 [];
              span src ";" 48 49 48 49 [] ];
            span src "}" 50 51 50 51 [] ] ];
        span src "}" 52 53 52 53 [] ] ] ].


(** The declarations looked at in these samples and in the abstract
    class [Shape]. *)
Definition depot_method : node :=
  Samples.member 1 (Samples.class_of depot_tree).

Definition depot_parameters : node :=
  nth 3 (children depot_method) depot_tree.

Definition kiosk_class : node := nth 1 (children kiosk_tree) kiosk_tree.

Definition kiosk_method : node := Samples.member 1 kiosk_class.

Definition kiosk_parameters : node :=
  nth 3 (children kiosk_method) kiosk_tree.

Definition vault_method : node :=
  Samples.member 1 (Samples.class_of vault_tree).



End EdgeSamples.

(* ================================================================== *)
(** * Properties *)

Example sha256_abc :
  Sha256.hexdigest (Sha256.sha256 [0x61; 0x62; 0x63])
  = lit "ba7816bf8f01cfea414140de5dae2223b00361a396177a9cb410ff61f20015ad".
Proof. vm_compute. reflexivity. Qed.

Example sha256_empty :
  Sha256.hexdigest (Sha256.sha256 [])
  = lit "e3b0c44298fc1c149afbf4c8996fb92427ae41e4649b934ca495991b7852b855".
Proof. vm_compute. reflexivity. Qed.

Example generate_method_id_dog :
  _generate_method_id (lit "Package: None, Class: Dog, Fields: None")
                      (lit "public void bark()")
  = Ok (lit "7ebb4f3564145ced05ebfaab9e97be8cb2d510ddc145758034363ce9cce5a2e5").
Proof. vm_compute. reflexivity. Qed.

(** Seventy letters, then U+00E9, U+20AC and U+1F600: two blocks and every
    multi-byte form of the encoder. *)
Example sha256_two_blocks :
  bind (Utf8.encode (repeat 0x61 70 ++ [0xE9; 0x20AC; 0x1F600]))
       (fun b => Ok (Sha256.hexdigest (Sha256.sha256 b)))
  = Ok (lit "be235fe69c12ff31e3ca59424fffcd436a7e164646003a58dda6779f047b7036").
Proof. vm_compute. reflexivity. Qed.

(* ------------------------------------------------------------------ *)
(** ** Identities *)

Section Identities.

Lemma mapM_encode_cp_total (s : str) :
  Forall Utf8.scalar s -> exists bs, mapM Utf8.encode_cp s = Ok bs.
Proof.
  induction 1 as [|c s Hc _ [bs IH]]; simpl.
  - now exists [].
  - assert (Hcp : exists b, Utf8.encode_cp c = Ok b).
    { unfold Utf8.encode_cp, Utf8.scalar in *.
      repeat match goal with
             | |- context [?a <? ?b] => destruct (Z.ltb_spec a b)
             end; eauto; lia. }
    destruct Hcp as [b Hb]. rewrite Hb, IH. simpl. eauto.
Qed.

Lemma encode_total (s : str) :
  Forall Utf8.scalar s -> exists bytes, Utf8.encode s = Ok bytes.
Proof.
  intros H. destruct (mapM_encode_cp_total s H) as [bs Hbs].
  unfold Utf8.encode. rewrite Hbs. simpl. eauto.
Qed.

Lemma lit_scalar (s : String.string) : Forall Utf8.scalar (lit s).
Proof.
  unfold lit. apply Forall_forall. intros c Hc.
  apply in_map_iff in Hc. destruct Hc as [a [<- _]].
  pose proof (Ascii.N_ascii_bounded a) as Hb.
  unfold Utf8.scalar. lia.
Qed.

Lemma digest_length (st : Sha256.state) :
  length (Sha256.digest st) = 32%nat.
Proof. reflexivity. Qed.

Lemma flat_map_length_const {A B : Type} (f : A -> list B) (k : nat)
    (l : list A) :
  (forall a, length (f a) = k) -> length (flat_map f l) = (k * length l)%nat.
Proof.
  intros Hf. induction l as [|a l IH]; simpl.
  - lia.
  - rewrite length_app, Hf, IH. lia.
Qed.

Lemma hexdigest_length (st : Sha256.state) :
  length (Sha256.hexdigest st) = 64%nat.
Proof.
  unfold Sha256.hexdigest.
  rewrite (flat_map_length_const Sha256.hexbyte 2) by reflexivity.
  now rewrite digest_length.
Qed.

Lemma hexchar_is_hex (d : Z) : is_hex_char (Sha256.hexchar d).
Proof.
  unfold is_hex_char, Sha256.hexchar. apply nth_In.
  change (length Sha256.hexdigits) with 16%nat.
  assert (0 <= Z.land d 0xF < 16).
  { change 0xF with (Z.ones 4). rewrite Z.land_ones by lia.
    apply Z.mod_pos_bound. lia. }
  lia.
Qed.

Lemma hexdigest_hex (st : Sha256.state) :
  Forall is_hex_char (Sha256.hexdigest st).
Proof.
  unfold Sha256.hexdigest. apply Forall_forall. intros c Hc.
  apply in_flat_map in Hc. destruct Hc as [b [_ Hc]].
  unfold Sha256.hexbyte in Hc. simpl in Hc.
  destruct Hc as [<- | [<- | []]]; apply hexchar_is_hex.
Qed.

(** The key of the store is the identifier of the parser computed on the
    package and the class name joined by [::]. *)
Lemma generate_id_as_method_id (package class_name signature : str) :
  generate_id package class_name signature
  = _generate_method_id (package ++ lit "::" ++ class_name) signature.
Proof.
  unfold generate_id, _generate_method_id.
  now rewrite <- !app_assoc.
Qed.

End Identities.

(** C1: the chunk id is the SHA-256 hexadecimal digest, sixty-four
    hexadecimal characters, of the UTF-8 bytes of the class context, [::]
    and the signature; it is a function of these two strings; and the key
    function of the store hashes its three arguments joined by [::] with the
    same function. *)
Theorem chunk_id_is_sha256_of_joined_key :
  forall class_context method_signature : str,
    Forall Utf8.scalar class_context ->
    Forall Utf8.scalar method_signature ->
    exists bytes : list Z,
      Utf8.encode (class_context ++ lit "::" ++ method_signature) = Ok bytes
      /\ _generate_method_id class_context method_signature
         = Ok (Sha256.hexdigest (Sha256.sha256 bytes))
      /\ length (Sha256.hexdigest (Sha256.sha256 bytes)) = 64%nat
      /\ Forall is_hex_char (Sha256.hexdigest (Sha256.sha256 bytes))
      /\ (forall class_context' method_signature',
             class_context' = class_context ->
             method_signature' = method_signature ->
             _generate_method_id class_context' method_signature'
             = _generate_method_id class_context method_signature)
      /\ (forall package class_name,
             generate_id package class_name method_signature
             = _generate_method_id (package ++ lit "::" ++ class_name)
                                   method_signature).
Proof.
  intros cc sig Hcc Hsig.
  destruct (encode_total (cc ++ lit "::" ++ sig)) as [bytes Hb].
  { apply Forall_app; split; [assumption|].
    apply Forall_app; split; [apply lit_scalar | assumption]. }
  exists bytes. split; [exact Hb|]. split.
  { unfold _generate_method_id. rewrite Hb. reflexivity. }
  split; [apply hexdigest_length|].
  split; [apply hexdigest_hex|].
  split.
  - intros cc' sig' -> ->. reflexivity.
  - intros. apply generate_id_as_method_id.
Qed.

Lemma chunk_id_is_sha256_of_joined_key_witness :
  exists bytes : list Z,
    Utf8.encode (lit "Package: None, Class: Dog, Fields: None" ++ lit "::"
                 ++ lit "public void bark()") = Ok bytes
    /\ _generate_method_id (lit "Package: None, Class: Dog, Fields: None")
                           (lit "public void bark()")
       = Ok (Sha256.hexdigest (Sha256.sha256 bytes))
    /\ length (Sha256.hexdigest (Sha256.sha256 bytes)) = 64%nat.
Proof.
  destruct (chunk_id_is_sha256_of_joined_key
              (lit "Package: None, Class: Dog, Fields: None")
              (lit "public void bark()"))
    as [bytes [H1 [H2 [H3 _]]]].
  - apply lit_scalar.
  - apply lit_scalar.
  - exists bytes. auto.
Defined.

(* ------------------------------------------------------------------ *)
(** ** Strings and dicts *)

Lemma str_eqb_eq (a b : str) : str_eqb a b = true <-> a = b.
Proof.
  revert b. induction a as [|x a IH]; intros [|y b]; simpl;
    try (split; [discriminate | discriminate]); try tauto.
  rewrite andb_true_iff, Z.eqb_eq, IH.
  split; [intros [-> ->]; reflexivity | intros H; injection H; auto].
Qed.

Lemma str_eqb_refl (a : str) : str_eqb a a = true.
Proof. now apply str_eqb_eq. Qed.

Lemma str_eqb_neq (a b : str) : str_eqb a b = false <-> a <> b.
Proof.
  rewrite <- str_eqb_eq. destruct (str_eqb a b); split; congruence.
Qed.

Lemma dict_get_set_same {V : Type} (k : str) (v : V) (d : dict V) :
  dict_get k (dict_set k v d) = Some v.
Proof.
  induction d as [|[k' v'] d IH]; simpl.
  - now rewrite str_eqb_refl.
  - destruct (str_eqb k k') eqn:E; simpl.
    + now rewrite str_eqb_refl.
    + now rewrite E.
Qed.

Lemma dict_get_set_other {V : Type} (k k0 : str) (v : V) (d : dict V) :
  k0 <> k -> dict_get k0 (dict_set k v d) = dict_get k0 d.
Proof.
  intros Hne. induction d as [|[k' v'] d IH]; simpl.
  - apply str_eqb_neq in Hne. now rewrite Hne.
  - destruct (str_eqb k k') eqn:E; simpl.
    + apply str_eqb_eq in E. subst k'.
      apply str_eqb_neq in Hne. now rewrite Hne.
    + destruct (str_eqb k0 k'); [reflexivity | exact IH].
Qed.

(* ------------------------------------------------------------------ *)
(** ** Class context and inherited methods *)

Module ContextFacts.
Import JavaCodeParser.

(** The test on an empty map at the head of [_get_inherited_methods] agrees
    with the lookup, which finds nothing in an empty map. *)
Lemma inherited_methods_unfold (depth : nat) (hm : hierarchy) (p : str) :
  _get_inherited_methods (S depth) hm p
  = match lookup_parent hm p with
    | None => Ok []
    | Some parent_info =>
        if opt_truthy (parent parent_info) then
          match parent parent_info with
          | Some grandparent =>
              grandparent_methods <-
                _get_inherited_methods depth hm grandparent ;;
              Ok (methods parent_info ++ grandparent_methods)
          | None => Ok (methods parent_info)
          end
        else Ok (methods parent_info)
    end.
Proof.
  destruct hm as [|e hm]; [reflexivity|].
  cbn [_get_inherited_methods].
  destruct (lookup_parent (e :: hm) p) as [info|]; [|reflexivity].
  destruct (parent info) as [g|]; [|reflexivity].
  simpl. destruct (truthy g); reflexivity.
Qed.

(** With enough depth left, the function returns the methods of the
    ancestors, nearest first. *)
Lemma inherited_methods_of_chain (hm : hierarchy) (p : str)
    (chain : list class_info) :
  ancestors hm p chain ->
  forall depth, (length chain < depth)%nat ->
    _get_inherited_methods depth hm p = Ok (flat_map methods chain).
Proof.
  induction 1 as [p Hp | p info Hp Hroot | p g info chain Hp Hg Ht _ IH];
    intros [|depth] Hd; simpl in Hd; try lia;
    rewrite inherited_methods_unfold, Hp.
  - reflexivity.
  - rewrite Hroot. simpl. now rewrite app_nil_r.
  - rewrite Hg. simpl. rewrite Ht.
    rewrite IH by lia. reflexivity.
Qed.

(** The chain of a name is unique. *)
Lemma ancestors_functional (hm : hierarchy) (p : str)
    (c1 c2 : list class_info) :
  ancestors hm p c1 -> ancestors hm p c2 -> c1 = c2.
Proof.
  intros H1. revert c2.
  induction H1 as [p Hp | p info Hp Hroot | p g info chain Hp Hg Ht _ IH];
    intros c2 H2; inversion H2; subst; try congruence.
  - assert (info0 = info) by congruence. subst.
    rewrite H0 in Hroot. simpl in Hroot. congruence.
  - assert (info0 = info) by congruence. subst.
    rewrite Hg in H0. simpl in H0. congruence.
  - assert (info0 = info) by congruence. subst.
    assert (grandparent = g) by congruence. subst.
    f_equal. now apply IH.
Qed.

Lemma format_class_context_of_chain (depth : nat) (hm : hierarchy)
    (package_name class_name : str) (fields : list str) (p : str)
    (chain : list class_info) :
  truthy p = true ->
  ancestors hm p chain ->
  (length chain < depth)%nat ->
  _format_class_context depth hm package_name class_name fields (Some p)
  = Ok (base_context package_name class_name fields
        ++ lit ", Extends: " ++ p
        ++ inherited_clause (flat_map methods chain)).
Proof.
  intros Hp Hc Hd. unfold _format_class_context. rewrite Hp.
  rewrite (inherited_methods_of_chain hm p chain Hc depth Hd). simpl.
  unfold inherited_clause.
  destruct (flat_map methods chain) as [|m ms].
  - now rewrite !app_nil_r.
  - now rewrite <- !app_assoc.
Qed.

End ContextFacts.

(** The sample of the specification: [Dog extends Animal]. *)
Example dog_class_context :
  JavaCodeParser.context_of_class Samples.depth
    (HierarchyScanner.class_info_of_tree Samples.animal_src
                                         Samples.animal_tree)
    Samples.dog_src (lit "None")
    (hd Samples.dog_tree (children Samples.dog_tree))
  = Ok (lit "Package: None, Class: Dog, Fields: None, Extends: Animal, Inherited Methods: [eat, sleep, getName, makeSound]").
Proof. vm_compute. reflexivity. Qed.

(** A class extending a type that was not scanned. *)
Example external_parent_class_context :
  JavaCodeParser.context_of_class Samples.depth
    (HierarchyScanner.class_info_of_tree Samples.animal_src
                                         Samples.animal_tree)
    Samples.ext_src (lit "None")
    (hd Samples.ext_tree (children Samples.ext_tree))
  = Ok (lit "Package: None, Class: Ext, Fields: None, Extends: Thread").
Proof. vm_compute. reflexivity. Qed.

(** C2 as stated fails: the parent [Empty] of [Sub] resolves in the map
    built by scanning [class Empty { }], yet the context of [Sub] has no
    Inherited Methods clause, since [Empty] records no public method. *)
Lemma resolved_parent_without_inherited_clause :
  let hierarchy_map :=
    HierarchyScanner.class_info_of_tree Samples.empty_src
                                        Samples.empty_tree in
  let class_node := hd Samples.sub_tree (children Samples.sub_tree) in
  _get_parent_class class_node Samples.sub_src = Some (lit "Empty")
  /\ JavaCodeParser.lookup_parent hierarchy_map (lit "Empty")
     = Some (ClassInfo None [] (lit "Empty"))
  /\ JavaCodeParser.context_of_class Samples.depth hierarchy_map
       Samples.sub_src (lit "None") class_node
     = Ok (lit "Package: None, Class: Sub, Fields: None, Extends: Empty")
  /\ contains (lit "Inherited Methods")
       (lit "Package: None, Class: Sub, Fields: None, Extends: Empty")
     = false.
Proof. vm_compute. repeat split; reflexivity. Qed.

(* ------------------------------------------------------------------ *)
(** ** The scanner's public method names *)

Module ScannerFacts.
Import HierarchyScanner.

Lemma has_type_unique (t1 t2 : String.string) (c : node) :
  has_type t1 c = true -> has_type t2 c = true -> lit t1 = lit t2.
Proof.
  unfold has_type. rewrite !str_eqb_eq. congruence.
Qed.

Lemma modifiers_not_identifier (c : node) :
  has_type "modifiers" c = true -> has_type "identifier" c = false.
Proof.
  intros H. destruct (has_type "identifier" c) eqn:E; [|reflexivity].
  pose proof (has_type_unique _ _ c H E) as Hl. discriminate Hl.
Qed.

(** The inner loop in closed form. *)
Lemma scan_method_children (source_code : str) (l : list node) :
  fold_left (scan_method_child source_code) l (false, None)
  = (existsb (is_public_modifiers source_code) l, last_identifier l).
Proof.
  induction l as [|x l IH] using rev_ind; [reflexivity|].
  rewrite fold_left_app, IH. simpl.
  rewrite existsb_app. unfold last_identifier. rewrite rev_app_distr.
  simpl.
  assert (Hx : is_public_modifiers source_code x
               = has_type "modifiers" x
                 && contains (lit "public") (src_text source_code x))
    by reflexivity.
  rewrite Hx. clear Hx.
  destruct (has_type "modifiers" x) eqn:Hm.
  - rewrite (modifiers_not_identifier x Hm). simpl.
    destruct (contains (lit "public") (src_text source_code x));
      destruct (existsb (is_public_modifiers source_code) l); reflexivity.
  - simpl. rewrite orb_false_r.
    destruct (has_type "identifier" x); reflexivity.
Qed.

Lemma public_name_spec (source_code : str) (m : node) :
  public_name source_code m
  = if declares_public_method source_code m then [declared_name m] else [].
Proof.
  unfold public_name, declares_public_method, declared_name.
  destruct (has_type "method_declaration" m); [|reflexivity].
  rewrite scan_method_children. simpl.
  destruct (existsb (is_public_modifiers source_code) (children m));
    [|reflexivity].
  destruct (last_identifier (children m)) as [n|]; [|reflexivity].
  simpl. destruct (truthy n); reflexivity.
Qed.

Lemma flat_map_public_name (source_code : str) (l : list node) :
  flat_map (public_name source_code) l
  = map declared_name (filter (declares_public_method source_code) l).
Proof.
  induction l as [|m l IH]; [reflexivity|].
  simpl. rewrite public_name_spec, IH.
  destruct (declares_public_method source_code m); reflexivity.
Qed.

Lemma find_none_iff {A : Type} (f : A -> bool) (l : list A) :
  find f l = None <-> (forall x, In x l -> f x = false).
Proof.
  split; [intros H x; now apply find_none|].
  induction l as [|a l IH]; [reflexivity|]. intros H. simpl.
  rewrite (H a) by now left. apply IH. intros x Hx. apply H. now right.
Qed.

Lemma existsb_false_iff {A : Type} (f : A -> bool) (l : list A) :
  existsb f l = false <-> (forall x, In x l -> f x = false).
Proof.
  induction l as [|a l IH]; simpl.
  - split; [intros _ x [] | reflexivity].
  - rewrite orb_false_iff, IH. split.
    + intros [Ha Hl] x [<- | Hx]; auto.
    + intros H. split; [apply H; now left | intros x Hx; apply H; now right].
Qed.

End ScannerFacts.

(** C3 as stated fails: the class [Calc] declares two public overloads of
    [add], and its record lists [add] twice. *)
Lemma overloaded_name_recorded_twice :
  let class_node := hd Samples.calc_tree (children Samples.calc_tree) in
  HierarchyScanner._get_public_method_names class_node Samples.calc_src
  = map lit ["add"; "add"; "neg"]
  /\ HierarchyScanner.class_info_of_tree Samples.calc_src Samples.calc_tree
     = [(lit "Calc",
         ClassInfo None (map lit ["add"; "add"; "neg"]) (lit "Calc"))]
  /\ ~ NoDup (HierarchyScanner._get_public_method_names
                class_node Samples.calc_src).
Proof.
  assert (E : HierarchyScanner._get_public_method_names
                (hd Samples.calc_tree (children Samples.calc_tree))
                Samples.calc_src
              = map lit ["add"; "add"; "neg"])
    by (vm_compute; reflexivity).
  cbv zeta. rewrite E. split; [reflexivity|]. split.
  - vm_compute. reflexivity.
  - intros H. inversion H as [|x l Hnotin _]; subst.
    apply Hnotin. left. reflexivity.
Qed.

(* ------------------------------------------------------------------ *)
(** ** Dependency types *)

Module DependencyFacts.
Import JavaCodeParser.

Lemma mem_In (x : str) (l : list str) : mem x l = true <-> In x l.
Proof.
  unfold mem. rewrite existsb_exists. split.
  - intros [y [Hy E]]. apply str_eqb_eq in E. now subst.
  - intros H. exists x. split; [assumption | apply str_eqb_refl].
Qed.

Lemma mem_not_In (x : str) (l : list str) : mem x l = false <-> ~ In x l.
Proof.
  rewrite <- mem_In. destruct (mem x l); split; congruence.
Qed.

(** The first loop of [_filter_complex_types] is a filter. *)
Lemma keep_loop_filter_gen (prim l acc : list str) :
  fold_left
    (fun acc param_type =>
       if negb (mem param_type prim) then acc ++ [param_type] else acc)
    l acc
  = acc ++ filter (fun t => negb (mem t prim)) l.
Proof.
  revert acc. induction l as [|t l IH]; intros acc; simpl.
  - now rewrite app_nil_r.
  - rewrite IH. destruct (mem t prim); simpl.
    + reflexivity.
    + now rewrite <- app_assoc.
Qed.

Lemma keep_loop_filter (l : list str) :
  fold_left
    (fun acc param_type =>
       if negb (mem param_type primitives_and_common)
       then acc ++ [param_type] else acc)
    l []
  = filter (fun t => negb (excluded t)) l.
Proof. exact (keep_loop_filter_gen primitives_and_common l []). Qed.

(** The second loop keeps first occurrences; [seen] holds what was met. *)
Lemma dedup_loop_first_seen (l : list str) :
  exists seen,
    fold_left dedup_step l ([], []) = (seen, first_seen l)
    /\ (forall x, In x seen <-> In x l).
Proof.
  induction l as [|x l [seen [IH Hseen]]] using rev_ind.
  - exists []. split; [reflexivity | tauto].
  - rewrite fold_left_app, IH. simpl.
    unfold first_seen. rewrite rev_app_distr. simpl.
    destruct (mem x seen) eqn:E; simpl.
    + apply mem_In in E. exists seen. split.
      * destruct (in_dec str_eq_dec x (rev l)) as [_|Hn]; [reflexivity|].
        exfalso. apply Hn. rewrite <- in_rev. now apply Hseen.
      * intros y. rewrite in_app_iff, Hseen. simpl.
        split; [tauto|]. intros [H|[<-|[]]]; [assumption|].
        now apply Hseen.
    + apply mem_not_In in E. exists (x :: seen). split.
      * destruct (in_dec str_eq_dec x (rev l)) as [Hi|_]; [|reflexivity].
        exfalso. apply E. apply Hseen. now rewrite in_rev.
      * intros y. rewrite in_app_iff. simpl. rewrite Hseen. tauto.
Qed.

Lemma filter_complex_types_spec (parameter_types : list str) :
  _filter_complex_types parameter_types
  = first_seen (filter (fun t => negb (excluded t)) parameter_types).
Proof.
  unfold _filter_complex_types. rewrite keep_loop_filter.
  destruct (dedup_loop_first_seen
              (filter (fun t => negb (excluded t)) parameter_types))
    as [seen [E _]].
  now rewrite E.
Qed.

Lemma first_seen_NoDup (l : list str) : NoDup (first_seen l).
Proof.
  unfold first_seen. apply NoDup_rev. apply NoDup_nodup.
Qed.

Lemma first_seen_In (l : list str) (x : str) :
  In x (first_seen l) <-> In x l.
Proof.
  unfold first_seen. rewrite <- in_rev, nodup_In, <- in_rev. tauto.
Qed.

(** The type found by the loop over the children of a parameter. *)
Lemma scan_param_children_type (source_code : str) (l : list node)
    (acc : option str * option str) :
  fst (fold_left (scan_param_child source_code) l acc)
  = match declared_type source_code (Node [] 0 0 [] l) with
    | Some ty => Some ty
    | None => fst acc
    end.
Proof.
  unfold declared_type. cbn [children].
  induction l as [|x l IH] using rev_ind.
  - reflexivity.
  - rewrite fold_left_app, rev_app_distr.
    cbn [fold_left rev app first_some].
    destruct (fold_left (scan_param_child source_code) l acc) as [t n] eqn:E.
    cbn [fst] in IH. unfold scan_param_child.
    match goal with
    | |- context [type_in ?ts x] => destruct (type_in ts x)
    end.
    + reflexivity.
    + destruct (has_type "identifier" x); cbn [fst]; exact IH.
Qed.

Lemma scan_param_types (source_code : str) (acc : list str * list str)
    (child : node) :
  snd (scan_param source_code acc child)
  = snd acc
    ++ map clean_type
         (if has_type "formal_parameter" child then
            match declared_type source_code child with
            | Some ty => if truthy ty then [ty] else []
            | None => []
            end
          else []).
Proof.
  unfold scan_param. destruct acc as [ps ts].
  destruct (has_type "formal_parameter" child);
    [|cbn [snd map]; now rewrite app_nil_r].
  pose proof (scan_param_children_type source_code (children child)
                                       (None, None)) as H.
  destruct (fold_left (scan_param_child source_code) (children child)
                      (None, None)) as [t n] eqn:E.
  cbn [fst] in H.
  assert (Hd : declared_type source_code child = t).
  { unfold declared_type in *. cbn [children] in H.
    destruct (first_some _ (rev (children child))); congruence. }
  rewrite Hd. cbn [snd].
  destruct t as [ty|]; [|cbn [map]; now rewrite app_nil_r].
  destruct (truthy ty); cbn [map]; [reflexivity | now rewrite app_nil_r].
Qed.

Lemma extract_parameter_types (source_code : str) (formal_params_node : node) :
  snd (_extract_parameters_with_types formal_params_node source_code)
  = map clean_type (parameter_types_of source_code formal_params_node).
Proof.
  unfold _extract_parameters_with_types, parameter_types_of.
  assert (G : forall l acc,
             snd (fold_left (scan_param source_code) l acc)
             = snd acc
               ++ map clean_type
                    (flat_map
                       (fun child =>
                          if has_type "formal_parameter" child then
                            match declared_type source_code child with
                            | Some ty => if truthy ty then [ty] else []
                            | None => []
                            end
                          else []) l)).
  { induction l as [|c l IH]; intros acc; cbn [fold_left flat_map map].
    - now rewrite app_nil_r.
    - rewrite IH, scan_param_types, map_app. now rewrite <- app_assoc. }
  now rewrite G.
Qed.

End DependencyFacts.

(** The two samples of the specification, through the whole parser. *)
Example dependency_types_samples :
  match JavaCodeParser.parse_tree Samples.depth [] Samples.bank_src
                                  Samples.bank_tree with
  | Ok chunks =>
      map (fun c => (method_signature c, dependency_types c)) chunks
  | Raise _ => []
  end
  = [ (lit "public void pay(Transaction t1, Transaction t2)",
       [lit "Transaction"]);
      (lit "public void log(int x, String s)", []) ].
Proof. vm_compute. reflexivity. Qed.

Example clean_type_samples :
  map JavaCodeParser.clean_type
      [lit "List<String>"; lit "int[]"; lit "Map<String, Order>[]";
       lit "Order"]
  = [lit "List"; lit "int"; lit "Map"; lit "Order"].
Proof. vm_compute. reflexivity. Qed.

(* ------------------------------------------------------------------ *)
(** ** The chunks of a file *)

Module ParseFacts.
Import JavaCodeParser.

Lemma bind_ok {A B : Type} (r : result A) (k : A -> result B) (b : B) :
  bind r k = Ok b -> exists a, r = Ok a /\ k a = Ok b.
Proof.
  destruct r as [a|e]; simpl; [eauto | discriminate].
Qed.

Lemma mapM_ok_in {A B : Type} (f : A -> result B) (l : list A)
    (rs : list B) (a : A) :
  mapM f l = Ok rs -> In a l -> exists r, f a = Ok r /\ In r rs.
Proof.
  revert rs. induction l as [|x l IH]; intros rs H Hin; [destruct Hin|].
  simpl in H. apply bind_ok in H. destruct H as [b [Hb H]].
  apply bind_ok in H. destruct H as [bs [Hbs H]].
  injection H as <-. destruct Hin as [-> | Hin].
  - exists b. split; [assumption | now left].
  - destruct (IH bs Hbs Hin) as [r [Hr Hi]].
    exists r. split; [assumption | now right].
Qed.

Lemma mapM_ok_origin {A B : Type} (f : A -> result B) (l : list A)
    (rs : list B) (r : B) :
  mapM f l = Ok rs -> In r rs -> exists a, In a l /\ f a = Ok r.
Proof.
  revert rs. induction l as [|x l IH]; intros rs H Hin; simpl in H.
  - injection H as <-. destruct Hin.
  - apply bind_ok in H. destruct H as [b [Hb H]].
    apply bind_ok in H. destruct H as [bs [Hbs H]].
    injection H as <-. destruct Hin as [-> | Hin].
    + exists x. split; [now left | assumption].
    + destruct (IH bs Hbs Hin) as [a [Ha Hf]].
      exists a. split; [now right | assumption].
Qed.

Lemma no_code_line_count (l : list str) :
  (length (filter is_code_line l) =? 0)%nat
  = forallb (fun line => negb (is_code_line line)) l.
Proof.
  induction l as [|x l IH]; [reflexivity|].
  simpl. destruct (is_code_line x); simpl; [reflexivity | exact IH].
Qed.

(** The early return of [_is_empty_method] on an empty body changes
    nothing: an empty body has a single, empty line. *)
Lemma is_empty_method_spec (method_body : str) :
  _is_empty_method method_body = has_no_code_line method_body.
Proof.
  unfold _is_empty_method, has_no_code_line, brace_stripped.
  cbv zeta.
  match goal with
  | |- (if negb (truthy ?b) then _ else _) = _ => destruct b as [|c body'] eqn:E
  end.
  - reflexivity.
  - cbn [truthy negb]. apply no_code_line_count.
Qed.

(** The cases of [declaration_chunks]. *)
Lemma declaration_chunks_not_public (source_code class_context class_name : str)
    (is_constructor : bool) (m : node) :
  _is_public_method m source_code = false ->
  declaration_chunks source_code class_context class_name is_constructor m
  = Ok [].
Proof.
  intros H. unfold declaration_chunks. now rewrite H.
Qed.

Lemma declaration_chunks_ok (source_code class_context class_name : str)
    (is_constructor : bool) (m : node) (l : list chunk) (ch : chunk) :
  declaration_chunks source_code class_context class_name is_constructor m
  = Ok l ->
  In ch l ->
  _is_public_method m source_code = true
  /\ exists method_info i,
       _extract_method_info m source_code class_context class_name
                            is_constructor = Some method_info
       /\ has_no_code_line (method_body method_info) = false
       /\ ch = set_id method_info i
       /\ l = [ch].
Proof.
  unfold declaration_chunks. intros H Hin.
  destruct (_is_public_method m source_code);
    [|injection H as <-; destruct Hin].
  split; [reflexivity|].
  destruct (_extract_method_info m source_code class_context class_name
                                 is_constructor) as [info|];
    [|injection H as <-; destruct Hin].
  rewrite is_empty_method_spec in H.
  destruct (has_no_code_line (method_body info)) eqn:E; cbn [negb] in H;
    [injection H as <-; destruct Hin|].
  apply bind_ok in H. destruct H as [i [_ H]]. injection H as <-.
  destruct Hin as [<- | []].
  exists info, i. auto.
Qed.


(** Every chunk of the result comes from a declaration of a class. *)
Lemma parse_tree_origin (depth : nat) (hm : hierarchy) (source_code : str)
    (root_node : node) (chunks : list chunk) (ch : chunk) :
  parse_tree depth hm source_code root_node = Ok chunks ->
  In ch chunks ->
  exists class_node class_context is_constructor m l,
    In class_node (_find_nodes_by_type root_node "class_declaration")
    /\ context_of_class depth hm source_code
         (_extract_package_name root_node source_code) class_node
       = Ok class_context
    /\ In m (_find_nodes_by_type class_node
                                 (declaration_type is_constructor))
    /\ declaration_chunks source_code class_context
         (_get_class_name class_node) is_constructor m = Ok l
    /\ In ch l.
Proof.
  unfold parse_tree. intros H Hin.
  apply bind_ok in H. destruct H as [per_class [Hpc H]].
  injection H as <-. apply in_concat in Hin.
  destruct Hin as [cl [Hcl Hin]].
  destruct (mapM_ok_origin _ _ _ _ Hpc Hcl) as [class_node [Hc Hcc]].
  unfold class_chunks in Hcc.
  apply bind_ok in Hcc. destruct Hcc as [ctx [Hctx Hcc]].
  apply bind_ok in Hcc. destruct Hcc as [ms [Hms Hcc]].
  apply bind_ok in Hcc. destruct Hcc as [cs [Hcs Hcc]].
  injection Hcc as <-. apply in_app_or in Hin.
  destruct Hin as [Hin | Hin]; apply in_concat in Hin;
    destruct Hin as [l [Hl Hin]].
  - destruct (mapM_ok_origin _ _ _ _ Hms Hl) as [m [Hm Hd]].
    exists class_node, ctx, false, m, l. auto.
  - destruct (mapM_ok_origin _ _ _ _ Hcs Hl) as [m [Hm Hd]].
    exists class_node, ctx, true, m, l. auto.
Qed.

(** Whatever a declaration of a class yields is in the result. *)
Lemma parse_tree_contains (depth : nat) (hm : hierarchy) (source_code : str)
    (root_node : node) (chunks : list chunk) (class_node : node)
    (class_context : str) (is_constructor : bool) (m : node) :
  parse_tree depth hm source_code root_node = Ok chunks ->
  In class_node (_find_nodes_by_type root_node "class_declaration") ->
  context_of_class depth hm source_code
    (_extract_package_name root_node source_code) class_node
  = Ok class_context ->
  In m (_find_nodes_by_type class_node (declaration_type is_constructor)) ->
  exists l,
    declaration_chunks source_code class_context
      (_get_class_name class_node) is_constructor m = Ok l
    /\ incl l chunks.
Proof.
  unfold parse_tree. intros H Hc Hctx Hm.
  apply bind_ok in H. destruct H as [per_class [Hpc H]].
  injection H as <-.
  destruct (mapM_ok_in _ _ _ _ Hpc Hc) as [cl [Hcc Hcl]].
  unfold class_chunks in Hcc. rewrite Hctx in Hcc. cbn [bind] in Hcc.
  apply bind_ok in Hcc. destruct Hcc as [ms [Hms Hcc]].
  apply bind_ok in Hcc. destruct Hcc as [cs [Hcs Hcc]].
  injection Hcc as <-.
  destruct is_constructor; cbn [declaration_type] in Hm.
  - destruct (mapM_ok_in _ _ _ _ Hcs Hm) as [l [Hd Hl]].
    exists l. split; [assumption|]. intros ch Hch.
    apply in_concat. exists (concat ms ++ concat cs). split; [assumption|].
    apply in_or_app. right. apply in_concat. eauto.
  - destruct (mapM_ok_in _ _ _ _ Hms Hm) as [l [Hd Hl]].
    exists l. split; [assumption|]. intros ch Hch.
    apply in_concat. exists (concat ms ++ concat cs). split; [assumption|].
    apply in_or_app. left. apply in_concat. eauto.
Qed.


End ParseFacts.


(* ------------------------------------------------------------------ *)
(** ** The parser returns

    On encodable text and with the ancestors of every class resolved
    within the recursion depth, [parse_tree] raises nothing. *)

Module StringFacts.

Section Closure.

Variable P : Z -> Prop.

Local Abbreviation ok := (Forall P).




Lemma firstn_ok (n : nat) (s : str) : ok s -> ok (firstn n s).
Proof.
  intros H. revert n. induction H as [|c s Hc Hs IH]; intros [|n];
    cbn [firstn]; constructor; auto.
Qed.

Lemma skipn_ok (n : nat) (s : str) : ok s -> ok (skipn n s).
Proof.
  intros H. revert n. induction H as [|c s Hc Hs IH]; intros [|n];
    cbn [skipn]; auto.
Qed.

Lemma slice_ok (s : str) (a b : nat) : ok s -> ok (slice s a b).
Proof. intros H. unfold slice. now apply firstn_ok, skipn_ok. Qed.









End Closure.



End StringFacts.

Module ReturnFacts.
Import JavaCodeParser StringFacts.

Local Abbreviation ok := (Forall Utf8.scalar).

Lemma node_ind_strong (Q : node -> Prop) :
  (forall ty a b tx cs, Forall Q cs -> Q (Node ty a b tx cs)) ->
  forall n, Q n.
Proof.
  intros H.
  refine (fix IH (n : node) : Q n :=
            match n with
            | Node ty a b tx cs =>
                H ty a b tx cs
                  ((fix go (l : list node) : Forall Q l :=
                      match l with
                      | [] => Forall_nil Q
                      | c :: l' => Forall_cons c (IH c) (go l')
                      end) cs)
            end).
Qed.




Lemma Ok_inj {A : Type} (a b : A) : Ok a = Ok b -> a = b.
Proof. congruence. Qed.

Lemma Ok_inj_some {A : Type} (a b : A) : Some a = Some b -> a = b.
Proof. congruence. Qed.


Lemma first_some_elim {A B : Type} (f : A -> option B) (l : list A) (b : B) :
  first_some f l = Some b -> exists a, In a l /\ f a = Some b.
Proof.
  induction l as [|a l IH]; cbn [first_some]; [discriminate|].
  destruct (f a) as [b'|] eqn:E.
  - intros H. injection H as <-. exists a. split; [now left | assumption].
  - intros H. destruct (IH H) as [a' [Ha Hf]].
    exists a'. split; [now right | assumption].
Qed.























End ReturnFacts.

(** The samples of the specification: the bodies [{ }] and
    [{ // comment }] are empty, the body [{ return 1; }] is not, and of the
    three public methods of [Stubs] with these bodies only the third is
    returned. *)
Example empty_body_samples :
  JavaCodeParser._is_empty_method (lit "{ }") = true
  /\ JavaCodeParser._is_empty_method (lit "{ // comment" ++ [10] ++ lit "  }")
     = true
  /\ JavaCodeParser._is_empty_method (lit "{ return 1; }") = false
  /\ match JavaCodeParser.parse_tree Samples.depth [] Samples.stubs_src
                                     Samples.stubs_tree with
     | Ok chunks => map (fun c => (method_signature c, method_body c)) chunks
     | Raise _ => []
     end
     = [(lit "public int c()", lit "{ return 1; }")].
Proof. vm_compute. repeat split; reflexivity. Qed.

(** C9: a declaration node without a [modifiers] child is not public for
    the parser and yields no chunk, whatever the class; the scanner
    records no name for it, so the names of a class body are those of its
    other members; and a file all of whose method and constructor
    declarations lack modifiers yields no chunk at all. *)
Theorem no_modifiers_means_not_public :
  forall (method_node : node) (source_code : str),
    (forall c, In c (children method_node) ->
               has_type "modifiers" c = false) ->
    JavaCodeParser._is_public_method method_node source_code = false
    /\ (forall class_context class_name is_constructor,
           JavaCodeParser.declaration_chunks source_code class_context
             class_name is_constructor method_node = Ok [])
    /\ HierarchyScanner.public_name source_code method_node = []
    /\ (forall class_node class_body before after,
           class_body_of class_node = Some class_body ->
           children class_body = before ++ method_node :: after ->
           HierarchyScanner._get_public_method_names class_node source_code
           = flat_map (HierarchyScanner.public_name source_code)
                      (before ++ after))
    /\ (forall depth hierarchy_map root_node chunks ch,
           JavaCodeParser.parse_tree depth hierarchy_map source_code
                                     root_node = Ok chunks ->
           In ch chunks ->
           exists class_node is_constructor m,
             In class_node
                (_find_nodes_by_type root_node "class_declaration")
             /\ In m (_find_nodes_by_type class_node
                        (JavaCodeParser.declaration_type is_constructor))
             /\ m <> method_node).
Proof.
  intros m src Hno.
  assert (Hpub : JavaCodeParser._is_public_method m src = false).
  { unfold JavaCodeParser._is_public_method.
    now rewrite (proj2 (ScannerFacts.find_none_iff _ _) Hno). }
  split; [exact Hpub|].
  split; [intros; now apply ParseFacts.declaration_chunks_not_public|].
  assert (Hname : HierarchyScanner.public_name src m = []).
  { rewrite ScannerFacts.public_name_spec.
    unfold HierarchyScanner.declares_public_method.
    assert (E : existsb (HierarchyScanner.is_public_modifiers src)
                        (children m) = false).
    { apply ScannerFacts.existsb_false_iff. intros c Hc.
      unfold HierarchyScanner.is_public_modifiers. now rewrite (Hno c Hc). }
    rewrite E. now rewrite andb_false_r. }
  split; [exact Hname|]. split.
  - intros class_node body before after Hbody Hch.
    unfold HierarchyScanner._get_public_method_names.
    rewrite Hbody, Hch, !flat_map_app. cbn [flat_map].
    now rewrite Hname.
  - intros depth hm root chunks ch Hparse Hin.
    destruct (ParseFacts.parse_tree_origin _ _ _ _ _ _ Hparse Hin)
      as [c [ctx [b [m' [l [Hc [_ [Hm [Hd Hl]]]]]]]]].
    exists c, b, m'. split; [assumption|]. split; [assumption|].
    intros ->.
    destruct (ParseFacts.declaration_chunks_ok _ _ _ _ _ _ _ Hd Hl)
      as [Hp _].
    congruence.
Qed.

Lemma no_modifiers_means_not_public_witness :
  let hidden := Samples.member 4 (Samples.class_of Samples.stubs_tree) in
  JavaCodeParser._is_public_method hidden Samples.stubs_src = false
  /\ HierarchyScanner.public_name Samples.stubs_src hidden = [].
Proof.
  intros hidden.
  destruct (no_modifiers_means_not_public hidden Samples.stubs_src)
    as [H1 [_ [H3 _]]].
  - vm_compute. intros c H.
    repeat (destruct H as [<- | H]; [reflexivity|]). destruct H.
  - split; assumption.
Defined.

(** The method [hidden] of [Stubs] has no modifiers: the scanner records
    the three other methods only. *)
Example hidden_method_not_recorded :
  type (Samples.member 4 (Samples.class_of Samples.stubs_tree))
  = lit "method_declaration"
  /\ HierarchyScanner._get_public_method_names
       (Samples.class_of Samples.stubs_tree) Samples.stubs_src
     = map lit ["a"; "b"; "c"].
Proof. vm_compute. split; reflexivity. Qed.

(* ------------------------------------------------------------------ *)
(** ** The hierarchy scan and the file system *)

Section ScanFacts.

Variable ts_parse : str -> result node.
Variable json_dump : hierarchy -> str.

Lemma scan_files_from (d : FS.fs) (java_files : list str)
    (hierarchy_map : hierarchy) :
  fold_left (scan_file ts_parse d) java_files hierarchy_map
  = fold_left dict_update (class_infos_read ts_parse d java_files)
              hierarchy_map.
Proof.
  revert hierarchy_map.
  induction java_files as [|f files IH]; intros hm; [reflexivity|].
  cbn [fold_left class_infos_read flat_map]. rewrite IH.
  unfold scan_file. rewrite fold_left_app.
  destruct (_extract_class_info ts_parse d f); reflexivity.
Qed.

Lemma scan_files_merge (d : FS.fs) (java_files : list str) :
  scan_files ts_parse d java_files
  = merge (class_infos_read ts_parse d java_files).
Proof. apply scan_files_from. Qed.


(** A write that returns has assigned the file and nothing else. *)
Lemma write_text_ok (p c : str) (d d' : FS.fs) :
  FS.write_text p c d = Ok d' -> d' = dict_set p (FS.File c) d.
Proof.
  unfold FS.write_text. intros H.
  assert (G : match dict_get p d with
              | Some FS.Dir => Raise OSError
              | _ => Ok (dict_set p (FS.File c) d)
              end = Ok d').
  { destruct (FS.parent_dir p) as [|x q]; [exact H|].
    destruct (dict_get (x :: q) d) as [[|c0]|];
      [exact H | discriminate H | discriminate H]. }
  destruct (dict_get p d) as [[|c0]|]; congruence.
Qed.

Lemma write_text_frame (p c : str) (d d' : FS.fs) :
  FS.write_text p c d = Ok d' ->
  d' = dict_set p (FS.File c) d
  /\ dict_get p d' = Some (FS.File c)
  /\ (forall q, q <> p -> dict_get q d' = dict_get q d).
Proof.
  intros H. apply write_text_ok in H.
  subst d'. split; [reflexivity|]. split.
  - apply dict_get_set_same.
  - intros q Hq. now apply dict_get_set_other.
Qed.

End ScanFacts.


(** C7, as the code has it: [build_project_map] builds the map and writes
    it in the same call.  When it returns a map, the file system differs
    from the initial one at the output path only, which holds the
    serialised map; when it raises, the file system is the initial one. *)
Theorem scan_writes_only_the_output_file :
  forall (ts_parse : str -> result node) (json_dump : hierarchy -> str)
         (d d' : FS.fs) (root_path output_file : str)
         (outcome : result hierarchy),
    build_project_map ts_parse json_dump d root_path output_file
    = (outcome, d') ->
    match outcome with
    | Ok hierarchy_map =>
        let output_path := FS.joinpath root_path output_file in
        hierarchy_map
        = scan_files ts_parse d (FS.rglob_java root_path d)
        /\ d' = dict_set output_path (FS.File (json_dump hierarchy_map)) d
        /\ dict_get output_path d'
           = Some (FS.File (json_dump hierarchy_map))
        /\ (forall p, p <> output_path -> dict_get p d' = dict_get p d)
    | Raise _ => d' = d
    end.
Proof.
  intros ts_parse json_dump d d' root out outcome.
  unfold build_project_map.
  destruct (FS.exists_ root d); cbn [negb].
  - destruct (FS.write_text _ _ d) as [d1|e] eqn:Hw; intros H;
      injection H as <- <-; [|reflexivity].
    cbv zeta. split; [reflexivity|].
    now apply write_text_frame.
  - intros H. injection H as <- <-. reflexivity.
Qed.


(** The two sources of the sample project give two entries, and the parent
    recorded for [Dog] is [Animal]; the directory is skipped. *)
Example scan_sample_project :
  fst (build_project_map Samples.ts_parse Samples.json_dump
         Samples.project (lit "/proj") (lit "project_hierarchy.json"))
  = Ok [ (lit "Animal",
          ClassInfo None (map lit ["eat"; "sleep"; "getName"; "makeSound"])
                    (lit "Animal"));
         (lit "Dog", ClassInfo (Some (lit "Animal")) [lit "bark"]
                               (lit "Dog")) ].
Proof. vm_compute. reflexivity. Qed.

Lemma scan_writes_only_the_output_file_witness :
  let r := build_project_map Samples.ts_parse Samples.json_dump
             Samples.project (lit "/proj") (lit "project_hierarchy.json") in
  match fst r with
  | Ok hierarchy_map =>
      let output_path :=
        FS.joinpath (lit "/proj") (lit "project_hierarchy.json") in
      hierarchy_map
      = scan_files Samples.ts_parse Samples.project
                   (FS.rglob_java (lit "/proj") Samples.project)
      /\ snd r = dict_set output_path
                   (FS.File (Samples.json_dump hierarchy_map))
                   Samples.project
      /\ dict_get output_path (snd r)
         = Some (FS.File (Samples.json_dump hierarchy_map))
      /\ (forall p, p <> output_path ->
                    dict_get p (snd r) = dict_get p Samples.project)
  | Raise _ => snd r = Samples.project
  end.
Proof.
  intros r.
  exact (scan_writes_only_the_output_file
           Samples.ts_parse Samples.json_dump Samples.project (snd r)
           (lit "/proj") (lit "project_hierarchy.json") (fst r)
           (surjective_pairing r)).
Defined.

(** C7 as stated fails: the scan of the sample project returns the map and
    leaves behind a file that was not there, the hierarchy file. *)
Lemma scan_creates_the_hierarchy_file :
  let r := build_project_map Samples.ts_parse Samples.json_dump
             Samples.project (lit "/proj") (lit "project_hierarchy.json") in
  (exists hierarchy_map, fst r = Ok hierarchy_map)
  /\ FS.exists_ (lit "/proj/project_hierarchy.json") Samples.project = false
  /\ FS.exists_ (lit "/proj/project_hierarchy.json") (snd r) = true
  /\ FS.read_text (lit "/proj/project_hierarchy.json") (snd r)
     = Ok (lit "Animal,Dog")
  /\ snd r <> Samples.project.
Proof.
  intros r.
  assert (E1 : FS.exists_ (lit "/proj/project_hierarchy.json")
                          Samples.project = false)
    by (vm_compute; reflexivity).
  assert (E2 : FS.exists_ (lit "/proj/project_hierarchy.json") (snd r)
               = true)
    by (vm_compute; reflexivity).
  split; [eexists; vm_compute; reflexivity|].
  split; [exact E1|]. split; [exact E2|].
  split; [vm_compute; reflexivity|].
  intros H. rewrite H in E2. congruence.
Qed.

(* ------------------------------------------------------------------ *)
(** ** Pass 2 of the ingestion pipeline *)

Section PipelineFacts.

Variable parse_file : str -> result (list chunk).
Variables E S : Type.
Variable enrich_batch : E -> list chunk -> result (list chunk) * E.
Variable add_batch : S -> list chunk -> result unit * S.
Variable batch_size : Z.

Local Abbreviation step :=
  (process_file parse_file enrich_batch add_batch batch_size).
Local Abbreviation Inv :=
  (loop_invariant parse_file batch_size).

Lemma log_chunks_frame (l : list chunk) (e : exn) (w : world E S) :
  w_stats (log_chunks l e w) = w_stats w
  /\ enricher (log_chunks l e w) = enricher w
  /\ vector_store (log_chunks l e w) = vector_store w
  /\ calls (log_chunks l e w) = calls w.
Proof.
  unfold log_chunks. revert w.
  induction l as [|c l IH]; intros w; [auto|].
  cbn [fold_left]. destruct (IH (log_error
    match file_path c with Some p => p | None => lit "unknown" end e w))
    as [H1 [H2 [H3 H4]]].
  rewrite H1, H2, H3, H4. auto.
Qed.

(** A flush hands the whole buffer to the enricher, in one call, and
    returns what the enricher returned; it makes no call to the store and
    leaves the counters alone. *)
Lemma flush_buffer_effect (b : list chunk) (w : world E S) :
  w_stats (snd (flush_buffer enrich_batch b w)) = w_stats w
  /\ exists new,
       calls (snd (flush_buffer enrich_batch b w)) = calls w ++ new
       /\ concat (enrich_inputs new) = b
       /\ concat (enrich_outputs new) = fst (flush_buffer enrich_batch b w)
       /\ write_inputs new = [].
Proof.
  unfold flush_buffer. destruct b as [|c b].
  - split; [reflexivity|]. exists []. cbn. rewrite app_nil_r. auto.
  - destruct (enrich_batch (enricher w) (c :: b)) as [[r|e] e'].
    + cbn [fst snd w_stats calls]. split; [reflexivity|].
      exists [Enrich (c :: b) (Ok r)]. cbn. rewrite !app_nil_r. auto.
    + cbn [fst snd].
      destruct (log_chunks_frame (c :: b) e
                  (World (w_stats w) (error_log w) e' (vector_store w)
                         (calls w ++ [Enrich (c :: b) (Raise e)])))
        as [H1 [_ [_ H4]]].
      rewrite H1, H4. cbn [w_stats calls]. split; [reflexivity|].
      exists [Enrich (c :: b) (Raise e)]. cbn. rewrite !app_nil_r. auto.
Qed.

(** A write hands the whole list to the store, in one call; it makes no
    call to the enricher and leaves the file counters alone. *)
Lemma write_effect (l : list chunk) (w : world E S) :
  let w' := _write_to_db_sequential add_batch l w in
  files_processed (w_stats w') = files_processed (w_stats w)
  /\ files_failed (w_stats w') = files_failed (w_stats w)
  /\ total_files (w_stats w') = total_files (w_stats w)
  /\ exists new,
       calls w' = calls w ++ new
       /\ enrich_inputs new = []
       /\ enrich_outputs new = []
       /\ concat (write_inputs new) = l.
Proof.
  unfold _write_to_db_sequential. destruct l as [|c l].
  - cbv zeta. repeat split. exists []. cbn. rewrite app_nil_r. auto.
  - destruct (add_batch (vector_store w) (c :: l)) as [[u|e] s'].
    + cbn. repeat split.
      exists [Write (c :: l) (Ok u)]. cbn. rewrite !app_nil_r. auto.
    + cbv zeta.
      destruct (log_chunks_frame (c :: l) e
                  (World (w_stats w) (error_log w) (enricher w) s'
                         (calls w ++ [Write (c :: l) (Raise e)])))
        as [H1 [_ [_ H4]]].
      rewrite H1, H4. cbn [w_stats calls]. repeat split.
      exists [Write (c :: l) (Raise e)]. cbn. rewrite !app_nil_r. auto.
Qed.

Lemma enrich_inputs_app (a b : list call) :
  enrich_inputs (a ++ b) = enrich_inputs a ++ enrich_inputs b.
Proof. apply flat_map_app. Qed.

Lemma enrich_outputs_app (a b : list call) :
  enrich_outputs (a ++ b) = enrich_outputs a ++ enrich_outputs b.
Proof. apply flat_map_app. Qed.

Lemma write_inputs_app (a b : list call) :
  write_inputs (a ++ b) = write_inputs a ++ write_inputs b.
Proof. apply flat_map_app. Qed.

Lemma parsed_chunks_snoc (done : list str) (f : str) :
  parsed_chunks parse_file (done ++ [f])
  = parsed_chunks parse_file done
    ++ match parse_file f with
       | Ok chunks => tag_chunks f chunks
       | Raise _ => []
       end.
Proof.
  unfold parsed_chunks. rewrite flat_map_app. cbn [flat_map].
  now rewrite app_nil_r.
Qed.

Lemma count_snoc (p : str -> bool) (done : list str) (f : str) :
  Z.of_nat (length (filter p (done ++ [f])))
  = Z.of_nat (length (filter p done)) + (if p f then 1 else 0).
Proof.
  rewrite filter_app, length_app. cbn [filter].
  destruct (p f); cbn [length]; lia.
Qed.

(** One iteration keeps the invariant. *)
Lemma process_file_invariant (w0 : world E S) (n : nat)
    (done : list str) (ls : loop_state E S) (f : str) :
  Inv w0 n done ls -> Inv w0 n (done ++ [f]) (step ls f).
Proof.
  intros [new [Hc [Hb [Ha [Hp [Hf [Ht [Hbuf Hall]]]]]]]].
  unfold loop_invariant, process_file.
  rewrite parsed_chunks_snoc, !count_snoc. unfold parses at 2 4.
  destruct (parse_file f) as [chunks|e].
  - (* the file parses *)
    set (buf := buffer ls ++ tag_chunks f chunks).
    set (w1 := with_stats _ (the_world ls)).
    assert (Hw1 : calls w1 = calls (the_world ls)) by reflexivity.
    destruct (Z.of_nat (length buf) >=? batch_size) eqn:Eb.
    + destruct (flush_buffer_effect buf w1)
        as [Hs [new1 [Hc1 [Hi1 [Ho1 Hw]]]]].
      destruct (flush_buffer enrich_batch buf w1) as [enriched w2].
      cbn [fst snd] in *.
      destruct (Z.of_nat (length (all_enriched_chunks ls ++ enriched))
                >=? batch_size * 5) eqn:Ea.
      * destruct (write_effect (all_enriched_chunks ls ++ enriched) w2)
          as [Hp3 [Hf3 [Ht3 [new2 [Hc2 [Hi2 [Ho2 Hw2]]]]]]].
        cbn [buffer all_enriched_chunks the_world].
        exists (new ++ new1 ++ new2).
        rewrite Hc2, Hc1, Hw1, Hc, Hp3, Hf3, Ht3, Hs.
        rewrite !enrich_inputs_app, !enrich_outputs_app,
                !write_inputs_app, !concat_app.
        rewrite Hi2, Ho2, Hw, Hi1, Ho1, Hw2. cbn [concat].
        rewrite !app_nil_r, <- !app_assoc.
        split; [reflexivity|].
        split; [subst buf; rewrite <- Hb; now rewrite <- ?app_assoc|].
        split; [rewrite <- Ha; now rewrite <- ?app_assoc|].
        subst w1. cbn. rewrite Hp, Hf, Ht.
        repeat split; auto; lia.
      * cbn [buffer all_enriched_chunks the_world].
        exists (new ++ new1).
        rewrite Hc1, Hw1, Hc, Hs.
        rewrite !enrich_inputs_app, !enrich_outputs_app,
                !write_inputs_app, !concat_app.
        rewrite Hw, Hi1, Ho1. cbn [concat].
        rewrite !app_nil_r, <- !app_assoc.
        split; [reflexivity|].
        split; [subst buf; rewrite <- Hb; now rewrite <- ?app_assoc|].
        split; [rewrite <- Ha; now rewrite <- ?app_assoc|].
        subst w1. cbn. rewrite Hp, Hf, Ht.
        rewrite Z.geb_leb in Ea. apply Z.leb_gt in Ea.
        repeat split; auto; lia.
    + cbn [buffer all_enriched_chunks the_world].
      exists new. rewrite Hw1, Hc.
      split; [reflexivity|].
      split; [subst buf; rewrite <- Hb; now rewrite <- ?app_assoc|].
      split; [assumption|].
      subst w1. cbn. rewrite Hp, Hf, Ht.
      rewrite Z.geb_leb in Eb. apply Z.leb_gt in Eb.
      repeat split; auto; lia.
  - (* the file fails *)
    cbn [buffer all_enriched_chunks the_world].
    exists new. cbn. rewrite Hc, Hp, Hf, Ht, app_nil_r.
    destruct ls as [b a w]. cbn in *.
    repeat split; auto; lia.
Qed.

(** The invariant holds when the loop starts and after any number of
    iterations. *)
Lemma loop_start_invariant (java_files : list str) (w : world E S) :
  Inv w (length java_files) [] (loop_start java_files w).
Proof.
  exists []. cbn. rewrite app_nil_r. repeat split; auto; lia.
Qed.

Lemma iterate_invariant (w0 : world E S) (n : nat) (files done : list str)
    (ls : loop_state E S) :
  Inv w0 n done ls ->
  Inv w0 n (done ++ files) (fold_left step files ls).
Proof.
  revert done ls. induction files as [|f files IH]; intros done ls H.
  - now rewrite app_nil_r.
  - cbn [fold_left].
    replace (done ++ f :: files) with ((done ++ [f]) ++ files)
      by now rewrite <- app_assoc.
    apply IH. now apply process_file_invariant.
Qed.

Lemma run_loop_invariant (java_files : list str) (w : world E S) :
  Inv w (length java_files) java_files
      (run_loop parse_file enrich_batch add_batch batch_size java_files w).
Proof.
  unfold run_loop.
  apply (iterate_invariant w (length java_files) java_files []).
  apply loop_start_invariant.
Qed.

(** After the loop both remainders are handed on. *)
Lemma drain_effect (w0 : world E S) (n : nat) (done : list str)
    (ls : loop_state E S) :
  Inv w0 n done ls ->
  let w' := drain enrich_batch add_batch ls in
  let st := w_stats w' in
  (exists new,
      calls w' = calls w0 ++ new
      /\ concat (enrich_inputs new) = parsed_chunks parse_file done
      /\ concat (write_inputs new) = concat (enrich_outputs new))
  /\ files_processed st
     = files_processed (w_stats w0)
       + Z.of_nat (length (filter (parses parse_file) done))
  /\ files_failed st
     = files_failed (w_stats w0)
       + Z.of_nat (length (filter (fun f => negb (parses parse_file f))
                                  done))
  /\ total_files st = Z.of_nat n.
Proof.
  intros [new [Hc [Hb [Ha [Hp [Hf [Ht _]]]]]]].
  unfold drain.
  assert (Hflush :
            match buffer ls with
            | [] => ([], the_world ls)
            | _ => flush_buffer enrich_batch (buffer ls) (the_world ls)
            end = flush_buffer enrich_batch (buffer ls) (the_world ls)).
  { unfold flush_buffer. now destruct (buffer ls). }
  rewrite Hflush. clear Hflush.
  destruct (flush_buffer_effect (buffer ls) (the_world ls))
    as [Hs [new1 [Hc1 [Hi1 [Ho1 Hw]]]]].
  destruct (flush_buffer enrich_batch (buffer ls) (the_world ls))
    as [enriched w1].
  cbn [fst snd] in *.
  assert (Hwrite :
            match all_enriched_chunks ls ++ enriched with
            | [] => w1
            | _ => _write_to_db_sequential add_batch
                     (all_enriched_chunks ls ++ enriched) w1
            end = _write_to_db_sequential add_batch
                    (all_enriched_chunks ls ++ enriched) w1).
  { unfold _write_to_db_sequential.
    now destruct (all_enriched_chunks ls ++ enriched). }
  cbv zeta. rewrite Hwrite. clear Hwrite.
  destruct (write_effect (all_enriched_chunks ls ++ enriched) w1)
    as [Hp2 [Hf2 [Ht2 [new2 [Hc2 [Hi2 [Ho2 Hw2]]]]]]].
  rewrite Hp2, Hf2, Ht2, Hs, Hp, Hf, Ht.
  split; [|auto].
  exists (new ++ new1 ++ new2).
  rewrite Hc2, Hc1, Hc.
  rewrite !enrich_inputs_app, !enrich_outputs_app, !write_inputs_app,
          !concat_app.
  rewrite Hi2, Ho2, Hw, Hi1, Ho1, Hw2. cbn [concat].
  rewrite !app_nil_r, <- !app_assoc.
  split; [reflexivity|]. split; [assumption|].
  rewrite <- Ha. now rewrite <- ?app_assoc.
Qed.

(** The chunks in the buffer are the chunks the parser returned, each
    with the path of its file recorded. *)
Lemma parsed_chunks_handed_on (files : list str) :
  Forall2 handed_on (returned_chunks parse_file files)
          (parsed_chunks parse_file files).
Proof.
  induction files as [|f files IH]; [constructor|].
  unfold returned_chunks, parsed_chunks. cbn [flat_map].
  apply Forall2_app; [|exact IH].
  destruct (parse_file f) as [chunks|e]; [|constructor].
  unfold tag_chunks.
  induction chunks as [|c chunks IHc]; [constructor|].
  cbn [map]. constructor; [|exact IHc].
  unfold handed_on. cbn. repeat split.
Qed.

End PipelineFacts.

Lemma handed_on_names (l : list (str * chunk)) (l' : list chunk) :
  Forall2 handed_on l l' ->
  map (fun c => (file_path c, method_name c)) l'
  = map (fun r => (Some (fst r), method_name (snd r))) l.
Proof.
  induction 1 as [|r c l l' H _ IH]; [reflexivity|].
  cbn [map]. destruct H as [Hp [Hn _]]. now rewrite Hp, Hn, IH.
Qed.

(** C6: Pass 2 hands every chunk that [parse_file] returns during the run
    to the enricher, and every chunk the enricher returns to exactly one
    write to the store.  The buffers passed to the enricher, put end to
    end, are the chunks returned by [parse_file] for the files of the
    list, in order, each with the path of its file recorded and no other
    field changed; the batches passed to the store, put end to end, are
    the chunks returned by the enricher.  After any number of iterations
    the parse buffer is empty or below the flush size and the accumulation
    buffer is empty or below five times the flush size, so a flush happens
    whenever the first reaches the flush size and a write whenever the
    second reaches five times it. *)
Theorem pass2_drops_no_chunk :
  forall (parse_file : str -> result (list chunk)) (E S : Type)
         (enrich_batch : E -> list chunk -> result (list chunk) * E)
         (add_batch : S -> list chunk -> result unit * S)
         (batch_size : Z) (java_files done : list str) (w : world E S),
    let w' := phase2_ingestion_loop parse_file enrich_batch add_batch
                                    batch_size java_files w in
    let ls := fold_left
                (process_file parse_file enrich_batch add_batch batch_size)
                done (loop_start java_files w) in
    (exists new : list call,
        calls w' = calls w ++ new
        /\ Forall2 handed_on (returned_chunks parse_file java_files)
                   (concat (enrich_inputs new))
        /\ concat (write_inputs new) = concat (enrich_outputs new))
    /\ (buffer ls = [] \/ Z.of_nat (length (buffer ls)) < batch_size)
    /\ (all_enriched_chunks ls = []
        \/ Z.of_nat (length (all_enriched_chunks ls)) < batch_size * 5).
Proof.
  intros parse_file E S enrich_batch add_batch batch_size java_files done w
         w' ls.
  split.
  - subst w'. unfold phase2_ingestion_loop.
    destruct (proj1 (drain_effect parse_file E S enrich_batch add_batch
                       batch_size w (length java_files) java_files _
                       (run_loop_invariant parse_file E S enrich_batch
                          add_batch batch_size java_files w)))
      as [new [Hc [Hin Hout]]].
    exists new. split; [exact Hc|]. split; [|exact Hout].
    rewrite Hin. apply parsed_chunks_handed_on.
  - pose proof (iterate_invariant parse_file E S enrich_batch add_batch
                  batch_size w (length java_files) done [] _
                  (loop_start_invariant parse_file E S batch_size
                     java_files w)) as H.
    destruct H as [new [_ [_ [_ [_ [_ [_ [Hb Ha]]]]]]]].
    split; assumption.
Qed.

Lemma pass2_drops_no_chunk_witness :
  let w' := phase2_ingestion_loop MoreSamples.sample_parse
              Samples.enrich_batch Samples.add_batch 2
              MoreSamples.sample_files MoreSamples.sample_world in
  map (fun c => (file_path c, method_name c))
      (concat (enrich_inputs (calls w')))
  = [ (Some (lit "/proj/Animal.java"), lit "eat");
      (Some (lit "/proj/Animal.java"), lit "sleep");
      (Some (lit "/proj/Animal.java"), lit "getName");
      (Some (lit "/proj/Animal.java"), lit "makeSound");
      (Some (lit "/proj/Dog.java"), lit "bark") ]
  /\ concat (write_inputs (calls w')) = concat (enrich_outputs (calls w')).
Proof.
  intros w'.
  destruct (pass2_drops_no_chunk MoreSamples.sample_parse unit (list nat)
              Samples.enrich_batch Samples.add_batch 2
              MoreSamples.sample_files [] MoreSamples.sample_world)
    as [[new [Hc [Hin Hout]]] _].
  fold w' in Hc. cbn [calls MoreSamples.sample_world app] in Hc.
  rewrite Hc. split; [|exact Hout].
  rewrite (handed_on_names _ _ Hin). vm_compute. reflexivity.
Defined.

(** C10: after Pass 2 the total is the number of files of the list, the
    files that parse are counted as processed and the others as failed, so
    that every file is counted exactly once; starting from the counters of
    [__init__], processed plus failed is the total. *)
Theorem pass2_counts_every_file_once :
  forall (parse_file : str -> result (list chunk)) (E S : Type)
         (enrich_batch : E -> list chunk -> result (list chunk) * E)
         (add_batch : S -> list chunk -> result unit * S)
         (batch_size : Z) (java_files : list str) (w : world E S),
    let st := w_stats w in
    let st' := w_stats (phase2_ingestion_loop parse_file enrich_batch
                          add_batch batch_size java_files w) in
    total_files st' = Z.of_nat (length java_files)
    /\ files_processed st'
       = files_processed st
         + Z.of_nat (length (filter (parses parse_file) java_files))
    /\ files_failed st'
       = files_failed st
         + Z.of_nat (length (filter (fun f => negb (parses parse_file f))
                                    java_files))
    /\ files_processed st' + files_failed st'
       = files_processed st + files_failed st + total_files st'
    /\ (files_processed st = 0 -> files_failed st = 0 ->
        files_processed st' + files_failed st' = total_files st').
Proof.
  intros parse_file E S enrich_batch add_batch batch_size java_files w
         st st'.
  destruct (drain_effect parse_file E S enrich_batch add_batch batch_size
              w (length java_files) java_files _
              (run_loop_invariant parse_file E S enrich_batch add_batch
                 batch_size java_files w))
    as [_ [Hp [Hf Ht]]].
  fold (phase2_ingestion_loop parse_file enrich_batch add_batch batch_size
          java_files w) in Hp, Hf, Ht.
  fold st' in Hp, Hf, Ht. fold st in Hp, Hf.
  assert (Hcount :
            Z.of_nat (length (filter (parses parse_file) java_files))
            + Z.of_nat (length (filter (fun f => negb (parses parse_file f))
                                       java_files))
            = Z.of_nat (length java_files)).
  { clear. induction java_files as [|f l IH]; [reflexivity|].
    cbn [filter]. destruct (parses parse_file f); cbn [negb length]; lia. }
  repeat split; try assumption; lia.
Qed.


(** [parse_file] on a file that can be read is the parser applied to its
    text and tree; on a missing file it raises. *)
Lemma parse_file_of_source (ts_parse : str -> result node) (depth : nat)
    (hierarchy_map : hierarchy) (d : FS.fs) (file_path source_code : str)
    (root_node : node) :
  FS.read_text file_path d = Ok source_code ->
  ts_parse source_code = Ok root_node ->
  parse_file ts_parse depth hierarchy_map d file_path
  = JavaCodeParser.parse_tree depth hierarchy_map source_code root_node.
Proof.
  intros Hr Hp. unfold parse_file.
  assert (He : FS.exists_ file_path d = true).
  { unfold FS.exists_, FS.read_text in *.
    destruct (dict_get file_path d) as [[|c]|]; congruence. }
  rewrite He, Hr. cbn [negb bind]. now rewrite Hp.
Qed.

Lemma parse_file_missing (ts_parse : str -> result node) (depth : nat)
    (hierarchy_map : hierarchy) (d : FS.fs) (file_path : str) :
  FS.exists_ file_path d = false ->
  parse_file ts_parse depth hierarchy_map d file_path
  = Raise FileNotFoundError.
Proof. intros H. unfold parse_file. now rewrite H. Qed.

(** Both passes on the sample project with a flush size of two: the two
    sources are processed and the directory fails; the four chunks of
    [Animal] are flushed when its file is done, the chunk of [Dog] after the
    loop, and the five are written at once. *)
Example pass2_sample_run :
  let r := build_project_map Samples.ts_parse Samples.json_dump
             Samples.project (lit "/proj") (lit "project_hierarchy.json") in
  let hierarchy_map := match fst r with Ok hm => hm | Raise _ => [] end in
  let java_files := FS.rglob_java (lit "/proj") (snd r) in
  let w := phase2_ingestion_loop
             (parse_file Samples.ts_parse Samples.depth hierarchy_map (snd r))
             Samples.enrich_batch Samples.add_batch 2 java_files
             (World init_stats [] tt [] []) in
  java_files
  = [lit "/proj/Animal.java"; lit "/proj/gen.java"; lit "/proj/Dog.java"]
  /\ w_stats w = Stats 2 1 5 3
  /\ error_log w = [(lit "/proj/gen.java", OSError)]
  /\ vector_store w = [5%nat]
  /\ map (fun c => match c with
                   | Enrich b _ => (0, length b)
                   | Write b _ => (1, length b)
                   end) (calls w)
     = [(0, 4%nat); (0, 1%nat); (1, 5%nat)].
Proof. vm_compute. repeat split; reflexivity. Qed.

(* ================================================================== *)
(** * Further properties of the code *)

(* ------------------------------------------------------------------ *)
(** ** Searching the tree *)

Module TreeFacts.

Lemma filter_flat_map {A B : Type} (p : B -> bool) (g : A -> list B)
    (l : list A) :
  filter p (flat_map g l) = flat_map (fun a => filter p (g a)) l.
Proof.
  induction l as [|a l IH]; [reflexivity|].
  cbn [flat_map]. now rewrite filter_app, IH.
Qed.

Lemma flat_map_ext_in {A B : Type} (f g : A -> list B) (l : list A) :
  Forall (fun a => f a = g a) l -> flat_map f l = flat_map g l.
Proof.
  induction 1 as [|a l Ha _ IH]; [reflexivity|].
  cbn [flat_map]. now rewrite Ha, IH.
Qed.

Lemma find_nodes_filter (ty : String.string) (n : node) :
  _find_nodes_by_type n ty = filter (has_type ty) (subnodes n).
Proof.
  induction n as [t a b tx cs IH] using ReturnFacts.node_ind_strong.
  cbn [_find_nodes_by_type subnodes filter].
  rewrite filter_flat_map.
  rewrite (flat_map_ext_in _ _ cs IH).
  destruct (has_type ty (Node t a b tx cs)); reflexivity.
Qed.

Lemma subnodes_self (n : node) : In n (subnodes n).
Proof. destruct n. now left. Qed.

Lemma subnodes_trans (a : node) :
  forall b m, In b (subnodes a) -> In m (subnodes b) -> In m (subnodes a).
Proof.
  induction a as [t x y tx cs IH] using ReturnFacts.node_ind_strong.
  intros b m Hb Hm. cbn [subnodes] in Hb. destruct Hb as [<- | Hb].
  - exact Hm.
  - cbn [subnodes]. right. apply in_flat_map in Hb.
    destruct Hb as [c [Hc Hb]]. apply in_flat_map. exists c.
    split; [assumption|]. rewrite Forall_forall in IH.
    exact (IH c Hc b m Hb Hm).
Qed.

Lemma find_nodes_trans (t1 t2 : String.string) (a b m : node) :
  In b (_find_nodes_by_type a t1) ->
  In m (_find_nodes_by_type b t2) ->
  In m (_find_nodes_by_type a t2).
Proof.
  rewrite !find_nodes_filter, !filter_In.
  intros [Hb _] [Hm Ht]. split; [|assumption].
  now apply (subnodes_trans a b).
Qed.

End TreeFacts.

(** X1: the recursive search returns exactly the nodes of the tree that
    have the requested type, in document order: it is the filter of the
    pre-order list of nodes, so every result has the type, every node of
    the type below the start node is found, and the start node comes first
    when it matches. *)
Theorem find_nodes_is_filter_of_subnodes :
  forall (n : node) (node_type : String.string),
    _find_nodes_by_type n node_type
    = filter (has_type node_type) (subnodes n)
    /\ (forall m, In m (_find_nodes_by_type n node_type)
                  <-> In m (subnodes n) /\ has_type node_type m = true)
    /\ (has_type node_type n = true ->
        hd_error (_find_nodes_by_type n node_type) = Some n).
Proof.
  intros n ty. split; [apply TreeFacts.find_nodes_filter|]. split.
  - intros m. rewrite TreeFacts.find_nodes_filter. apply filter_In.
  - intros H. destruct n as [t a b tx cs].
    cbn [_find_nodes_by_type]. now rewrite H.
Qed.

Lemma find_nodes_is_filter_of_subnodes_witness :
  hd_error (_find_nodes_by_type Samples.calc_tree "program")
  = Some Samples.calc_tree.
Proof.
  apply (find_nodes_is_filter_of_subnodes Samples.calc_tree "program").
  vm_compute. reflexivity.
Defined.
(* ------------------------------------------------------------------ *)
(** ** The chunks of a file *)

Module ChunkFacts.
Import JavaCodeParser.

Lemma first_some_find {A B : Type} (p : A -> bool) (g : A -> B)
    (l : list A) :
  first_some (fun c => if p c then Some (g c) else None) l
  = option_map g (find p l).
Proof.
  induction l as [|x l IH]; [reflexivity|].
  cbn [first_some find]. destruct (p x); [reflexivity | exact IH].
Qed.

(** A guarded search stops at the first element that passes the guard
    when the inner search succeeds there. *)
Lemma first_some_at {A B : Type} (q : A -> bool) (f : A -> option B)
    (l : list A) (a : A) (v : B) :
  find q l = Some a -> f a = Some v ->
  first_some (fun c => if q c then f c else None) l = Some v.
Proof.
  intros Hfind Hf. induction l as [|x l IH]; [discriminate|].
  cbn [first_some find] in *. destruct (q x).
  - injection Hfind as ->. now rewrite Hf.
  - exact (IH Hfind).
Qed.

Lemma first_some_guard_none {A B : Type} (q : A -> bool)
    (f : A -> option B) (l : list A) :
  find q l = None ->
  first_some (fun c => if q c then f c else None) l = None.
Proof.
  induction l as [|x l IH]; [reflexivity|].
  cbn [first_some find]. destruct (q x); [discriminate | exact IH].
Qed.

(** The name variable after one child, and after all of them. *)
Lemma scan_method_part_name (source_code : str) (v : method_vars)
    (c : node) :
  v_name (scan_method_part source_code v c)
  = if has_type "modifiers" c then v_name v
    else if has_type "identifier" c then Some (text c) else v_name v.
Proof.
  unfold scan_method_part.
  destruct (has_type "modifiers" c); [reflexivity|].
  destruct (has_type "identifier" c); [reflexivity|].
  match goal with |- context [if ?b then _ else _] => destruct b end;
    [reflexivity|].
  destruct (has_type "formal_parameters" c).
  - destruct (_extract_parameters_with_types c source_code); reflexivity.
  - match goal with |- context [if ?b then _ else _] => destruct b end;
      reflexivity.
Qed.

Lemma scan_method_parts_name (source_code : str) (l : list node)
    (v : method_vars) :
  v_name (fold_left (scan_method_part source_code) l v)
  = match HierarchyScanner.last_identifier l with
    | Some n => Some n
    | None => v_name v
    end.
Proof.
  induction l as [|x l IH] using rev_ind; [reflexivity|].
  rewrite fold_left_app. cbn [fold_left].
  rewrite scan_method_part_name, IH.
  unfold HierarchyScanner.last_identifier. rewrite rev_app_distr.
  cbn [rev app first_some].
  destruct (has_type "modifiers" x) eqn:Hm.
  - now rewrite (ScannerFacts.modifiers_not_identifier x Hm).
  - destruct (has_type "identifier" x); reflexivity.
Qed.

(** The body variable is assigned by body nodes only. *)
Lemma scan_method_part_body (source_code : str) (v : method_vars)
    (c : node) :
  type_in ["block"; "constructor_body"] c = false ->
  v_body (scan_method_part source_code v c) = v_body v.
Proof.
  intros H. unfold scan_method_part.
  destruct (has_type "modifiers" c); [reflexivity|].
  destruct (has_type "identifier" c); [reflexivity|].
  match goal with |- context [if ?b then _ else _] => destruct b end;
    [reflexivity|].
  destruct (has_type "formal_parameters" c).
  - destruct (_extract_parameters_with_types c source_code); reflexivity.
  - now rewrite H.
Qed.

Lemma scan_method_parts_body (source_code : str) (l : list node)
    (v : method_vars) :
  forallb (fun c => negb (type_in ["block"; "constructor_body"] c)) l
  = true ->
  v_body (fold_left (scan_method_part source_code) l v) = v_body v.
Proof.
  revert v. induction l as [|x l IH]; intros v H; [reflexivity|].
  cbn [forallb] in H. apply andb_prop in H. destruct H as [Hx Hl].
  cbn [fold_left]. rewrite (IH _ Hl).
  apply scan_method_part_body. now apply negb_true_iff.
Qed.

(** The fields of the chunk built from a declaration. *)
Lemma extract_method_info_fields (m : node)
    (source_code context class_name : str) (is_constructor : bool)
    (method_info : chunk) :
  _extract_method_info m source_code context class_name is_constructor
  = Some method_info ->
  let v := fold_left (scan_method_part source_code) (children m)
                     (MethodVars None None [] None [] []) in
  class_context method_info = context
  /\ id method_info = None
  /\ file_path method_info = None
  /\ summary method_info = None
  /\ keywords method_info = None
  /\ truthy (method_name method_info) = true
  /\ (is_constructor = false -> v_name v = Some (method_name method_info))
  /\ (is_constructor = true -> method_name method_info = lit "<Constructor>")
  /\ dependency_types method_info
     = _filter_complex_types (v_parameter_types v)
  /\ method_body method_info
     = match v_body v with
       | Some b => if truthy b then b
                   else strip (src_text source_code m)
       | None => strip (src_text source_code m)
       end.
Proof.
  intros H v. unfold _extract_method_info in H. fold v in H.
  cbv zeta in H.
  destruct (negb is_constructor && negb (opt_truthy (v_name v))) eqn:E;
    [discriminate|].
  apply ReturnFacts.Ok_inj_some in H. subst method_info.
  cbn [class_context id file_path summary keywords method_name
       dependency_types method_body].
  repeat (split; [reflexivity|]).
  destruct is_constructor; cbn [negb andb] in E.
  - split; [reflexivity|]. split; [discriminate|].
    split; [reflexivity|]. split; reflexivity.
  - apply negb_false_iff in E. destruct (v_name v) as [n|];
      [|discriminate]. cbn [opt_truthy] in E.
    split; [exact E|]. split; [reflexivity|].
    split; [discriminate|]. split; reflexivity.
Qed.

(** The chunk of a declaration carries the identifier computed from its
    own context and signature. *)
Lemma declaration_chunks_id (source_code class_context class_name : str)
    (is_constructor : bool) (m : node) (l : list chunk) (ch : chunk) :
  declaration_chunks source_code class_context class_name is_constructor m
  = Ok l ->
  In ch l ->
  exists method_info i,
    _extract_method_info m source_code class_context class_name
                         is_constructor = Some method_info
    /\ _generate_method_id class_context (method_signature method_info)
       = Ok i
    /\ ch = set_id method_info i.
Proof.
  unfold declaration_chunks. intros H Hin.
  destruct (_is_public_method m source_code);
    [|injection H as <-; destruct Hin].
  destruct (_extract_method_info m source_code class_context class_name
                                 is_constructor) as [info|];
    [|injection H as <-; destruct Hin].
  destruct (negb (_is_empty_method (method_body info)));
    [|injection H as <-; destruct Hin].
  apply ParseFacts.bind_ok in H. destruct H as [i [Hi H]].
  injection H as <-. destruct Hin as [<- | []].
  exists info, i. auto.
Qed.

Lemma generate_method_id_shape (class_context method_signature i : str) :
  _generate_method_id class_context method_signature = Ok i ->
  length i = 64%nat /\ Forall is_hex_char i.
Proof.
  unfold _generate_method_id. intros H.
  apply ParseFacts.bind_ok in H. destruct H as [bytes [_ H]].
  apply ReturnFacts.Ok_inj in H. subst i.
  split; [apply hexdigest_length | apply hexdigest_hex].
Qed.

End ChunkFacts.

(** X2: a class declared inside another class is itself one of the classes
    of the file, and a declaration found below it is also found below the
    enclosing class; so [parse_file] yields such a declaration twice, once
    under the context of each of the two classes. *)
Theorem nested_declaration_visited_for_both_classes :
  forall (depth : nat) (hierarchy_map : hierarchy) (source_code : str)
         (root_node : node) (chunks : list chunk)
         (outer inner : node) (outer_context inner_context : str)
         (is_constructor : bool) (m : node),
    JavaCodeParser.parse_tree depth hierarchy_map source_code root_node
    = Ok chunks ->
    In outer (_find_nodes_by_type root_node "class_declaration") ->
    In inner (_find_nodes_by_type outer "class_declaration") ->
    In m (_find_nodes_by_type inner
            (JavaCodeParser.declaration_type is_constructor)) ->
    JavaCodeParser.context_of_class depth hierarchy_map source_code
      (JavaCodeParser._extract_package_name root_node source_code) outer
    = Ok outer_context ->
    JavaCodeParser.context_of_class depth hierarchy_map source_code
      (JavaCodeParser._extract_package_name root_node source_code) inner
    = Ok inner_context ->
    In inner (_find_nodes_by_type root_node "class_declaration")
    /\ In m (_find_nodes_by_type outer
               (JavaCodeParser.declaration_type is_constructor))
    /\ exists from_outer from_inner,
         JavaCodeParser.declaration_chunks source_code outer_context
           (JavaCodeParser._get_class_name outer) is_constructor m
         = Ok from_outer
         /\ JavaCodeParser.declaration_chunks source_code inner_context
              (JavaCodeParser._get_class_name inner) is_constructor m
            = Ok from_inner
         /\ incl from_outer chunks
         /\ incl from_inner chunks.
Proof.
  intros depth hm src root chunks outer inner octx ictx is_ctor m
         Hparse Houter Hinner Hm Hoctx Hictx.
  assert (Hin : In inner (_find_nodes_by_type root "class_declaration"))
    by exact (TreeFacts.find_nodes_trans _ _ _ _ _ Houter Hinner).
  assert (Hmo : In m (_find_nodes_by_type outer
                        (JavaCodeParser.declaration_type is_ctor)))
    by exact (TreeFacts.find_nodes_trans _ _ _ _ _ Hinner Hm).
  split; [exact Hin|]. split; [exact Hmo|].
  destruct (ParseFacts.parse_tree_contains _ _ _ _ _ _ _ _ _
              Hparse Houter Hoctx Hmo) as [lo [Hlo Hio]].
  destruct (ParseFacts.parse_tree_contains _ _ _ _ _ _ _ _ _
              Hparse Hin Hictx Hm) as [li [Hli Hii]].
  exists lo, li. auto.
Qed.

Lemma nested_declaration_visited_for_both_classes_witness :
  exists chunks from_outer from_inner,
    JavaCodeParser.parse_tree Samples.depth [] MoreSamples.nest_src
                              MoreSamples.nest_tree = Ok chunks
    /\ map class_context from_outer
       = [lit "Package: None, Class: Outer, Fields: None"]
    /\ map class_context from_inner
       = [lit "Package: None, Class: Inner, Fields: None"]
    /\ map method_name (from_outer ++ from_inner) = [lit "f"; lit "f"]
    /\ incl from_outer chunks
    /\ incl from_inner chunks.
Proof.
  pose (outer := Samples.class_of MoreSamples.nest_tree).
  pose (inner := Samples.member 1 outer).
  pose (m := Samples.member 1 inner).
  destruct (JavaCodeParser.parse_tree Samples.depth [] MoreSamples.nest_src
                                      MoreSamples.nest_tree)
    as [chunks|e] eqn:Hparse; [|vm_compute in Hparse; discriminate Hparse].
  destruct (nested_declaration_visited_for_both_classes
              Samples.depth [] MoreSamples.nest_src MoreSamples.nest_tree
              chunks outer inner
              (lit "Package: None, Class: Outer, Fields: None")
              (lit "Package: None, Class: Inner, Fields: None")
              false m Hparse)
    as [_ [_ [lo [li [Hlo [Hli [Hio Hii]]]]]]].
  - vm_compute. left. reflexivity.
  - vm_compute. right. left. reflexivity.
  - vm_compute. left. reflexivity.
  - vm_compute. reflexivity.
  - vm_compute. reflexivity.
  - exists chunks, lo, li. split; [reflexivity|].
    vm_compute in Hlo. apply ReturnFacts.Ok_inj in Hlo. subst lo.
    vm_compute in Hli. apply ReturnFacts.Ok_inj in Hli. subst li.
    split; [vm_compute; reflexivity|].
    split; [vm_compute; reflexivity|].
    split; [vm_compute; reflexivity|].
    split; assumption.
Defined.

(** X3: a method declared directly in the body of a class that the parser
    takes for public and names is also taken for public by the scanner:
    the name of the parser's chunk is among the public method names the
    scanner records for the class. *)
Theorem parser_public_method_is_recorded_by_scanner :
  forall (class_node class_body m : node)
         (source_code class_context class_name : str)
         (method_info : chunk),
    class_body_of class_node = Some class_body ->
    In m (children class_body) ->
    has_type "method_declaration" m = true ->
    JavaCodeParser._is_public_method m source_code = true ->
    JavaCodeParser._extract_method_info m source_code class_context
                                        class_name false
    = Some method_info ->
    In (method_name method_info)
       (HierarchyScanner._get_public_method_names class_node source_code).
Proof.
  intros class_node body m src ctx cls info Hbody Hm Hty Hpub Hinfo.
  destruct (ChunkFacts.extract_method_info_fields _ _ _ _ _ _ Hinfo)
    as [_ [_ [_ [_ [_ [Htr [Hname _]]]]]]].
  specialize (Hname eq_refl).
  rewrite ChunkFacts.scan_method_parts_name in Hname.
  cbn [JavaCodeParser.v_name] in Hname.
  destruct (HierarchyScanner.last_identifier (children m)) as [n|] eqn:Hlast;
    [|discriminate].
  apply ReturnFacts.Ok_inj_some in Hname. subst n.
  unfold HierarchyScanner._get_public_method_names. rewrite Hbody.
  rewrite ScannerFacts.flat_map_public_name.
  assert (Hd : HierarchyScanner.declared_name m = method_name info).
  { unfold HierarchyScanner.declared_name. now rewrite Hlast. }
  rewrite <- Hd. apply in_map. apply filter_In. split; [exact Hm|].
  unfold HierarchyScanner.declares_public_method.
  rewrite Hty, Hlast, Htr. cbn [andb]. rewrite andb_true_r.
  unfold JavaCodeParser._is_public_method in Hpub.
  destruct (find (has_type "modifiers") (children m)) as [c|] eqn:Hfind;
    [|discriminate].
  apply find_some in Hfind. destruct Hfind as [Hc Hct].
  apply existsb_exists. exists c. split; [exact Hc|].
  unfold HierarchyScanner.is_public_modifiers. now rewrite Hct, Hpub.
Qed.

Lemma parser_public_method_is_recorded_by_scanner_witness :
  In (lit "area")
     (HierarchyScanner._get_public_method_names
        (nth 1 (children MoreSamples.shape_tree) MoreSamples.shape_tree)
        MoreSamples.shape_src).
Proof.
  pose (class_node :=
          nth 1 (children MoreSamples.shape_tree) MoreSamples.shape_tree).
  destruct (JavaCodeParser._extract_method_info
              (Samples.member 1 class_node) MoreSamples.shape_src
              (lit "Package: com.geo, Class: Shape, Fields: None")
              (lit "Shape") false) as [info|] eqn:Hinfo;
    [|vm_compute in Hinfo; discriminate Hinfo].
  assert (Hn : method_name info = lit "area").
  { vm_compute in Hinfo. apply ReturnFacts.Ok_inj_some in Hinfo.
    now subst info. }
  rewrite <- Hn.
  apply (parser_public_method_is_recorded_by_scanner
           class_node (nth 3 (children class_node) class_node)
           (Samples.member 1 class_node) MoreSamples.shape_src
           (lit "Package: com.geo, Class: Shape, Fields: None")
           (lit "Shape") info).
  - vm_compute. reflexivity.
  - vm_compute. right. left. reflexivity.
  - vm_compute. reflexivity.
  - vm_compute. reflexivity.
  - exact Hinfo.
Defined.

(** X4: the scanner and the parser read the same package name from a file
    whose first package declaration, if there is one, has an identifier or
    scoped identifier among its children; with no package declaration
    both give the text [None]. *)
Theorem scanner_and_parser_agree_on_package :
  forall (root_node : node) (source_code : str),
    (forall declaration,
        find (has_type "package_declaration") (children root_node)
        = Some declaration ->
        existsb (type_in ["scoped_identifier"; "identifier"])
                (children declaration) = true) ->
    HierarchyScanner._extract_package_name root_node source_code
    = JavaCodeParser._extract_package_name root_node source_code
    /\ (find (has_type "package_declaration") (children root_node) = None ->
        JavaCodeParser._extract_package_name root_node source_code
        = lit "None").
Proof.
  intros root src H.
  unfold HierarchyScanner._extract_package_name,
         JavaCodeParser._extract_package_name.
  destruct (find (has_type "package_declaration") (children root))
    as [decl|] eqn:Hfind.
  - specialize (H decl eq_refl).
    destruct (find (type_in ["scoped_identifier"; "identifier"])
                   (children decl)) as [pc|] eqn:Hpc.
    + split; [|discriminate].
      rewrite (ChunkFacts.first_some_at _ _ _ decl (src_text src pc) Hfind);
        [reflexivity|].
      rewrite (ChunkFacts.first_some_find
                 (type_in ["scoped_identifier"; "identifier"])
                 (src_text src)).
      now rewrite Hpc.
    + apply existsb_exists in H. destruct H as [x [Hx Hxt]].
      pose proof (find_none _ _ Hpc x Hx) as Hn.
      rewrite Hxt in Hn. discriminate Hn.
  - rewrite (ChunkFacts.first_some_guard_none _ _ _ Hfind).
    split; reflexivity.
Qed.

Lemma scanner_and_parser_agree_on_package_witness :
  HierarchyScanner._extract_package_name MoreSamples.shape_tree
                                         MoreSamples.shape_src
  = JavaCodeParser._extract_package_name MoreSamples.shape_tree
                                         MoreSamples.shape_src
  /\ JavaCodeParser._extract_package_name MoreSamples.shape_tree
                                          MoreSamples.shape_src
     = lit "com.geo".
Proof.
  split; [|vm_compute; reflexivity].
  apply (scanner_and_parser_agree_on_package MoreSamples.shape_tree
                                             MoreSamples.shape_src).
  intros declaration Hd. vm_compute in Hd.
  apply ReturnFacts.Ok_inj_some in Hd. subst declaration.
  vm_compute. reflexivity.
Defined.

(** X5: every chunk [parse_file] returns has a non-empty method name, has
    as [id] the identifier computed from its own class context and
    signature, a string of 64 lower-case hexadecimal characters, and has
    no file path, summary or keywords yet. *)
Theorem parsed_chunk_carries_its_own_id :
  forall (depth : nat) (hierarchy_map : hierarchy) (source_code : str)
         (root_node : node) (chunks : list chunk) (ch : chunk),
    JavaCodeParser.parse_tree depth hierarchy_map source_code root_node
    = Ok chunks ->
    In ch chunks ->
    (exists i,
        id ch = Some i
        /\ _generate_method_id (class_context ch) (method_signature ch)
           = Ok i
        /\ length i = 64%nat
        /\ Forall is_hex_char i)
    /\ truthy (method_name ch) = true
    /\ file_path ch = None
    /\ summary ch = None
    /\ keywords ch = None.
Proof.
  intros depth hm src root chunks ch Hparse Hin.
  destruct (ParseFacts.parse_tree_origin _ _ _ _ _ _ Hparse Hin)
    as [c [ctx [b [m [l [_ [_ [_ [Hd Hl]]]]]]]]].
  destruct (ChunkFacts.declaration_chunks_id _ _ _ _ _ _ _ Hd Hl)
    as [info [i [Hinfo [Hi ->]]]].
  destruct (ChunkFacts.extract_method_info_fields _ _ _ _ _ _ Hinfo)
    as [Hctx [_ [Hfp [Hsum [Hkw [Htr _]]]]]].
  cbn [set_id id class_context method_signature method_name file_path
       summary keywords].
  split.
  - exists i. split; [reflexivity|]. rewrite Hctx.
    split; [exact Hi|]. exact (ChunkFacts.generate_method_id_shape _ _ _ Hi).
  - auto.
Qed.

Lemma parsed_chunk_carries_its_own_id_witness :
  exists ch i,
    JavaCodeParser.parse_tree Samples.depth [] MoreSamples.shape_src
                              MoreSamples.shape_tree = Ok [ch]
    /\ id ch = Some i
    /\ _generate_method_id (class_context ch) (method_signature ch) = Ok i
    /\ length i = 64%nat.
Proof.
  destruct (JavaCodeParser.parse_tree Samples.depth [] MoreSamples.shape_src
                                      MoreSamples.shape_tree)
    as [chunks|e] eqn:Hparse; [|vm_compute in Hparse; discriminate Hparse].
  assert (Hone : exists ch, chunks = [ch]).
  { vm_compute in Hparse. apply ReturnFacts.Ok_inj in Hparse.
    subst chunks. eexists. reflexivity. }
  destruct Hone as [ch ->].
  destruct (parsed_chunk_carries_its_own_id
              Samples.depth [] MoreSamples.shape_src MoreSamples.shape_tree
              [ch] ch Hparse (or_introl eq_refl))
    as [[i [Hid [Hgen [Hlen _]]]] _].
  exists ch, i. auto.
Defined.

(** X6: a declaration without a [block] or [constructor_body] child, such
    as an abstract method, gets as its body the stripped text of the whole
    declaration. *)
Theorem declaration_without_block_keeps_its_text :
  forall (m : node) (source_code class_context class_name : str)
         (is_constructor : bool) (method_info : chunk),
    forallb (fun c => negb (type_in ["block"; "constructor_body"] c))
            (children m) = true ->
    JavaCodeParser._extract_method_info m source_code class_context
                                        class_name is_constructor
    = Some method_info ->
    method_body method_info = strip (src_text source_code m).
Proof.
  intros m src ctx cls is_ctor info Hno Hinfo.
  destruct (ChunkFacts.extract_method_info_fields _ _ _ _ _ _ Hinfo)
    as [_ [_ [_ [_ [_ [_ [_ [_ [_ Hbody]]]]]]]]].
  rewrite ChunkFacts.scan_method_parts_body in Hbody by exact Hno.
  exact Hbody.
Qed.

Lemma declaration_without_block_keeps_its_text_witness :
  exists method_info,
    JavaCodeParser._extract_method_info
      (Samples.member 1
         (nth 1 (children MoreSamples.shape_tree) MoreSamples.shape_tree))
      MoreSamples.shape_src
      (lit "Package: com.geo, Class: Shape, Fields: None")
      (lit "Shape") false
    = Some method_info
    /\ method_body method_info = lit "public abstract int area();".
Proof.
  destruct (JavaCodeParser._extract_method_info
              (Samples.member 1
                 (nth 1 (children MoreSamples.shape_tree)
                      MoreSamples.shape_tree))
              MoreSamples.shape_src
              (lit "Package: com.geo, Class: Shape, Fields: None")
              (lit "Shape") false) as [info|] eqn:Hinfo;
    [|vm_compute in Hinfo; discriminate Hinfo].
  exists info. split; [reflexivity|].
  rewrite (declaration_without_block_keeps_its_text
             (Samples.member 1
                (nth 1 (children MoreSamples.shape_tree)
                     MoreSamples.shape_tree))
             MoreSamples.shape_src
             (lit "Package: com.geo, Class: Shape, Fields: None")
             (lit "Shape") false info);
    [vm_compute; reflexivity | vm_compute; reflexivity | exact Hinfo].
Defined.

(* ------------------------------------------------------------------ *)
(** ** The hierarchy map and its lookups *)

Module MapFacts.

Lemma in_dict_set {V : Type} (k k0 : str) (v v0 : V) (d : dict V) :
  In (k0, v0) (dict_set k v d) -> (k0 = k /\ v0 = v) \/ In (k0, v0) d.
Proof.
  induction d as [|[k' v'] d IH]; cbn [dict_set].
  - intros [H | []]. injection H as <- <-. now left.
  - destruct (str_eqb k k').
    + intros [H | H]; [injection H as <- <-; now left | right; now right].
    + intros [H | H]; [right; now left|].
      destruct (IH H) as [Heq | Hin]; [now left | right; now right].
Qed.

Lemma dict_set_keys {V : Type} (k k0 : str) (v : V) (d : dict V) :
  In k0 (map fst (dict_set k v d)) <-> k0 = k \/ In k0 (map fst d).
Proof.
  induction d as [|[k' v'] d IH]; cbn [dict_set map fst In].
  - intuition congruence.
  - destruct (str_eqb k k') eqn:E; cbn [map fst In].
    + apply str_eqb_eq in E. subst k'. intuition congruence.
    + rewrite IH. intuition congruence.
Qed.

Lemma dict_set_NoDup {V : Type} (k : str) (v : V) (d : dict V) :
  NoDup (map fst d) -> NoDup (map fst (dict_set k v d)).
Proof.
  induction d as [|[k' v'] d IH]; cbn [dict_set map fst]; intros H.
  - constructor; [intros [] | constructor].
  - inversion H as [|x l Hnin Hnd]; subst.
    destruct (str_eqb k k') eqn:E; cbn [map fst].
    + apply str_eqb_eq in E. subst k'. now constructor.
    + constructor; [|now apply IH].
      rewrite dict_set_keys. intros [-> | Hin]; [|contradiction].
      rewrite str_eqb_refl in E. discriminate E.
Qed.

Lemma dict_update_NoDup {V : Type} (items d : dict V) :
  NoDup (map fst d) -> NoDup (map fst (dict_update d items)).
Proof.
  unfold dict_update. revert d.
  induction items as [|[k v] items IH]; intros d H; [exact H|].
  cbn [fold_left fst snd]. apply IH. now apply dict_set_NoDup.
Qed.

Lemma dict_get_absent {V : Type} (k : str) (d : dict V) :
  ~ In k (map fst d) -> dict_get k d = None.
Proof.
  induction d as [|[k' v'] d IH]; cbn [dict_get map fst In]; intros H;
    [reflexivity|].
  destruct (str_eqb k k') eqn:E.
  - apply str_eqb_eq in E. subst k'. exfalso. apply H. now left.
  - apply IH. intros Hin. apply H. now right.
Qed.

Lemma dict_get_present {V : Type} (k : str) (v : V) (d : dict V) :
  NoDup (map fst d) -> In (k, v) d -> dict_get k d = Some v.
Proof.
  induction d as [|[k' v'] d IH]; cbn [dict_get map fst]; intros Hnd Hin;
    [destruct Hin|].
  inversion Hnd as [|x l Hnin Hnd']; subst.
  destruct Hin as [H | H].
  - injection H as -> ->. now rewrite str_eqb_refl.
  - destruct (str_eqb k k') eqn:E; [|now apply IH].
    apply str_eqb_eq in E. subst k'. exfalso. apply Hnin.
    apply in_map_iff. now exists (k, v).
Qed.

Lemma dict_get_entry {V : Type} (k : str) (v : V) (d : dict V) :
  dict_get k d = Some v -> In (k, v) d.
Proof.
  induction d as [|[k' v'] d IH]; cbn [dict_get]; [discriminate|].
  destruct (str_eqb k k') eqn:E.
  - apply str_eqb_eq in E. subst k'. intros H. injection H as ->. now left.
  - intros H. right. now apply IH.
Qed.

(** Updating with a table of distinct keys: the table decides for its own
    keys, the old map for the others. *)
Lemma dict_update_get {V : Type} (k : str) (items d : dict V) :
  NoDup (map fst items) ->
  dict_get k (dict_update d items)
  = match dict_get k items with
    | Some v => Some v
    | None => dict_get k d
    end.
Proof.
  unfold dict_update. revert d.
  induction items as [|[k1 v1] items IH]; intros d Hnd; [reflexivity|].
  inversion Hnd as [|x l Hnin Hnd']; subst.
  cbn [fold_left fst snd dict_get]. rewrite (IH _ Hnd').
  destruct (str_eqb k k1) eqn:E.
  - apply str_eqb_eq in E. subst k1.
    rewrite (dict_get_absent k items Hnin). apply dict_get_set_same.
  - destruct (dict_get k items); [reflexivity|].
    apply dict_get_set_other. now apply str_eqb_neq.
Qed.

Lemma merge_from_get {V : Type} (k : str) (tables : list (dict V))
    (d : dict V) :
  Forall (fun t => NoDup (map fst t)) tables ->
  dict_get k (fold_left dict_update tables d)
  = match first_some (dict_get k) (rev tables) with
    | Some v => Some v
    | None => dict_get k d
    end.
Proof.
  induction tables as [|t tables IH] using rev_ind; intros H;
    [reflexivity|].
  apply Forall_app in H. destruct H as [Hts Ht].
  inversion Ht as [|x l Hnd _]; subst.
  rewrite fold_left_app, rev_app_distr. cbn [fold_left rev app first_some].
  rewrite (dict_update_get k t _ Hnd).
  destruct (dict_get k t); [reflexivity | now apply IH].
Qed.

Lemma merge_from_NoDup {V : Type} (tables : list (dict V)) (d : dict V) :
  NoDup (map fst d) -> NoDup (map fst (fold_left dict_update tables d)).
Proof.
  revert d. induction tables as [|t tables IH]; intros d H; [exact H|].
  cbn [fold_left]. apply IH. now apply dict_update_NoDup.
Qed.

Lemma full_class_name_inj (package_name a b : str) :
  full_class_name package_name a = full_class_name package_name b -> a = b.
Proof.
  unfold full_class_name.
  destruct (truthy package_name
            && negb (str_eqb package_name (lit "None"))); [|auto].
  intros H. apply app_inv_head in H. now apply app_inv_head in H.
Qed.

(** What one class node adds to the table. *)
Lemma add_class_cases (source_code package_name : str) (d : hierarchy)
    (class_node : node) :
  (HierarchyScanner.add_class source_code package_name d class_node = d
   /\ forall name, HierarchyScanner._get_class_name class_node = Some name ->
                   truthy name = false)
  \/ exists name,
       HierarchyScanner._get_class_name class_node = Some name
       /\ truthy name = true
       /\ HierarchyScanner.add_class source_code package_name d class_node
          = dict_set (full_class_name package_name name)
              (ClassInfo (_get_parent_class class_node source_code)
                 (HierarchyScanner._get_public_method_names class_node
                                                            source_code)
                 name)
              d.
Proof.
  unfold HierarchyScanner.add_class.
  destruct (HierarchyScanner._get_class_name class_node) as [name|].
  - destruct (truthy name) eqn:E; cbn [negb].
    + right. exists name. auto.
    + left. split; [reflexivity|]. intros n Hn. injection Hn as <-.
      exact E.
  - left. split; [reflexivity|]. discriminate.
Qed.

Lemma add_classes_NoDup (source_code package_name : str)
    (l : list node) (d : hierarchy) :
  NoDup (map fst d) ->
  NoDup (map fst (fold_left (HierarchyScanner.add_class source_code
                                                        package_name) l d)).
Proof.
  revert d. induction l as [|c l IH]; intros d H; [exact H|].
  cbn [fold_left]. apply IH.
  destruct (add_class_cases source_code package_name d c)
    as [[-> _] | [name [_ [_ ->]]]]; [exact H|].
  now apply dict_set_NoDup.
Qed.

Lemma class_info_of_tree_NoDup (source_code : str) (root_node : node) :
  NoDup (map fst (HierarchyScanner.class_info_of_tree source_code
                                                       root_node)).
Proof.
  unfold HierarchyScanner.class_info_of_tree.
  apply add_classes_NoDup. constructor.
Qed.

Lemma class_infos_read_NoDup (ts_parse : str -> result node) (d : FS.fs)
    (java_files : list str) :
  Forall (fun t : hierarchy => NoDup (map fst t))
         (class_infos_read ts_parse d java_files).
Proof.
  unfold class_infos_read. apply Forall_forall. intros t Ht.
  apply in_flat_map in Ht. destruct Ht as [f [_ Ht]].
  unfold _extract_class_info in Ht.
  destruct (FS.read_text f d) as [src|e]; [|destruct Ht].
  cbn [bind] in Ht. destruct (ts_parse src) as [root|e]; [|destruct Ht].
  cbn [bind] in Ht. destruct Ht as [<- | []].
  apply class_info_of_tree_NoDup.
Qed.

Lemma first_some_found {A B : Type} (f : A -> option B) (l : list A)
    (a : A) (b : B) :
  In a l -> f a = Some b -> exists b', first_some f l = Some b'.
Proof.
  induction l as [|x l IH]; intros Hin Hf; [destruct Hin|].
  cbn [first_some]. destruct (f x) as [bx|] eqn:E; [now exists bx|].
  destruct Hin as [-> | Hin]; [congruence | now apply IH].
Qed.

Lemma first_some_not_found {A B : Type} (f : A -> option B) (l : list A) :
  first_some f l = None -> forall a, In a l -> f a = None.
Proof.
  induction l as [|x l IH]; intros H a Hin; [destruct Hin|].
  cbn [first_some] in H. destruct (f x) eqn:E; [discriminate|].
  destruct Hin as [<- | Hin]; [exact E | now apply IH].
Qed.

(** The step of the recursion, read off the unfolded function. *)
Lemma inherited_methods_step (depth : nat) (hm : hierarchy) (p g : str) :
  grandparent_of hm p = Some g ->
  JavaCodeParser._get_inherited_methods (S depth) hm p
  = (grandparent_methods <-
       JavaCodeParser._get_inherited_methods depth hm g ;;
     Ok (match JavaCodeParser.lookup_parent hm p with
         | Some parent_info => methods parent_info
         | None => []
         end ++ grandparent_methods)).
Proof.
  unfold grandparent_of. intros H.
  rewrite ContextFacts.inherited_methods_unfold.
  destruct (JavaCodeParser.lookup_parent hm p) as [info|]; [|discriminate].
  destruct (parent info) as [g'|]; [|discriminate].
  cbn [JavaCodeParser.opt_truthy].
  destruct (truthy g'); [|discriminate].
  injection H as ->. reflexivity.
Qed.

Lemma inherited_methods_on_cycle (hm : hierarchy) (names : list str) :
  closed_cycle hm names = true ->
  forall depth p, In p names ->
    JavaCodeParser._get_inherited_methods depth hm p = Raise RecursionError.
Proof.
  intros Hc. unfold closed_cycle in Hc. rewrite forallb_forall in Hc.
  induction depth as [|depth IH]; intros p Hp; [reflexivity|].
  specialize (Hc p Hp).
  destruct (grandparent_of hm p) as [g|] eqn:Hg; [|discriminate].
  apply DependencyFacts.mem_In in Hc.
  rewrite (inherited_methods_step depth hm p g Hg).
  now rewrite (IH g Hc).
Qed.

End MapFacts.

(** X7: every entry the scanner records for a file comes from a class
    declaration of the tree: its simple name is the non-empty name of the
    declaration, its key the name qualified by the package, its parent and
    methods those read from the declaration.  Every class declaration with
    a non-empty name has an entry under its qualified name, and no key is
    recorded twice. *)
Theorem class_info_entries_are_the_declared_classes :
  forall (source_code : str) (root_node : node),
    let package_name :=
      HierarchyScanner._extract_package_name root_node source_code in
    let class_info :=
      HierarchyScanner.class_info_of_tree source_code root_node in
    (forall k info,
        In (k, info) class_info ->
        exists class_node,
          In class_node (_find_nodes_by_type root_node "class_declaration")
          /\ HierarchyScanner._get_class_name class_node
             = Some (simple_name info)
          /\ truthy (simple_name info) = true
          /\ k = full_class_name package_name (simple_name info)
          /\ parent info = _get_parent_class class_node source_code
          /\ methods info
             = HierarchyScanner._get_public_method_names class_node
                                                         source_code)
    /\ (forall class_node name,
           In class_node
              (_find_nodes_by_type root_node "class_declaration") ->
           HierarchyScanner._get_class_name class_node = Some name ->
           truthy name = true ->
           exists info,
             dict_get (full_class_name package_name name) class_info
             = Some info
             /\ simple_name info = name)
    /\ NoDup (map fst class_info).
Proof.
  intros src root pkg table. subst table.
  unfold HierarchyScanner.class_info_of_tree. fold pkg.
  set (nodes := _find_nodes_by_type root "class_declaration").
  split; [|split].
  - assert (G : forall l d k info,
               In (k, info)
                  (fold_left (HierarchyScanner.add_class src pkg) l d) ->
               In (k, info) d
               \/ exists c,
                    In c l
                    /\ HierarchyScanner._get_class_name c
                       = Some (simple_name info)
                    /\ truthy (simple_name info) = true
                    /\ k = full_class_name pkg (simple_name info)
                    /\ parent info = _get_parent_class c src
                    /\ methods info
                       = HierarchyScanner._get_public_method_names c src).
    { induction l as [|c l IH]; intros d k info Hin; [now left|].
      cbn [fold_left] in Hin. destruct (IH _ _ _ Hin) as [Hd | [c' [Hc' H]]].
      - destruct (MapFacts.add_class_cases src pkg d c)
          as [[E _] | [name [Hn [Ht E]]]]; rewrite E in Hd.
        + now left.
        + apply MapFacts.in_dict_set in Hd.
          destruct Hd as [[-> ->] | Hd]; [|now left].
          right. exists c. cbn [simple_name parent methods].
          split; [now left|]. auto.
      - right. exists c'. split; [now right | exact H]. }
    intros k info Hin. destruct (G nodes [] k info Hin) as [[] | H].
    exact H.
  - assert (G : forall l d c name,
               In c l ->
               HierarchyScanner._get_class_name c = Some name ->
               truthy name = true ->
               exists info,
                 dict_get (full_class_name pkg name)
                   (fold_left (HierarchyScanner.add_class src pkg) l d)
                 = Some info
                 /\ simple_name info = name).
    { induction l as [|x l IH] using rev_ind; intros d c name Hin Hn Ht;
        [destruct Hin|].
      rewrite fold_left_app. cbn [fold_left].
      set (d' := fold_left (HierarchyScanner.add_class src pkg) l d).
      apply in_app_or in Hin. destruct Hin as [Hin | [<- | []]].
      - destruct (IH d c name Hin Hn Ht) as [info [Hg Hs]]. fold d' in Hg.
        destruct (MapFacts.add_class_cases src pkg d' x)
          as [[E _] | [name' [Hn' [Ht' E]]]]; rewrite E.
        + now exists info.
        + destruct (JavaCodeParser.str_eq_dec (full_class_name pkg name')
                               (full_class_name pkg name)) as [Heq | Hne].
          * rewrite Heq, dict_get_set_same. eexists. split; [reflexivity|].
            cbn [simple_name]. now apply (MapFacts.full_class_name_inj pkg).
          * rewrite dict_get_set_other by (intros H; now apply Hne).
            now exists info.
      - destruct (MapFacts.add_class_cases src pkg d' x)
          as [[_ E] | [name' [Hn' [_ E]]]].
        + rewrite (E name Hn) in Ht. discriminate Ht.
        + rewrite E. assert (name' = name) by congruence. subst name'.
          rewrite dict_get_set_same. eexists. split; reflexivity. }
    intros c name Hin Hn Ht. exact (G nodes [] c name Hin Hn Ht).
  - apply MapFacts.add_classes_NoDup. constructor.
Qed.

Lemma class_info_entries_are_the_declared_classes_witness :
  exists info,
    dict_get (lit "com.geo.Shape")
      (HierarchyScanner.class_info_of_tree MoreSamples.shape_src
                                           MoreSamples.shape_tree)
    = Some info
    /\ simple_name info = lit "Shape".
Proof.
  destruct (class_info_entries_are_the_declared_classes
              MoreSamples.shape_src MoreSamples.shape_tree)
    as [_ [Hall _]].
  apply (Hall (nth 1 (children MoreSamples.shape_tree)
                   MoreSamples.shape_tree) (lit "Shape")).
  - vm_compute. left. reflexivity.
  - vm_compute. reflexivity.
  - reflexivity.
Defined.

(** X8: the project map has one entry per key, and the entry of a key is
    the one of the last file, in the order of the scan, that was read and
    parsed without an exception and declares a class of that key. *)
Theorem project_map_keeps_the_last_declaration :
  forall (ts_parse : str -> result node) (d : FS.fs)
         (java_files : list str) (k : str),
    NoDup (map fst (scan_files ts_parse d java_files))
    /\ dict_get k (scan_files ts_parse d java_files)
       = first_some (dict_get k)
           (rev (class_infos_read ts_parse d java_files)).
Proof.
  intros ts_parse d files k. rewrite scan_files_merge. unfold merge.
  split.
  - apply MapFacts.merge_from_NoDup. constructor.
  - rewrite (MapFacts.merge_from_get k _ []
               (MapFacts.class_infos_read_NoDup ts_parse d files)).
    match goal with
    | |- match ?x with _ => _ end = ?y => change y with x; destruct x
    end; reflexivity.
Qed.

(** X9: the lookup of a parent name succeeds for the simple name of every
    recorded class; what it returns is an entry of the map whose key is the
    name, whose simple name is the name, or whose key ends in a dot
    followed by the name, the entry under the exact key if there is one;
    it fails only when the map has no such entry. *)
Theorem lookup_parent_finds_recorded_names :
  forall (hierarchy_map : hierarchy) (p : str),
    (forall k info,
        In (k, info) hierarchy_map ->
        exists found,
          JavaCodeParser.lookup_parent hierarchy_map (simple_name info)
          = Some found)
    /\ (forall info,
           dict_get p hierarchy_map = Some info ->
           JavaCodeParser.lookup_parent hierarchy_map p = Some info)
    /\ (forall found,
           JavaCodeParser.lookup_parent hierarchy_map p = Some found ->
           exists k,
             In (k, found) hierarchy_map
             /\ (k = p \/ simple_name found = p
                 \/ endswith (lit "." ++ p) k = true))
    /\ (JavaCodeParser.lookup_parent hierarchy_map p = None ->
        forall k info,
          In (k, info) hierarchy_map ->
          k <> p /\ simple_name info <> p
          /\ endswith (lit "." ++ p) k = false).
Proof.
  intros hm p. unfold JavaCodeParser.lookup_parent.
  split; [|split; [|split]].
  - intros k info Hin.
    destruct (dict_get (simple_name info) hm) as [i|]; [now exists i|].
    apply (MapFacts.first_some_found _ hm (k, info) info Hin).
    cbn beta iota. now rewrite str_eqb_refl.
  - intros info H. now rewrite H.
  - intros found H. destruct (dict_get p hm) as [i|] eqn:E.
    + injection H as <-. exists p. split; [|now left].
      now apply MapFacts.dict_get_entry.
    + apply ReturnFacts.first_some_elim in H.
      destruct H as [[k i] [Hin H]]. cbn beta iota in H.
      destruct (str_eqb (simple_name i) p) eqn:Es;
        destruct (endswith (lit "." ++ p) k) eqn:Ee;
        cbn [orb] in H; try discriminate; injection H as <-;
        exists k; split; try assumption.
      * right. left. now apply str_eqb_eq.
      * right. left. now apply str_eqb_eq.
      * right. now right.
  - intros H k info Hin. destruct (dict_get p hm) as [i|] eqn:E;
      [discriminate|].
    pose proof (MapFacts.first_some_not_found _ hm H (k, info) Hin) as Hf.
    cbn beta iota in Hf.
    destruct (str_eqb (simple_name info) p) eqn:Es;
      destruct (endswith (lit "." ++ p) k) eqn:Ee;
      cbn [orb] in Hf; try discriminate.
    split; [|split; [now apply str_eqb_neq | reflexivity]].
    intros ->. destruct (in_split _ _ Hin) as [l1 [l2 Hs]].
    assert (Hk : In p (map fst hm)).
    { apply in_map_iff. now exists (p, info). }
    clear - E Hk. induction hm as [|[k' v'] hm IH]; [destruct Hk|].
    cbn [dict_get] in E. destruct (str_eqb p k') eqn:E'; [discriminate|].
    destruct Hk as [Hk | Hk]; [|now apply IH].
    cbn [fst] in Hk. subst k'. rewrite str_eqb_refl in E'. discriminate E'.
Qed.

Lemma lookup_parent_finds_recorded_names_witness :
  exists found,
    JavaCodeParser.lookup_parent
      (HierarchyScanner.class_info_of_tree MoreSamples.shape_src
                                           MoreSamples.shape_tree)
      (lit "Shape")
    = Some found.
Proof.
  destruct (lookup_parent_finds_recorded_names
              (HierarchyScanner.class_info_of_tree MoreSamples.shape_src
                                                   MoreSamples.shape_tree)
              (lit "Shape")) as [Hall _].
  apply (Hall (lit "com.geo.Shape")
              (ClassInfo None [lit "area"] (lit "Shape"))).
  vm_compute. left. reflexivity.
Defined.

(** X10: the recursion over the ancestors has no guard against a cycle:
    when the recorded parents lead from a name back into a set of names
    that is closed under the step to the recorded parent, the search for
    the inherited methods exhausts every recursion depth, the class
    context of a class extending such a name is not built, and
    [parse_file] returns for no file that declares such a class. *)
Theorem cyclic_parents_exhaust_the_recursion :
  forall (hierarchy_map : hierarchy) (names : list str) (p : str)
         (depth : nat),
    closed_cycle hierarchy_map names = true ->
    In p names ->
    truthy p = true ->
    JavaCodeParser._get_inherited_methods depth hierarchy_map p
    = Raise RecursionError
    /\ (forall package_name class_name fields,
           JavaCodeParser._format_class_context depth hierarchy_map
             package_name class_name fields (Some p)
           = Raise RecursionError)
    /\ (forall source_code root_node class_node chunks,
           In class_node
              (_find_nodes_by_type root_node "class_declaration") ->
           _get_parent_class class_node source_code = Some p ->
           JavaCodeParser.parse_tree depth hierarchy_map source_code
                                     root_node
           <> Ok chunks).
Proof.
  intros hm names p depth Hc Hp Ht.
  pose proof (MapFacts.inherited_methods_on_cycle hm names Hc depth p Hp)
    as Hraise.
  assert (Hctx : forall package_name class_name fields,
             JavaCodeParser._format_class_context depth hm package_name
               class_name fields (Some p) = Raise RecursionError).
  { intros pkg cls fields. unfold JavaCodeParser._format_class_context.
    now rewrite Ht, Hraise. }
  split; [exact Hraise|]. split; [exact Hctx|].
  intros src root c chunks Hin Hparent Hparse.
  unfold JavaCodeParser.parse_tree in Hparse.
  apply ParseFacts.bind_ok in Hparse. destruct Hparse as [pc [Hpc _]].
  destruct (ParseFacts.mapM_ok_in _ _ _ c Hpc Hin) as [r [Hr _]].
  unfold JavaCodeParser.class_chunks in Hr.
  apply ParseFacts.bind_ok in Hr. destruct Hr as [ctx [Hctx' _]].
  unfold JavaCodeParser.context_of_class in Hctx'.
  rewrite Hparent, Hctx in Hctx'. discriminate Hctx'.
Qed.

Lemma cyclic_parents_exhaust_the_recursion_witness :
  JavaCodeParser._get_inherited_methods Samples.depth
    [ (lit "A", ClassInfo (Some (lit "B")) [lit "f"] (lit "A"));
      (lit "B", ClassInfo (Some (lit "A")) [lit "g"] (lit "B")) ]
    (lit "A")
  = Raise RecursionError.
Proof.
  apply (cyclic_parents_exhaust_the_recursion
           [ (lit "A", ClassInfo (Some (lit "B")) [lit "f"] (lit "A"));
             (lit "B", ClassInfo (Some (lit "A")) [lit "g"] (lit "B")) ]
           [lit "A"; lit "B"] (lit "A") Samples.depth).
  - vm_compute. reflexivity.
  - left. reflexivity.
  - reflexivity.
Defined.

(* ------------------------------------------------------------------ *)
(** ** Scanning a project again *)

Module RescanFacts.

Lemma dict_set_idem {V : Type} (k : str) (v : V) (d : dict V) :
  dict_set k v (dict_set k v d) = dict_set k v d.
Proof.
  induction d as [|[k' v'] d IH]; cbn [dict_set].
  - now rewrite str_eqb_refl.
  - destruct (str_eqb k k') eqn:E; cbn [dict_set].
    + now rewrite str_eqb_refl.
    + now rewrite E, IH.
Qed.

(** Assigning a key that a test on keys rejects changes nothing among the
    keys that pass it. *)
Lemma dict_set_filter_keys {V : Type} (P : str -> bool) (k : str) (v : V)
    (d : dict V) :
  P k = false ->
  map fst (filter (fun e : str * V => P (fst e)) (dict_set k v d))
  = map fst (filter (fun e : str * V => P (fst e)) d).
Proof.
  intros H. induction d as [|[k' v'] d IH]; cbn [dict_set filter fst].
  - now rewrite H.
  - destruct (str_eqb k k') eqn:E; cbn [filter fst].
    + apply str_eqb_eq in E. subst k'. now rewrite H.
    + destruct (P k'); cbn [map fst]; now rewrite IH.
Qed.

Lemma read_text_other (p f : str) (e : FS.entry) (d : FS.fs) :
  f <> p -> FS.read_text f (dict_set p e d) = FS.read_text f d.
Proof.
  intros H. unfold FS.read_text. now rewrite dict_get_set_other.
Qed.

Lemma rglob_java_ends (root f : str) (d : FS.fs) :
  In f (FS.rglob_java root d) -> endswith (lit ".java") f = true.
Proof.
  unfold FS.rglob_java. intros H. apply in_map_iff in H.
  destruct H as [[k e] [<- H]]. apply filter_In in H.
  destruct H as [_ H]. apply andb_prop in H. exact (proj2 H).
Qed.

Lemma scan_files_agree (ts_parse : str -> result node) (d1 d2 : FS.fs)
    (java_files : list str) :
  (forall f, In f java_files ->
             _extract_class_info ts_parse d1 f
             = _extract_class_info ts_parse d2 f) ->
  scan_files ts_parse d1 java_files = scan_files ts_parse d2 java_files.
Proof.
  unfold scan_files. generalize (@nil (str * class_info)).
  induction java_files as [|f l IH]; intros acc H; [reflexivity|].
  cbn [fold_left]. unfold scan_file at 2 4.
  rewrite (H f (or_introl eq_refl)). apply IH.
  intros g Hg. apply H. now right.
Qed.

Lemma from_separator_length (r : str) :
  (length (FS.from_separator r) <= length r)%nat.
Proof.
  induction r as [|c r IH]; cbn [FS.from_separator length]; [lia|].
  destruct (c =? 47); cbn [length]; lia.
Qed.

(** The directory of a path is another path. *)
Lemma parent_dir_other (p : str) :
  FS.parent_dir p = [] \/ FS.parent_dir p <> p.
Proof.
  unfold FS.parent_dir.
  pose proof (from_separator_length (rev p)) as H.
  destruct (FS.from_separator (rev p)) as [|c t]; [now left|].
  right. intros E. apply (f_equal (@length Z)) in E.
  rewrite length_rev in E. cbn [tl length] in *.
  rewrite length_rev in H. lia.
Qed.

(** Writing the same text again changes nothing. *)
Lemma write_text_again (p c : str) (d d' : FS.fs) :
  FS.write_text p c d = Ok d' -> FS.write_text p c d' = Ok d'.
Proof.
  intros H. pose proof (write_text_frame _ _ _ _ H) as [Hd [Hget Hother]].
  unfold FS.write_text in *.
  assert (Hw : match dict_get p d' with
               | Some FS.Dir => Raise OSError
               | _ => Ok (dict_set p (FS.File c) d')
               end = Ok d').
  { rewrite Hget. f_equal. rewrite Hd. apply dict_set_idem. }
  destruct (parent_dir_other p) as [E | Hne].
  - rewrite E. exact Hw.
  - destruct (FS.parent_dir p) as [|x q]; [exact Hw|].
    rewrite (Hother (x :: q) Hne).
    destruct (dict_get (x :: q) d) as [[|c0]|];
      [exact Hw | discriminate H | discriminate H].
Qed.

End RescanFacts.

(** X11: scanning a project a second time gives the same map and leaves
    the file system as the first scan left it, provided the name of the
    output file does not end in [.java]: the file written by the first
    scan is not taken for a source. *)
Theorem build_project_map_again_changes_nothing :
  forall (ts_parse : str -> result node) (json_dump : hierarchy -> str)
         (d d' : FS.fs) (root_path output_file : str)
         (hierarchy_map : hierarchy),
    build_project_map ts_parse json_dump d root_path output_file
    = (Ok hierarchy_map, d') ->
    endswith (lit ".java") (FS.joinpath root_path output_file) = false ->
    build_project_map ts_parse json_dump d' root_path output_file
    = (Ok hierarchy_map, d').
Proof.
  intros ts_parse json_dump d d' root out hm H Hout.
  unfold build_project_map in *.
  destruct (FS.exists_ root d) eqn:Hex; cbn [negb] in H;
    [|injection H as H _; discriminate H].
  set (p := FS.joinpath root out) in *.
  set (files := FS.rglob_java root d) in *.
  destruct (FS.write_text p (json_dump (scan_files ts_parse d files)) d)
    as [d1|e] eqn:Hw; [|injection H as H _; discriminate H].
  injection H as Hhm Hd. subst d1 hm.
  destruct (write_text_frame _ _ _ _ Hw) as [Hd' [Hget Hother]].
  assert (Hex' : FS.exists_ root d' = true).
  { unfold FS.exists_ in *.
    destruct (JavaCodeParser.str_eq_dec root p) as [Heq | Hne].
    - now rewrite Heq, Hget.
    - now rewrite (Hother root Hne). }
  rewrite Hex'. cbn [negb].
  assert (Hfiles : FS.rglob_java root d' = files).
  { subst files. unfold FS.rglob_java. rewrite Hd'.
    apply (RescanFacts.dict_set_filter_keys
             (fun k => startswith (root ++ lit "/") k
                       && endswith (lit ".java") k)).
    rewrite Hout. apply andb_false_r. }
  rewrite Hfiles.
  assert (Hscan : scan_files ts_parse d' files
                  = scan_files ts_parse d files).
  { apply RescanFacts.scan_files_agree. intros f Hf.
    unfold _extract_class_info. rewrite Hd'.
    rewrite RescanFacts.read_text_other; [reflexivity|].
    intros ->. apply RescanFacts.rglob_java_ends in Hf.
    rewrite Hf in Hout. discriminate Hout. }
  rewrite Hscan.
  now rewrite (RescanFacts.write_text_again _ _ _ _ Hw).
Qed.

Lemma build_project_map_again_changes_nothing_witness :
  let first := build_project_map Samples.ts_parse Samples.json_dump
                 Samples.project (lit "/proj")
                 (lit "project_hierarchy.json") in
  build_project_map Samples.ts_parse Samples.json_dump (snd first)
                    (lit "/proj") (lit "project_hierarchy.json")
  = first.
Proof.
  cbv zeta.
  destruct (build_project_map Samples.ts_parse Samples.json_dump
              Samples.project (lit "/proj") (lit "project_hierarchy.json"))
    as [[hm|e] d'] eqn:H; [|vm_compute in H; discriminate H].
  cbn [snd].
  apply (build_project_map_again_changes_nothing
           Samples.ts_parse Samples.json_dump Samples.project d'
           (lit "/proj") (lit "project_hierarchy.json") hm H).
  vm_compute. reflexivity.
Defined.

(* ------------------------------------------------------------------ *)
(** ** The counters and the error log of Pass 2 *)

Section LedgerFacts.

Variable parse_file : str -> result (list chunk).
Variables E S : Type.
Variable enrich_batch : E -> list chunk -> result (list chunk) * E.
Variable add_batch : S -> list chunk -> result unit * S.
Variable batch_size : Z.

Local Abbreviation moves := (delta enrich_batch add_batch).

Lemma indexed_app (a b : list call) :
  indexed (a ++ b) = indexed a + indexed b.
Proof.
  induction a as [|c a IH]; [reflexivity|].
  cbn [app indexed fold_right]. fold (indexed (a ++ b)). fold (indexed a).
  rewrite IH. destruct c as [? ?|? [?|?]]; lia.
Qed.

Lemma chunk_errors_app (a b : list call) :
  chunk_errors (a ++ b) = chunk_errors a ++ chunk_errors b.
Proof. apply flat_map_app. Qed.

Lemma file_errors_app (a b : list str) :
  file_errors parse_file (a ++ b)
  = file_errors parse_file a ++ file_errors parse_file b.
Proof. apply flat_map_app. Qed.

Lemma file_errors_count (l : list str) :
  length (file_errors parse_file l)
  = length (filter (fun f => negb (parses parse_file f)) l).
Proof.
  induction l as [|f l IH]; [reflexivity|].
  cbn [file_errors flat_map filter]. fold (file_errors parse_file l).
  unfold parses at 1. destruct (parse_file f); cbn [negb app length];
    now rewrite IH.
Qed.

Lemma log_chunks_log (l : list chunk) (e : exn) (w : world E S) :
  error_log (log_chunks l e w)
  = error_log w ++ map (fun ch => (chunk_path ch, e)) l.
Proof.
  unfold log_chunks. revert w.
  induction l as [|c l IH]; intros w; cbn [fold_left map].
  - now rewrite app_nil_r.
  - rewrite IH. cbn [log_error error_log]. now rewrite <- app_assoc.
Qed.

Lemma moves_refl (w : world E S) : moves w w [].
Proof.
  exists []. cbn. rewrite !app_nil_r. repeat split; auto.
  lia.
Qed.

Lemma moves_trans (w1 w2 w3 : world E S) (fe1 fe2 : list (str * exn)) :
  moves w1 w2 fe1 -> moves w2 w3 fe2 -> moves w1 w3 (fe1 ++ fe2).
Proof.
  intros [n1 [Hc1 [Hi1 [Hp1 Hm1]]]] [n2 [Hc2 [Hi2 [Hp2 Hm2]]]].
  exists (n1 ++ n2). rewrite Hc2, Hc1, Hi2, Hi1, indexed_app,
                             chunk_errors_app, <- app_assoc.
  split; [reflexivity|]. split; [lia|].
  split; [|now apply Forall_app].
  eapply perm_trans; [exact Hp2|].
  eapply perm_trans; [apply Permutation_app_tail; exact Hp1|].
  rewrite <- !app_assoc. apply Permutation_app_head.
  apply Permutation_app_head. rewrite !app_assoc.
  apply Permutation_app_tail. apply Permutation_app_comm.
Qed.

Lemma moves_stats (f : stats -> stats) (w : world E S) :
  (forall st, chunks_indexed (f st) = chunks_indexed st) ->
  moves w (with_stats f w) [].
Proof.
  intros H. exists []. cbn. rewrite !app_nil_r, H.
  repeat split; auto. lia.
Qed.

Lemma moves_log_error (f : str) (e : exn) (w : world E S) :
  moves w (log_error f e w) [(f, e)].
Proof.
  exists []. cbn. rewrite !app_nil_r. repeat split; auto. lia.
Qed.

Lemma moves_flush (b : list chunk) (w : world E S) :
  moves w (snd (flush_buffer enrich_batch b w)) [].
Proof.
  unfold flush_buffer. destruct b as [|c b]; [apply moves_refl|].
  destruct (enrich_batch (enricher w) (c :: b)) as [o e'] eqn:Hcall.
  assert (Hmade : call_made enrich_batch add_batch (Enrich (c :: b) o)).
  { split; [discriminate|]. exists (enricher w). now rewrite Hcall. }
  destruct o as [r|e]; cbn [snd].
  - exists [Enrich (c :: b) (Ok r)]. cbn. rewrite !app_nil_r.
    repeat split; auto. lia.
  - exists [Enrich (c :: b) (Raise e)].
    destruct (log_chunks_frame E S (c :: b) e
                (World (w_stats w) (error_log w) e' (vector_store w)
                       (calls w ++ [Enrich (c :: b) (Raise e)])))
      as [H1 [_ [_ H4]]].
    rewrite H1, H4, log_chunks_log.
    cbn [w_stats calls error_log chunk_errors flat_map indexed fold_right
         app].
    rewrite !app_nil_r. repeat split; auto; try lia.
Qed.

Lemma moves_write (l : list chunk) (w : world E S) :
  moves w (_write_to_db_sequential add_batch l w) [].
Proof.
  unfold _write_to_db_sequential. destruct l as [|c l]; [apply moves_refl|].
  destruct (add_batch (vector_store w) (c :: l)) as [o s'] eqn:Hcall.
  assert (Hmade : call_made enrich_batch add_batch (Write (c :: l) o)).
  { split; [discriminate|]. exists (vector_store w). now rewrite Hcall. }
  destruct o as [u|e].
  - exists [Write (c :: l) (Ok u)].
    cbn [w_stats calls error_log chunks_indexed chunk_errors flat_map
         indexed fold_right app].
    rewrite !app_nil_r. repeat split; auto; try lia.
  - exists [Write (c :: l) (Raise e)].
    destruct (log_chunks_frame E S (c :: l) e
                (World (w_stats w) (error_log w) (enricher w) s'
                       (calls w ++ [Write (c :: l) (Raise e)])))
      as [H1 [_ [_ H4]]].
    rewrite H1, H4, log_chunks_log.
    cbn [w_stats calls error_log chunk_errors flat_map indexed fold_right
         app].
    rewrite !app_nil_r. repeat split; auto; try lia.
Qed.

(** One iteration of the loop. *)
Lemma moves_process_file (ls : loop_state E S) (f : str) :
  moves (the_world ls)
        (the_world (process_file parse_file enrich_batch add_batch
                                 batch_size ls f))
        (file_errors parse_file [f]).
Proof.
  unfold process_file, file_errors. cbn [flat_map]. rewrite app_nil_r.
  destruct (parse_file f) as [chunks|e].
  - set (buf := buffer ls ++ tag_chunks f chunks).
    set (w1 := with_stats _ (the_world ls)).
    assert (H1 : moves (the_world ls) w1 []).
    { apply moves_stats. reflexivity. }
    destruct (Z.of_nat (length buf) >=? batch_size);
      [|exact H1].
    pose proof (moves_flush buf w1) as H2.
    destruct (flush_buffer enrich_batch buf w1) as [enriched w2].
    cbn [snd] in H2.
    pose proof (moves_trans _ _ _ _ _ H1 H2) as H12.
    destruct (Z.of_nat (length (all_enriched_chunks ls ++ enriched))
              >=? batch_size * 5); [|exact H12].
    cbn [the_world].
    exact (moves_trans _ _ _ _ _ H12
             (moves_write (all_enriched_chunks ls ++ enriched) w2)).
  - cbn [the_world].
    apply (moves_trans _ _ _ [(f, e)] [] (moves_log_error f e _)).
    apply moves_stats. reflexivity.
Qed.

Lemma moves_iterate (files : list str) (ls : loop_state E S) :
  moves (the_world ls)
        (the_world
           (fold_left (process_file parse_file enrich_batch add_batch
                                    batch_size) files ls))
        (file_errors parse_file files).
Proof.
  revert ls. induction files as [|f files IH]; intros ls;
    [apply moves_refl|].
  cbn [fold_left].
  change (f :: files) with ([f] ++ files). rewrite file_errors_app.
  exact (moves_trans _ _ _ _ _ (moves_process_file ls f) (IH _)).
Qed.

Lemma moves_drain (ls : loop_state E S) :
  moves (the_world ls) (drain enrich_batch add_batch ls) [].
Proof.
  unfold drain.
  assert (H1 : moves (the_world ls)
                 (snd match buffer ls with
                      | [] => ([], the_world ls)
                      | _ => flush_buffer enrich_batch (buffer ls)
                                          (the_world ls)
                      end) []).
  { destruct (buffer ls) as [|c b] eqn:Hb; [apply moves_refl|].
    apply moves_flush. }
  destruct (match buffer ls with
            | [] => ([], the_world ls)
            | _ => flush_buffer enrich_batch (buffer ls) (the_world ls)
            end) as [enriched w1].
  cbn [snd] in H1.
  destruct (all_enriched_chunks ls ++ enriched) as [|c l] eqn:Ha;
    [exact H1|].
  exact (moves_trans _ _ _ _ _ H1 (moves_write (c :: l) w1)).
Qed.

Lemma moves_phase2 (files : list str) (w : world E S) :
  moves w
        (phase2_ingestion_loop parse_file enrich_batch add_batch batch_size
                               files w)
        (file_errors parse_file files).
Proof.
  unfold phase2_ingestion_loop, run_loop.
  assert (H0 : moves w (the_world (loop_start files w)) []).
  { unfold loop_start. cbn [the_world]. apply moves_stats. reflexivity. }
  pose proof (moves_iterate files (loop_start files w)) as H1.
  pose proof (moves_drain
                (fold_left (process_file parse_file enrich_batch add_batch
                                         batch_size) files
                           (loop_start files w))) as H2.
  pose proof (moves_trans _ _ _ _ _ (moves_trans _ _ _ _ _ H0 H1) H2) as H.
  cbn [app] in H. now rewrite app_nil_r in H.
Qed.

(** The two readings of the calls agree on what was appended. *)
Lemma calls_suffix_unique (w w' : world E S) (a b : list call) :
  calls w' = calls w ++ a -> calls w' = calls w ++ b -> a = b.
Proof.
  intros Ha Hb. rewrite Ha in Hb. now apply app_inv_head in Hb.
Qed.

Lemma in_parsed_chunks (files : list str) (ch : chunk) :
  In ch (parsed_chunks parse_file files) ->
  exists f chunks c0,
    In f files /\ parse_file f = Ok chunks /\ In c0 chunks
    /\ ch = set_file_path c0 f.
Proof.
  unfold parsed_chunks. intros H. apply in_flat_map in H.
  destruct H as [f [Hf H]].
  destruct (parse_file f) as [chunks|e] eqn:Hp; [|destruct H].
  unfold tag_chunks in H. apply in_map_iff in H.
  destruct H as [c0 [<- Hc0]]. exists f, chunks, c0. auto.
Qed.

Lemma in_enrich_inputs (new : list call) (b : list chunk)
    (o : result (list chunk)) :
  In (Enrich b o) new -> In b (enrich_inputs new).
Proof.
  intros H. unfold enrich_inputs. apply in_flat_map.
  exists (Enrich b o). split; [exact H | now left].
Qed.

End LedgerFacts.

(** X12: the chunk counter after Pass 2 is the counter before it plus the
    sizes of the batches the store accepted; the error log has gained, in
    some order, one line for every file that did not parse and one line
    for every chunk of every batch the enricher or the store refused, and
    nothing else; the lines for files are as many as the failures
    counted. *)
Theorem pass2_counts_and_logs_every_failure :
  forall (parse_file : str -> result (list chunk)) (E S : Type)
         (enrich_batch : E -> list chunk -> result (list chunk) * E)
         (add_batch : S -> list chunk -> result unit * S)
         (batch_size : Z) (java_files : list str) (w : world E S),
    let w' := phase2_ingestion_loop parse_file enrich_batch add_batch
                                    batch_size java_files w in
    exists new : list call,
      calls w' = calls w ++ new
      /\ chunks_indexed (w_stats w')
         = chunks_indexed (w_stats w) + indexed new
      /\ Permutation (error_log w')
           (error_log w ++ file_errors parse_file java_files
                       ++ chunk_errors new)
      /\ Z.of_nat (length (file_errors parse_file java_files))
         = files_failed (w_stats w') - files_failed (w_stats w).
Proof.
  intros parse_file E S enrich_batch add_batch batch_size files w w'.
  destruct (moves_phase2 parse_file E S enrich_batch add_batch batch_size
              files w) as [new [Hc [Hi [Hp _]]]].
  exists new. fold w' in Hc, Hi, Hp.
  split; [exact Hc|]. split; [exact Hi|]. split; [exact Hp|].
  destruct (drain_effect parse_file E S enrich_batch add_batch batch_size
              w (length files) files _
              (run_loop_invariant parse_file E S enrich_batch add_batch
                 batch_size files w))
    as [_ [_ [Hf _]]].
  fold (phase2_ingestion_loop parse_file enrich_batch add_batch batch_size
          files w) in Hf.
  fold w' in Hf. rewrite Hf, file_errors_count. lia.
Qed.

(** X13: Pass 2 never calls the enricher with an empty buffer nor the
    store with an empty batch, and every chunk it hands to the enricher is
    a chunk parsed from one of the files, with the path of that file as
    its [file_path]. *)
Theorem pass2_enriches_tagged_chunks :
  forall (parse_file : str -> result (list chunk)) (E S : Type)
         (enrich_batch : E -> list chunk -> result (list chunk) * E)
         (add_batch : S -> list chunk -> result unit * S)
         (batch_size : Z) (java_files : list str) (w : world E S),
    let w' := phase2_ingestion_loop parse_file enrich_batch add_batch
                                    batch_size java_files w in
    exists new : list call,
      calls w' = calls w ++ new
      /\ (forall b o, In (Write b o) new -> b <> [])
      /\ (forall b o,
             In (Enrich b o) new ->
             b <> []
             /\ forall ch,
                  In ch b ->
                  exists f chunks parsed,
                    In f java_files
                    /\ parse_file f = Ok chunks
                    /\ In parsed chunks
                    /\ ch = set_file_path parsed f
                    /\ file_path ch = Some f).
Proof.
  intros parse_file E S enrich_batch add_batch batch_size files w w'.
  destruct (moves_phase2 parse_file E S enrich_batch add_batch batch_size
              files w) as [new [Hc [_ [_ Hm]]]].
  fold w' in Hc.
  destruct (drain_effect parse_file E S enrich_batch add_batch batch_size
              w (length files) files _
              (run_loop_invariant parse_file E S enrich_batch add_batch
                 batch_size files w))
    as [[new' [Hc' [Hin _]]] _].
  fold (phase2_ingestion_loop parse_file enrich_batch add_batch batch_size
          files w) in Hc'.
  fold w' in Hc'.
  assert (new' = new) by exact (calls_suffix_unique E S w w' _ _ Hc' Hc).
  subst new'. exists new. split; [exact Hc|].
  rewrite Forall_forall in Hm. split.
  - intros b o Hb. exact (proj1 (Hm _ Hb)).
  - intros b o Hb. split; [exact (proj1 (Hm _ Hb))|].
    intros ch Hch.
    assert (Hp : In ch (parsed_chunks parse_file files)).
    { rewrite <- Hin. apply in_concat. exists b.
      split; [exact (in_enrich_inputs _ _ _ Hb) | exact Hch]. }
    destruct (in_parsed_chunks parse_file files ch Hp)
      as [f [chunks [c0 [Hf [Hpf [Hc0 ->]]]]]].
    exists f, chunks, c0. auto.
Qed.

(* ------------------------------------------------------------------ *)
(** ** A project below the flush size *)

Section SmallFacts.

Variable parse_file : str -> result (list chunk).
Variables E S : Type.
Variable enrich_batch : E -> list chunk -> result (list chunk) * E.
Variable add_batch : S -> list chunk -> result unit * S.
Variable batch_size : Z.

Local Abbreviation step :=
  (process_file parse_file enrich_batch add_batch batch_size).

(** While the parsed chunks stay below the flush size the loop only
    fills the buffer. *)
Lemma loop_below_flush_size (files : list str) (ls : loop_state E S) :
  Z.of_nat (length (buffer ls ++ parsed_chunks parse_file files))
  < batch_size ->
  let ls' := fold_left step files ls in
  buffer ls' = buffer ls ++ parsed_chunks parse_file files
  /\ all_enriched_chunks ls' = all_enriched_chunks ls
  /\ calls (the_world ls') = calls (the_world ls)
  /\ enricher (the_world ls') = enricher (the_world ls)
  /\ vector_store (the_world ls') = vector_store (the_world ls).
Proof.
  revert ls. induction files as [|f files IH]; intros ls H.
  - cbn. rewrite app_nil_r. auto.
  - cbn [fold_left]. unfold parsed_chunks in H |- *. cbn [flat_map] in H |- *.
    fold (parsed_chunks parse_file files) in H |- *.
    unfold process_file at 2 4 6 8 10.
    destruct (parse_file f) as [chunks|e].
    + rewrite app_assoc in H.
      assert (Hlt : (Z.of_nat (length (buffer ls ++ tag_chunks f chunks))
                     >=? batch_size) = false).
      { rewrite Z.geb_leb. apply Z.leb_gt.
        rewrite length_app in H. lia. }
      rewrite Hlt.
      match goal with
      | |- context [fold_left _ files ?l] =>
          destruct (IH l H) as [H1 [H2 [H3 [H4 H5]]]]
      end.
      cbn [buffer all_enriched_chunks the_world] in H1, H2, H3, H4, H5.
      rewrite H1, H2, H3, H4, H5, <- app_assoc. auto.
    + match goal with
      | |- context [fold_left _ files ?l] =>
          destruct (IH l H) as [H1 [H2 [H3 [H4 H5]]]]
      end.
      cbn [buffer all_enriched_chunks the_world] in H1, H2, H3, H4, H5.
      rewrite H1, H2, H3, H4, H5. auto.
Qed.

End SmallFacts.

(** X14: when the files yield fewer chunks than the flush size, nothing is
    flushed during the loop: the enricher is called once, after the loop,
    with all the parsed chunks, and the store is called at most once, with
    all the chunks the enricher returned; with no chunk at all neither is
    called. *)
Theorem small_project_is_enriched_in_one_call :
  forall (parse_file : str -> result (list chunk)) (E S : Type)
         (enrich_batch : E -> list chunk -> result (list chunk) * E)
         (add_batch : S -> list chunk -> result unit * S)
         (batch_size : Z) (java_files : list str) (w : world E S),
    Z.of_nat (length (parsed_chunks parse_file java_files)) < batch_size ->
    calls (phase2_ingestion_loop parse_file enrich_batch add_batch
                                 batch_size java_files w)
    = calls w
      ++ match parsed_chunks parse_file java_files with
         | [] => []
         | buffer =>
             let outcome := fst (enrich_batch (enricher w) buffer) in
             Enrich buffer outcome
             :: match outcome with
                | Ok (c :: l) =>
                    [Write (c :: l)
                           (fst (add_batch (vector_store w) (c :: l)))]
                | _ => []
                end
         end.
Proof.
  intros parse_file E S enrich_batch add_batch batch_size files w Hsmall.
  unfold phase2_ingestion_loop, run_loop.
  destruct (loop_below_flush_size parse_file E S enrich_batch add_batch
              batch_size files (loop_start files w) Hsmall)
    as [Hb [Ha [Hc [He Hs]]]].
  cbn [loop_start buffer all_enriched_chunks the_world with_stats calls
       enricher vector_store app] in Hb, Ha, Hc, He, Hs.
  set (ls := fold_left _ files (loop_start files w)) in *.
  unfold drain. rewrite Hb, Ha.
  destruct (parsed_chunks parse_file files) as [|c b].
  - cbn [app]. now rewrite Hc, app_nil_r.
  - unfold flush_buffer. rewrite He.
    destruct (enrich_batch (enricher w) (c :: b)) as [[r|e] e'];
      cbn [fst app].
    + destruct r as [|c1 r]; [cbn [calls]; now rewrite Hc|].
      unfold _write_to_db_sequential. cbn [vector_store]. rewrite Hs.
      destruct (add_batch (vector_store w) (c1 :: r)) as [[u|e] s'];
        cbn [fst].
      * cbn [calls]. now rewrite Hc, <- app_assoc.
      * match goal with
        | |- calls (log_chunks ?l ?x ?v) = _ =>
            destruct (log_chunks_frame E S l x v) as [_ [_ [_ H4]]]
        end.
        rewrite H4. cbn [calls]. now rewrite Hc, <- app_assoc.
    + match goal with
      | |- calls (log_chunks ?l ?x ?v) = _ =>
          destruct (log_chunks_frame E S l x v) as [_ [_ [_ H4]]]
      end.
      rewrite H4. cbn [calls]. now rewrite Hc.
Qed.

Lemma small_project_is_enriched_in_one_call_witness :
  map (fun c => match c with
                | Enrich b _ => (0, length b)
                | Write b _ => (1, length b)
                end)
      (calls (phase2_ingestion_loop MoreSamples.sample_parse
                Samples.enrich_batch Samples.add_batch 20
                MoreSamples.sample_files MoreSamples.sample_world))
  = [(0, 5%nat); (1, 5%nat)].
Proof.
  rewrite (small_project_is_enriched_in_one_call
             MoreSamples.sample_parse unit (list nat)
             Samples.enrich_batch Samples.add_batch 20
             MoreSamples.sample_files MoreSamples.sample_world).
  - vm_compute. reflexivity.
  - vm_compute. reflexivity.
Defined.

(* ------------------------------------------------------------------ *)
(** ** The enricher, alone and in Pass 2 *)

Section EnricherFacts.

Variable lower : str -> str.
Variable O : Type.
Variable llm : O -> chunk -> result (str * list str) * O.

Lemma with_enrichment_enriches (c : chunk) (s : str) (k : list str) :
  (length k <= 5)%nat -> enriches c (with_enrichment c s k).
Proof.
  intros H. unfold enriches, with_enrichment.
  cbn [method_name method_signature method_body class_context
       dependency_types id file_path summary keywords].
  repeat (split; [reflexivity|]). exists s, k. auto.
Qed.

Lemma firstn_5_short {A : Type} (l : list A) :
  (length (firstn 5 l) <= 5)%nat.
Proof. apply firstn_le_length. Qed.

Lemma mock_enrich_enriches (c : chunk) : enriches c (CodeEnricher._mock_enrich lower c).
Proof.
  unfold CodeEnricher._mock_enrich. apply with_enrichment_enriches, firstn_5_short.
Qed.

Lemma fallback_enriches (c : chunk) :
  enriches c (CodeEnricher._add_fallback_enrichment lower c).
Proof.
  unfold CodeEnricher._add_fallback_enrichment. apply with_enrichment_enriches.
  cbn [length]. lia.
Qed.

Lemma llm_enrich_enriches (o : O) (c : chunk) :
  enriches c (fst (CodeEnricher._llm_enrich lower O llm o c)).
Proof.
  unfold CodeEnricher._llm_enrich.
  destruct (50000 <? Z.of_nat (length (method_body c))).
  - cbn [fst]. apply with_enrichment_enriches. cbn [length]. lia.
  - destruct (llm o c) as [[[s k]|e] o']; cbn [fst].
    + apply with_enrichment_enriches, firstn_5_short.
    + apply fallback_enriches.
Qed.

Lemma enrich_single_chunk_enriches (mock_mode : bool) (o : O) (c : chunk) :
  enriches c (fst (CodeEnricher._enrich_single_chunk lower O llm mock_mode o c)).
Proof.
  unfold CodeEnricher._enrich_single_chunk. destruct mock_mode.
  - apply mock_enrich_enriches.
  - apply llm_enrich_enriches.
Qed.

(** The loop of [enrich_batch] from any point on. *)
Lemma enrich_loop (mock_mode : bool) (chunks done : list chunk) (o : O) :
  exists enriched o',
    fold_left
      (fun (acc : list chunk * O) c =>
         let (enriched, o1) := acc in
         let (c', o2) := CodeEnricher._enrich_single_chunk lower O llm mock_mode o1 c in
         (enriched ++ [c'], o2))
      chunks (done, o)
    = (done ++ enriched, o')
    /\ Forall2 enriches chunks enriched
    /\ (mock_mode = true ->
        o' = o /\ enriched = map (CodeEnricher._mock_enrich lower) chunks).
Proof.
  revert done o. induction chunks as [|c chunks IH]; intros done o.
  - exists [], o. cbn. rewrite app_nil_r. auto.
  - cbn [fold_left].
    pose proof (enrich_single_chunk_enriches mock_mode o c) as Hc.
    assert (Hm : mock_mode = true ->
                 CodeEnricher._enrich_single_chunk lower O llm mock_mode o c
                 = (CodeEnricher._mock_enrich lower c, o)).
    { intros ->. reflexivity. }
    destruct (CodeEnricher._enrich_single_chunk lower O llm mock_mode o c) as [c' o2].
    cbn [fst] in Hc.
    destruct (IH (done ++ [c']) o2) as [enriched [o' [Hf [Hall Hmock]]]].
    exists (c' :: enriched), o'. rewrite Hf, <- app_assoc.
    split; [reflexivity|]. split; [now constructor|].
    intros Hmode. destruct (Hmock Hmode) as [-> ->].
    specialize (Hm Hmode). injection Hm as -> ->. auto.
Qed.

Lemma enrich_batch_returns (mock_mode : bool) (o : O)
    (chunks : list chunk) :
  exists enriched o',
    CodeEnricher.enrich_batch lower O llm mock_mode o chunks = (Ok enriched, o')
    /\ Forall2 enriches chunks enriched
    /\ (mock_mode = true ->
        o' = o /\ enriched = map (CodeEnricher._mock_enrich lower) chunks).
Proof.
  unfold CodeEnricher.enrich_batch.
  destruct (enrich_loop mock_mode chunks [] o)
    as [enriched [o' [Hf [Hall Hmock]]]].
  rewrite Hf. cbn [app]. exists enriched, o'. auto.
Qed.

Lemma mock_keywords_count (c : chunk) :
  exists k,
    keywords (CodeEnricher._mock_enrich lower c) = Some k
    /\ length k = (3 + Nat.min 2 (length (dependency_types c)))%nat
    /\ hd_error k
       = Some (if str_eqb (method_name c) (lit "<Constructor>")
               then lit "constructor" else lower (method_name c))
    /\ In (lit "java") k /\ In (lit "method") k.
Proof.
  unfold CodeEnricher._mock_enrich, with_enrichment. cbn [keywords].
  eexists. split; [reflexivity|].
  destruct (dependency_types c) as [|d1 [|d2 deps]];
    destruct (str_eqb (method_name c) (lit "<Constructor>"));
    cbn [negb firstn map app length Nat.min hd_error];
    (split; [reflexivity|]); (split; [reflexivity|]);
    split; cbn [In]; auto.
Qed.

End EnricherFacts.

Section StoredFacts.

Variable parse_file : str -> result (list chunk).
Variables E S : Type.
Variable enrich_batch : E -> list chunk -> result (list chunk) * E.
Variable add_batch : S -> list chunk -> result unit * S.

(** With an enricher that answers every buffer chunk by chunk, what it
    returned over a run answers what it was given. *)
Lemma answered_chunk_by_chunk (R : chunk -> chunk -> Prop)
    (new : list call) :
  (forall e b, exists r,
      fst (enrich_batch e b) = Ok r /\ Forall2 R b r) ->
  Forall (call_made enrich_batch add_batch) new ->
  Forall2 R (concat (enrich_inputs new)) (concat (enrich_outputs new))
  /\ (forall b e, ~ In (Enrich b (Raise e)) new).
Proof.
  intros Hanswer. induction 1 as [|c new Hc _ [IH1 IH2]].
  - split; [constructor | intros b e []].
  - destruct c as [b o | b o].
    + destruct Hc as [_ [e Ho]].
      destruct (Hanswer e b) as [r [Hr Hall]].
      rewrite Hr in Ho. subst o. cbn [enrich_inputs enrich_outputs
                                      flat_map app concat].
      split.
      * apply Forall2_app; [exact Hall | exact IH1].
      * intros b' e' [H | H]; [discriminate H | exact (IH2 b' e' H)].
    + cbn [enrich_inputs enrich_outputs flat_map app]. split; [exact IH1|].
      intros b' e' [H | H]; [discriminate H | exact (IH2 b' e' H)].
Qed.

(** With a store that accepts every batch, the accepted batches are all
    the batches. *)
Lemma accepted_all (new : list call) :
  (forall s b, exists u, fst (add_batch s b) = Ok u) ->
  Forall (call_made enrich_batch add_batch) new ->
  indexed new = Z.of_nat (length (concat (write_inputs new)))
  /\ (forall b e, ~ In (Write b (Raise e)) new).
Proof.
  intros Haccept. induction 1 as [|c new Hc _ [IH1 IH2]].
  - split; [reflexivity | intros b e []].
  - destruct c as [b o | b o].
    + cbn [indexed fold_right write_inputs flat_map app].
      split; [exact IH1|].
      intros b' e' [H | H]; [discriminate H | exact (IH2 b' e' H)].
    + destruct Hc as [_ [s Ho]].
      destruct (Haccept s b) as [u Hu]. rewrite Hu in Ho. subst o.
      cbn [indexed fold_right write_inputs flat_map app concat].
      fold (indexed new). fold (write_inputs new).
      rewrite IH1, length_app. split; [lia|].
      intros b' e' [H | H]; [discriminate H | exact (IH2 b' e' H)].
Qed.

Lemma no_refusal_no_line (new : list call) :
  (forall b e, ~ In (Enrich b (Raise e)) new) ->
  (forall b e, ~ In (Write b (Raise e)) new) ->
  chunk_errors new = [].
Proof.
  induction new as [|c new IH]; intros He Hw; [reflexivity|].
  cbn [chunk_errors flat_map]. fold (chunk_errors new).
  rewrite IH.
  - destruct c as [b [r|e] | b [u|e]]; try reflexivity.
    + exfalso. apply (He b e). now left.
    + exfalso. apply (Hw b e). now left.
  - intros b e H. apply (He b e). now right.
  - intros b e H. apply (Hw b e). now right.
Qed.

End StoredFacts.

(** X15: whatever the mode and whatever the language model answers,
    [enrich_batch] returns, for every chunk of the batch and in the order
    of the batch, that chunk with a summary and at most five keywords and
    with its other fields unchanged.  In mock mode the model is not
    consulted, and the keywords are the lower-cased method name (or
    [constructor]), [java] and [method], followed by the first two
    dependency types in lower case. *)
Theorem enrich_batch_enriches_every_chunk :
  forall (lower : str -> str) (O : Type)
         (llm : O -> chunk -> result (str * list str) * O)
         (mock_mode : bool) (o : O) (chunks : list chunk),
    exists enriched o',
      CodeEnricher.enrich_batch lower O llm mock_mode o chunks = (Ok enriched, o')
      /\ Forall2 enriches chunks enriched
      /\ (mock_mode = true ->
          o' = o
          /\ enriched = map (CodeEnricher._mock_enrich lower) chunks
          /\ forall c,
               In c chunks ->
               exists k,
                 keywords (CodeEnricher._mock_enrich lower c) = Some k
                 /\ length k
                    = (3 + Nat.min 2 (length (dependency_types c)))%nat
                 /\ hd_error k
                    = Some (if str_eqb (method_name c)
                                       (lit "<Constructor>")
                            then lit "constructor"
                            else lower (method_name c))
                 /\ In (lit "java") k /\ In (lit "method") k).
Proof.
  intros lower O llm mock_mode o chunks.
  destruct (enrich_batch_returns lower O llm mock_mode o chunks)
    as [enriched [o' [He [Hall Hmock]]]].
  exists enriched, o'. split; [exact He|]. split; [exact Hall|].
  intros Hmode. destruct (Hmock Hmode) as [Ho Hm].
  split; [exact Ho|]. split; [exact Hm|].
  intros c _. apply mock_keywords_count.
Qed.

(** X16: with the enricher of the project, in either mode and whatever
    the language model answers, no batch is refused by the enricher and
    the batches handed to the store, put end to end, are the parsed
    chunks, each enriched, in the order in which they were parsed.  When
    moreover the store accepts every batch, the chunk counter grows by the
    number of parsed chunks and the error log gains the lines of the files
    that did not parse and nothing else. *)
Theorem pass2_stores_every_parsed_chunk_enriched :
  forall (parse_file : str -> result (list chunk))
         (lower : str -> str) (O : Type)
         (llm : O -> chunk -> result (str * list str) * O)
         (mock_mode : bool) (S : Type)
         (add_batch : S -> list chunk -> result unit * S)
         (batch_size : Z) (java_files : list str) (w : world O S),
    let w' := phase2_ingestion_loop parse_file
                (CodeEnricher.enrich_batch lower O llm mock_mode) add_batch batch_size
                java_files w in
    exists new : list call,
      calls w' = calls w ++ new
      /\ (forall b e, ~ In (Enrich b (Raise e)) new)
      /\ Forall2 enriches (parsed_chunks parse_file java_files)
                 (concat (write_inputs new))
      /\ ((forall s b, exists u, fst (add_batch s b) = Ok u) ->
          chunks_indexed (w_stats w')
          = chunks_indexed (w_stats w)
            + Z.of_nat (length (parsed_chunks parse_file java_files))
          /\ Permutation (error_log w')
               (error_log w ++ file_errors parse_file java_files)).
Proof.
  intros parse_file lower O llm mock_mode S add_batch batch_size files w w'.
  destruct (moves_phase2 parse_file O S
              (CodeEnricher.enrich_batch lower O llm mock_mode) add_batch batch_size
              files w) as [new [Hc [Hi [Hp Hm]]]].
  fold w' in Hc, Hi, Hp.
  destruct (drain_effect parse_file O S
              (CodeEnricher.enrich_batch lower O llm mock_mode) add_batch batch_size
              w (length files) files _
              (run_loop_invariant parse_file O S
                 (CodeEnricher.enrich_batch lower O llm mock_mode) add_batch
                 batch_size files w))
    as [[new' [Hc' [Hin Hout]]] _].
  fold (phase2_ingestion_loop parse_file
          (CodeEnricher.enrich_batch lower O llm mock_mode) add_batch batch_size
          files w) in Hc'.
  fold w' in Hc'.
  assert (new' = new) by exact (calls_suffix_unique O S w w' _ _ Hc' Hc).
  subst new'.
  destruct (answered_chunk_by_chunk O S
              (CodeEnricher.enrich_batch lower O llm mock_mode) add_batch enriches new)
    as [Hall Hnone]; [|exact Hm|].
  { intros e b.
    destruct (enrich_batch_returns lower O llm mock_mode e b)
      as [r [o' [Hr [Hf _]]]].
    exists r. now rewrite Hr. }
  exists new. split; [exact Hc|]. split; [exact Hnone|].
  rewrite Hin, <- Hout in Hall. split; [exact Hall|].
  intros Haccept.
  destruct (accepted_all O S (CodeEnricher.enrich_batch lower O llm mock_mode)
              add_batch new Haccept Hm) as [Hidx Hw].
  rewrite (no_refusal_no_line new Hnone Hw), app_nil_r in Hp.
  split; [|exact Hp].
  rewrite Hi, Hidx. now rewrite <- (Forall2_length Hall).
Qed.

Lemma pass2_stores_every_parsed_chunk_enriched_witness :
  let w' := phase2_ingestion_loop MoreSamples.sample_parse
              (CodeEnricher.enrich_batch (fun s => s) unit
                            (fun o _ => (Raise OSError, o)) true)
              Samples.add_batch 2 MoreSamples.sample_files
              MoreSamples.sample_world in
  chunks_indexed (w_stats w') = 5
  /\ Permutation (error_log w') [(lit "/proj/gen.java", OSError)].
Proof.
  cbv zeta.
  destruct (pass2_stores_every_parsed_chunk_enriched
              MoreSamples.sample_parse (fun s => s) unit
              (fun o _ => (Raise OSError, o)) true (list nat)
              Samples.add_batch 2 MoreSamples.sample_files
              MoreSamples.sample_world)
    as [new [_ [_ [_ H]]]].
  destruct H as [Hi Hp].
  - intros s b. exists tt. reflexivity.
  - split.
    + rewrite Hi. vm_compute. reflexivity.
    + eapply perm_trans; [exact Hp|].
      vm_compute. apply Permutation_refl.
Defined.

(* ------------------------------------------------------------------ *)
(** ** What the store reads back from a class context *)

Module StoreStrings.

(** [c] occurs in [s]. *)
Local Abbreviation has c s := (existsb (Z.eqb c) s).

Lemma startswith_app_self (p s : str) : startswith p (p ++ s) = true.
Proof.
  induction p as [|x p IH]; [reflexivity|].
  cbn [app startswith]. now rewrite Z.eqb_refl, IH.
Qed.

Lemma startswith_contains (p s : str) :
  startswith p s = true -> contains p s = true.
Proof. intros H. destruct s; cbn [contains]; now rewrite H. Qed.

Lemma contains_app_r (p a s : str) :
  contains p s = true -> contains p (a ++ s) = true.
Proof.
  intros H. induction a as [|x a IH]; [exact H|].
  cbn [app contains]. rewrite IH. apply orb_true_r.
Qed.

Lemma contains_cons_false (p : str) (x : Z) (s : str) :
  contains p (x :: s) = false ->
  startswith p (x :: s) = false /\ contains p s = false.
Proof. cbn [contains]. apply orb_false_elim. Qed.

Lemma startswith_has (d : Z) (pat s : str) :
  startswith pat s = true -> has d pat = true -> has d s = true.
Proof.
  revert s. induction pat as [|x pat IH]; intros s H Hd; [discriminate|].
  destruct s as [|y s]; [discriminate|].
  cbn [startswith] in H. apply andb_prop in H. destruct H as [Hxy H].
  apply Z.eqb_eq in Hxy. subst y.
  cbn [existsb] in *. apply orb_prop in Hd. destruct Hd as [-> | Hd];
    [reflexivity|].
  rewrite (IH s H Hd). apply orb_true_r.
Qed.

(** A pattern holding a character [d] does not start in text without
    [d] that is followed by a character foreign to the pattern. *)
Lemma no_match (pat q r : str) (c d : Z) :
  has d q = false -> has c pat = false -> has d pat = true ->
  startswith pat (q ++ c :: r) = false.
Proof.
  revert pat. induction q as [|y q IH]; intros pat Hq Hc Hd.
  - destruct pat as [|x pat]; [discriminate|].
    cbn [app startswith]. cbn [existsb] in Hc.
    apply orb_false_elim in Hc. destruct Hc as [Hcx _].
    rewrite Z.eqb_sym, Hcx. reflexivity.
  - destruct pat as [|x pat]; [discriminate|].
    cbn [app startswith]. cbn [existsb] in Hq, Hc, Hd.
    apply orb_false_elim in Hq. destruct Hq as [Hdy Hq].
    apply orb_false_elim in Hc. destruct Hc as [_ Hc].
    destruct (x =? y) eqn:Exy; [|reflexivity].
    apply Z.eqb_eq in Exy. subst y. rewrite Hdy in Hd. cbn [orb] in Hd.
    cbn [andb]. now apply IH.
Qed.

(** The walk of [split]. *)
Lemma split_go_nonmatch (sep cur : str) (x : Z) (s : str) :
  startswith sep (x :: s) = false ->
  split_go sep 0 cur (x :: s) = split_go sep 0 (x :: cur) s.
Proof. intros H. cbn [split_go]. now rewrite H. Qed.

Lemma split_go_pass (sep q r cur : str) (c d : Z) :
  has d q = false -> has c sep = false -> has d sep = true ->
  split_go sep 0 cur (q ++ c :: r)
  = split_go sep 0 (rev q ++ cur) (c :: r).
Proof.
  revert cur. induction q as [|x q IH]; intros cur Hq Hc Hd;
    [reflexivity|].
  change ((x :: q) ++ c :: r) with (x :: (q ++ c :: r)).
  rewrite split_go_nonmatch
    by exact (no_match sep (x :: q) r c d Hq Hc Hd).
  cbn [existsb] in Hq. apply orb_false_elim in Hq.
  rewrite (IH (x :: cur) (proj2 Hq) Hc Hd).
  cbn [rev]. now rewrite <- app_assoc.
Qed.

Lemma split_go_skip_first (c0 : Z) (sep' a cur s : str) :
  forallb (fun x => negb (x =? c0)) a = true ->
  split_go (c0 :: sep') 0 cur (a ++ s)
  = split_go (c0 :: sep') 0 (rev a ++ cur) s.
Proof.
  revert cur. induction a as [|x a IH]; intros cur H; [reflexivity|].
  cbn [forallb] in H. apply andb_prop in H. destruct H as [Hx Ha].
  apply negb_true_iff in Hx.
  change ((x :: a) ++ s) with (x :: (a ++ s)).
  rewrite split_go_nonmatch.
  - rewrite (IH (x :: cur) Ha). cbn [rev]. now rewrite <- app_assoc.
  - cbn [startswith]. now rewrite Z.eqb_sym, Hx.
Qed.

Lemma split_go_skipping (sep a cur s : str) :
  split_go sep (length a) cur (a ++ s) = split_go sep 0 cur s.
Proof.
  induction a as [|x a IH]; [reflexivity|].
  cbn [length app split_go]. exact IH.
Qed.

Lemma split_go_at_sep (c0 : Z) (sep' cur b : str) :
  split_go (c0 :: sep') 0 cur ((c0 :: sep') ++ b)
  = rev cur :: split_go (c0 :: sep') 0 [] b.
Proof.
  pose proof (startswith_app_self (c0 :: sep') b) as H.
  change ((c0 :: sep') ++ b) with (c0 :: (sep' ++ b)) in *.
  cbn [split_go]. rewrite H.
  replace (length (c0 :: sep') - 1)%nat with (length sep')
    by (cbn [length]; lia).
  now rewrite split_go_skipping.
Qed.

Lemma split_go_head (sep : str) (s : str) :
  forall skip cur, exists x ps,
    split_go sep skip cur s = (rev cur ++ x) :: ps.
Proof.
  induction s as [|c t IH]; intros skip cur.
  - exists [], []. cbn. now rewrite app_nil_r.
  - destruct skip as [|k].
    + cbn [split_go]. destruct (startswith sep (c :: t)).
      * exists [], (split_go sep (length sep - 1) [] t).
        now rewrite app_nil_r.
      * destruct (IH O (c :: cur)) as [x [ps H]].
        exists (c :: x), ps. rewrite H. cbn [rev].
        now rewrite <- app_assoc.
    + cbn [split_go]. apply IH.
Qed.

Lemma split_char_go (c : Z) (a b cur : str) :
  has c a = false ->
  split_go [c] 0 cur (a ++ c :: b)
  = (rev cur ++ a) :: split_go [c] 0 [] b.
Proof.
  revert cur. induction a as [|x a IH]; intros cur H.
  - cbn [app split_go startswith]. rewrite Z.eqb_refl. cbn [andb length].
    now rewrite app_nil_r.
  - cbn [existsb] in H. apply orb_false_elim in H. destruct H as [Hx Ha].
    change ((x :: a) ++ c :: b) with (x :: (a ++ c :: b)).
    rewrite split_go_nonmatch by (cbn [startswith]; now rewrite Hx).
    rewrite (IH (x :: cur) Ha). cbn [rev]. now rewrite <- app_assoc.
Qed.

Lemma split_char_first (c : Z) (a b : str) :
  has c a = false -> split [c] (a ++ c :: b) = a :: split [c] b.
Proof. intros H. unfold split. now rewrite split_char_go. Qed.

Lemma split_char_go_none (c : Z) (a cur : str) :
  has c a = false -> split_go [c] 0 cur a = [rev cur ++ a].
Proof.
  revert cur. induction a as [|x a IH]; intros cur H.
  - cbn. now rewrite app_nil_r.
  - cbn [existsb] in H. apply orb_false_elim in H. destruct H as [Hx Ha].
    rewrite split_go_nonmatch by (cbn [startswith]; now rewrite Hx).
    rewrite (IH (x :: cur) Ha). cbn [rev]. now rewrite <- app_assoc.
Qed.

Lemma split_char_none (c : Z) (a : str) :
  has c a = false -> split [c] a = [a].
Proof. intros H. unfold split. now rewrite split_char_go_none. Qed.

(** The walk of [replace]. *)
Lemma replace_go_skipping (old new a s : str) :
  replace_go old new (length a) (a ++ s) = replace_go old new 0 s.
Proof.
  induction a as [|x a IH]; [reflexivity|].
  cbn [length app replace_go]. exact IH.
Qed.

Lemma replace_prefix (c0 : Z) (old' new s : str) :
  replace (c0 :: old') new ((c0 :: old') ++ s)
  = new ++ replace (c0 :: old') new s.
Proof.
  unfold replace.
  pose proof (startswith_app_self (c0 :: old') s) as H.
  change ((c0 :: old') ++ s) with (c0 :: (old' ++ s)) in *.
  cbn [replace_go]. rewrite H.
  replace (length (c0 :: old') - 1)%nat with (length old')
    by (cbn [length]; lia).
  now rewrite replace_go_skipping.
Qed.

Lemma replace_noop (old new s : str) (d : Z) :
  has d s = false -> has d old = true -> replace old new s = s.
Proof.
  intros Hs Hd. unfold replace. induction s as [|x s IH]; [reflexivity|].
  cbn [replace_go].
  destruct (startswith old (x :: s)) eqn:E.
  - rewrite (startswith_has d old (x :: s) E Hd) in Hs. discriminate Hs.
  - cbn [existsb] in Hs. apply orb_false_elim in Hs.
    now rewrite (IH (proj2 Hs)).
Qed.

(** [strip] on text without white space, and behind white space. *)
Lemma lstrip_nospace (s : str) :
  forallb (fun c => negb (isspace c)) s = true -> lstrip s = s.
Proof.
  destruct s as [|c s]; [reflexivity|].
  cbn [forallb lstrip]. intros H. apply andb_prop in H.
  destruct H as [H _]. apply negb_true_iff in H. now rewrite H.
Qed.

Lemma nospace_rev (s : str) :
  forallb (fun c => negb (isspace c)) s = true ->
  forallb (fun c => negb (isspace c)) (rev s) = true.
Proof.
  rewrite !forallb_forall. intros H x Hx. apply H. now apply in_rev.
Qed.

Lemma strip_nospace (s : str) :
  forallb (fun c => negb (isspace c)) s = true -> strip s = s.
Proof.
  intros H. unfold strip, rstrip. rewrite (lstrip_nospace s H).
  rewrite (lstrip_nospace (rev s) (nospace_rev s H)).
  apply rev_involutive.
Qed.

Lemma lstrip_spaces (ws s : str) :
  forallb isspace ws = true -> lstrip (ws ++ s) = lstrip s.
Proof.
  induction ws as [|c ws IH]; [reflexivity|].
  cbn [forallb app lstrip]. intros H. apply andb_prop in H.
  destruct H as [Hc Hws]. rewrite Hc. now apply IH.
Qed.

Lemma strip_behind_spaces (ws s : str) :
  forallb isspace ws = true ->
  forallb (fun c => negb (isspace c)) s = true ->
  strip (ws ++ s) = s.
Proof.
  intros Hws Hs. unfold strip. rewrite (lstrip_spaces ws s Hws).
  exact (strip_nospace s Hs).
Qed.

(** The parts of a plain text. *)
Lemma plain_parts (s : str) :
  plain s = true ->
  has 44 s = false /\ has 58 s = false /\ has 93 s = false
  /\ forallb (fun c => negb (isspace c)) s = true.
Proof.
  unfold plain. induction s as [|c s IH]; [auto|].
  cbn [forallb existsb]. intros H. apply andb_prop in H.
  destruct H as [Hc Hs]. destruct (IH Hs) as [H1 [H2 [H3 H4]]].
  unfold plain_char in Hc.
  apply andb_prop in Hc. destruct Hc as [Hc Hsp].
  apply andb_prop in Hc. destruct Hc as [Hc H93].
  apply andb_prop in Hc. destruct Hc as [H44 H58].
  apply negb_true_iff in H44, H58, H93.
  rewrite (Z.eqb_sym 44), (Z.eqb_sym 58), (Z.eqb_sym 93).
  rewrite H44, H58, H93, H1, H2, H3, Hsp, H4. auto.
Qed.

Lemma has_app (c : Z) (a b : str) : has c (a ++ b) = has c a || has c b.
Proof. apply existsb_app. Qed.

(** A pattern that ends in a character it does not hold elsewhere starts
    at its first occurrence only: it cannot start before it and run into
    it. *)
Lemma short_of_last (z : Z) (body s : str) :
  has z body = false ->
  forall p1, (length p1 < length body)%nat ->
    startswith (p1 ++ [z]) (body ++ s) = false.
Proof.
  induction body as [|y body IH]; intros Hz p1 Hlen;
    [cbn [length] in Hlen; lia|].
  cbn [existsb] in Hz. apply orb_false_elim in Hz. destruct Hz as [Hy Hz].
  destruct p1 as [|x p1].
  - cbn [app startswith]. now rewrite Hy.
  - cbn [app startswith]. cbn [length] in Hlen.
    rewrite (IH Hz p1) by lia. apply andb_false_r.
Qed.

Lemma not_across (z : Z) (body s : str) :
  has z body = false ->
  forall q p1, (length p1 < length q + length body)%nat ->
    startswith (p1 ++ [z]) (q ++ body ++ s) = true ->
    startswith (p1 ++ [z]) q = true.
Proof.
  intros Hz. induction q as [|x q IH]; intros p1 Hlen H.
  - cbn [app length] in *.
    rewrite (short_of_last z body s Hz p1) in H by lia. discriminate H.
  - destruct p1 as [|y p1].
    + cbn [app startswith] in *. apply andb_prop in H.
      now rewrite (proj1 H).
    + cbn [app startswith] in *. apply andb_prop in H.
      destruct H as [Hxy H]. rewrite Hxy. cbn [andb].
      apply IH; [cbn [length] in Hlen; lia | exact H].
Qed.

Lemma find_at_unfold (p s : str) :
  find_at p s
  = if startswith p s then Some O
    else match s with
         | [] => None
         | _ :: t => match find_at p t with
                     | Some i => Some (S i)
                     | None => None
                     end
         end.
Proof. destruct s; reflexivity. Qed.

Lemma find_at_first (z : Z) (body q r : str) :
  has z body = false ->
  contains (body ++ [z]) q = false ->
  find_at (body ++ [z]) (q ++ (body ++ [z]) ++ r) = Some (length q).
Proof.
  intros Hz. induction q as [|x q IH]; intros Hq.
  - cbn [app length]. rewrite find_at_unfold.
    now rewrite startswith_app_self.
  - apply contains_cons_false in Hq. destruct Hq as [Hs Hq].
    rewrite find_at_unfold.
    destruct (startswith (body ++ [z]) ((x :: q) ++ (body ++ [z]) ++ r))
      eqn:E.
    + rewrite <- (app_assoc body [z] r) in E.
      rewrite (not_across z body ([z] ++ r) Hz (x :: q) body) in Hs;
        [discriminate Hs | cbn [length]; lia | exact E].
    + cbn [app]. rewrite (IH Hq). reflexivity.
Qed.

Lemma find_at_char (c : Z) (a r : str) :
  has c a = false -> find_at [c] (a ++ c :: r) = Some (length a).
Proof.
  induction a as [|x a IH]; intros H.
  - cbn [app find_at startswith]. now rewrite Z.eqb_refl.
  - cbn [existsb] in H. apply orb_false_elim in H. destruct H as [Hx Ha].
    cbn [app find_at startswith]. rewrite Hx. cbn [andb].
    now rewrite (IH Ha).
Qed.

Lemma skipn_past {A : Type} (a b : list A) :
  skipn (length a) (a ++ b) = b.
Proof. induction a as [|x a IH]; [reflexivity | exact IH]. Qed.

Lemma firstn_exact {A : Type} (a b : list A) :
  firstn (length a) (a ++ b) = a.
Proof.
  induction a as [|x a IH]; [reflexivity|].
  cbn [length app firstn]. now rewrite IH.
Qed.

(** The names of a list joined by a comma and a space, read back. *)
Lemma has_join (c : Z) (sep : str) (l : list str) :
  has c sep = false ->
  forallb (fun m => negb (has c m)) l = true ->
  has c (join sep l) = false.
Proof.
  intros Hsep. induction l as [|m l IH]; [reflexivity|].
  cbn [forallb]. intros H. apply andb_prop in H. destruct H as [Hm Hl].
  apply negb_true_iff in Hm.
  destruct l as [|m' l]; [exact Hm|].
  change (join sep (m :: m' :: l)) with (m ++ sep ++ join sep (m' :: l)).
  rewrite !has_app, Hm, Hsep, (IH Hl). reflexivity.
Qed.

Lemma names_read_back (ms : list str) :
  ms <> [] ->
  forallb (fun m => truthy m && plain m) ms = true ->
  forall ws,
    forallb isspace ws = true -> has 44 ws = false ->
    filter truthy (map strip (split [44] (ws ++ join (lit ", ") ms)))
    = ms.
Proof.
  induction ms as [|m ms IH]; intros Hne Hall ws Hws Hc;
    [congruence|].
  cbn [forallb] in Hall. apply andb_prop in Hall.
  destruct Hall as [Hm Hms]. apply andb_prop in Hm.
  destruct Hm as [Htr Hpl].
  destruct (plain_parts m Hpl) as [H44 [_ [_ Hsp]]].
  destruct ms as [|m' ms].
  - cbn [join]. rewrite split_char_none
      by (rewrite has_app, Hc, H44; reflexivity).
    cbn [map filter]. rewrite (strip_behind_spaces ws m Hws Hsp).
    now rewrite Htr.
  - change (join (lit ", ") (m :: m' :: ms))
      with (m ++ 44 :: ([32] ++ join (lit ", ") (m' :: ms))).
    rewrite app_assoc.
    rewrite split_char_first
      by (rewrite has_app, Hc, H44; reflexivity).
    cbn [map filter]. rewrite (strip_behind_spaces ws m Hws Hsp), Htr.
    f_equal. apply IH; [discriminate | exact Hms | reflexivity
                        | reflexivity].
Qed.

End StoreStrings.

Module StoreFacts.
Import StoreStrings.

Lemma package_of_shape (P rest : str) :
  plain P = true ->
  package_of (lit "Package: " ++ P ++ 44 :: rest) = P.
Proof.
  intros HP. destruct (plain_parts P HP) as [H44 [H58 [_ Hsp]]].
  unfold package_of.
  rewrite (startswith_contains _ _ (startswith_app_self (lit "Package: ")
                                      (P ++ 44 :: rest))).
  change (lit ",") with [44]. rewrite app_assoc.
  rewrite split_char_first
    by (rewrite existsb_app, H44; reflexivity).
  cbn [hd].
  change (lit "Package: ") with (80 :: lit "ackage: ").
  rewrite replace_prefix. cbn [app].
  rewrite (replace_noop (80 :: lit "ackage: ") [] P 58 H58 eq_refl).
  exact (strip_nospace P Hsp).
Qed.

Lemma class_name_of_shape (P cls rest : str) :
  plain P = true -> plain cls = true ->
  class_name_of (lit "Package: " ++ P ++ lit ", Class: " ++ cls
                     ++ 44 :: rest)
  = cls.
Proof.
  intros HP Hcls.
  destruct (plain_parts P HP) as [_ [HP58 _]].
  destruct (plain_parts cls Hcls) as [Hc44 [Hc58 [_ Hcsp]]].
  unfold class_name_of.
  change (lit ", Class: " ++ cls ++ 44 :: rest)
    with (44 :: [32] ++ lit "Class: " ++ cls ++ 44 :: rest).
  set (b := cls ++ 44 :: rest).
  assert (Hcontains :
            contains (lit "Class: ")
              (lit "Package: " ++ P ++ 44 :: [32] ++ lit "Class: " ++ b)
            = true).
  { apply contains_app_r, contains_app_r.
    apply (contains_app_r _ [44; 32]).
    apply startswith_contains, startswith_app_self. }
  rewrite Hcontains.
  assert (Hsplit :
            exists piece x ps,
              split (lit "Class: ")
                (lit "Package: " ++ P ++ 44 :: [32] ++ lit "Class: " ++ b)
              = piece :: (cls ++ 44 :: x) :: ps).
  { unfold split.
    change (lit "Class: ") with (67 :: lit "lass: ").
    rewrite (split_go_skip_first 67 (lit "lass: ") (lit "Package: "))
      by reflexivity.
    rewrite (split_go_pass (67 :: lit "lass: ") P _ _ 44 58 HP58
               eq_refl eq_refl).
    change (44 :: [32] ++ (67 :: lit "lass: ") ++ b)
      with ([44; 32] ++ (67 :: lit "lass: ") ++ b).
    rewrite (split_go_skip_first 67 (lit "lass: ") [44; 32])
      by reflexivity.
    rewrite split_go_at_sep.
    subst b.
    rewrite (split_go_pass (67 :: lit "lass: ") cls _ _ 44 58 Hc58
               eq_refl eq_refl).
    rewrite split_go_nonmatch by reflexivity.
    destruct (split_go_head (67 :: lit "lass: ") rest O
                (44 :: rev cls ++ [])) as [x [ps Hx]].
    rewrite Hx. eexists. exists x, ps. f_equal. f_equal.
    cbn [rev]. rewrite app_nil_r, rev_involutive, <- app_assoc.
    reflexivity. }
  destruct Hsplit as [piece [x [ps Hs]]]. rewrite Hs.
  cbn [length Nat.ltb Nat.leb nth].
  change (lit ",") with [44].
  rewrite (split_char_first 44 cls x Hc44). cbn [hd].
  exact (strip_nospace cls Hcsp).
Qed.

Lemma base_context_shape (package_name class_name : str)
    (fields : list str) :
  exists tail,
    JavaCodeParser.base_context package_name class_name fields
    = lit "Package: " ++ shown_package package_name ++ lit ", Class: "
        ++ class_name ++ 44 :: tail.
Proof.
  unfold JavaCodeParser.base_context, shown_package.
  destruct (truthy package_name); destruct fields as [|f fields];
    eexists; rewrite <- ?app_assoc; reflexivity.
Qed.

Lemma format_class_context_shape (depth : nat) (hm : hierarchy)
    (package_name class_name : str) (fields : list str)
    (parent_class : option str) (context : str) :
  JavaCodeParser._format_class_context depth hm package_name class_name
                                       fields parent_class
  = Ok context ->
  exists tail,
    context
    = lit "Package: " ++ shown_package package_name ++ lit ", Class: "
        ++ class_name ++ 44 :: tail.
Proof.
  unfold JavaCodeParser._format_class_context.
  destruct (base_context_shape package_name class_name fields)
    as [tail Hb].
  rewrite Hb. intros H.
  assert (G : forall extra,
             exists tail',
               (lit "Package: " ++ shown_package package_name
                  ++ lit ", Class: " ++ class_name ++ 44 :: tail) ++ extra
               = lit "Package: " ++ shown_package package_name
                   ++ lit ", Class: " ++ class_name ++ 44 :: tail').
  { intros extra. exists (tail ++ extra).
    rewrite <- !app_assoc. reflexivity. }
  destruct parent_class as [p|];
    [|apply ReturnFacts.Ok_inj in H; subst context; now exists tail].
  destruct (truthy p);
    [|apply ReturnFacts.Ok_inj in H; subst context; now exists tail].
  apply ParseFacts.bind_ok in H. destruct H as [ms [_ H]].
  destruct ms as [|m ms]; apply ReturnFacts.Ok_inj in H; subst context.
  - apply G.
  - rewrite <- app_assoc. apply G.
Qed.

Lemma starts_within (z : Z) (a : str) :
  existsb (Z.eqb z) a = false ->
  forall q p1,
    startswith (p1 ++ [z]) (q ++ a) = true ->
    startswith (p1 ++ [z]) q = true.
Proof.
  intros Hz. induction q as [|x q IH]; intros p1 H.
  - cbn [app] in H.
    assert (Hin : existsb (Z.eqb z) (p1 ++ [z]) = true).
    { rewrite existsb_app. cbn [existsb]. rewrite Z.eqb_refl.
      now rewrite orb_true_r. }
    rewrite (startswith_has z _ _ H Hin) in Hz. discriminate Hz.
  - destruct p1 as [|y p1]; cbn [app startswith] in *.
    + apply andb_prop in H. now rewrite (proj1 H).
    + apply andb_prop in H. destruct H as [Hxy H]. rewrite Hxy.
      cbn [andb]. now apply IH.
Qed.

Lemma contains_has (d : Z) (pat s : str) :
  contains pat s = true -> existsb (Z.eqb d) pat = true ->
  existsb (Z.eqb d) s = true.
Proof.
  intros H Hd. induction s as [|x s IH].
  - cbn [contains] in H. rewrite orb_false_r in H.
    exact (startswith_has d pat [] H Hd).
  - cbn [contains] in H. apply orb_prop in H. destruct H as [H | H].
    + exact (startswith_has d pat _ H Hd).
    + cbn [existsb]. rewrite (IH H). apply orb_true_r.
Qed.

(** Text without the last character of a pattern, put behind text
    without the pattern, completes no occurrence of it. *)
Lemma contains_app_tail (z : Z) (body q a : str) :
  existsb (Z.eqb z) a = false ->
  contains (body ++ [z]) q = false ->
  contains (body ++ [z]) (q ++ a) = false.
Proof.
  intros Hz. induction q as [|x q IH]; intros Hq.
  - cbn [app]. destruct (contains (body ++ [z]) a) eqn:E; [|reflexivity].
    rewrite (contains_has z _ _ E) in Hz; [discriminate Hz|].
    rewrite existsb_app. cbn [existsb]. rewrite Z.eqb_refl.
    now rewrite orb_true_r.
  - apply contains_cons_false in Hq. destruct Hq as [Hs Hq].
    cbn [app contains]. rewrite (IH Hq), orb_false_r.
    destruct (startswith (body ++ [z]) (x :: q ++ a)) eqn:E;
      [|reflexivity].
    rewrite (starts_within z a Hz (x :: q) body E) in Hs.
    discriminate Hs.
Qed.

Lemma inherited_methods_of_shape (pre : str) (ms : list str) :
  contains inherited_marker pre = false ->
  ms <> [] ->
  forallb (fun m => truthy m && plain m) ms = true ->
  inherited_methods_of
    (pre ++ lit ", Inherited Methods: [" ++ join (lit ", ") ms ++ lit "]")
  = Some ms.
Proof.
  intros Hpre Hne Hms.
  set (J := join (lit ", ") ms).
  assert (HJ : existsb (Z.eqb 93) J = false).
  { apply has_join; [reflexivity|].
    rewrite forallb_forall in Hms |- *. intros m Hm.
    specialize (Hms m Hm). apply andb_prop in Hms.
    destruct (plain_parts m (proj2 Hms)) as [_ [_ [H93 _]]].
    now rewrite H93. }
  change (lit ", Inherited Methods: [" ++ J ++ lit "]")
    with ([44; 32] ++ inherited_marker ++ J ++ [93]).
  rewrite app_assoc. set (pre' := pre ++ [44; 32]).
  assert (Hpre' : contains inherited_marker pre' = false).
  { subst pre'.
    exact (contains_app_tail 91 (lit "Inherited Methods: ") pre [44; 32]
             eq_refl Hpre). }
  unfold inherited_methods_of.
  rewrite (contains_app_r inherited_marker pre' _
             (startswith_contains _ _
                (startswith_app_self inherited_marker (J ++ [93])))).
  unfold index_from at 1. cbn [skipn].
  change inherited_marker with (lit "Inherited Methods: " ++ [91]) at 1 2.
  rewrite (find_at_first 91 (lit "Inherited Methods: ") pre' (J ++ [93])
             eq_refl Hpre').
  fold inherited_marker. cbn [Nat.add].
  assert (Hskip : skipn (length pre' + length inherited_marker)
                        (pre' ++ inherited_marker ++ J ++ [93])
                  = J ++ [93]).
  { rewrite <- length_app, app_assoc. apply skipn_past. }
  unfold index_from, slice. rewrite Hskip.
  change (lit "]") with [93].
  rewrite (find_at_char 93 J [] HJ).
  replace (length pre' + length inherited_marker + length J
           - (length pre' + length inherited_marker))%nat
    with (length J) by lia.
  rewrite firstn_exact.
  change (lit ",") with [44].
  f_equal. exact (names_read_back ms Hne Hms [] eq_refl eq_refl).
Qed.

End StoreFacts.

(** X17: from a class context built by the parser for a package and a
    class whose names hold no comma, colon, closing bracket or white
    space, the store reads back that package (the text [None] when there
    is none) and that class name; the metadata it builds carries them
    with the signature, the method name and the dependency types of the
    chunk, and no file path when none is passed, as in Pass 2, although
    the chunk carries one. *)
Theorem store_reads_back_package_and_class :
  forall (depth : nat) (hierarchy_map : hierarchy)
         (package_name class_name : str) (fields : list str)
         (parent_class : option str) (c : chunk) (path : option str),
    JavaCodeParser._format_class_context depth hierarchy_map package_name
      class_name fields parent_class
    = Ok (class_context c) ->
    plain (shown_package package_name) = true ->
    plain class_name = true ->
    package_of (class_context c) = shown_package package_name
    /\ class_name_of (class_context c) = class_name
    /\ forall md,
         extract_metadata c path = Some md ->
         m_package md = shown_package package_name
         /\ m_class_name md = class_name
         /\ m_signature md = method_signature c
         /\ m_method_name md = method_name c
         /\ m_dependencies md = dependency_types c
         /\ (path = None -> m_file_path md = lit "unknown")
         /\ generate_id (m_package md) (m_class_name md) (m_signature md)
            = generate_id (shown_package package_name) class_name
                          (method_signature c).
Proof.
  intros depth hm pkg cls fields parent_class c path Hctx Hpkg Hcls.
  destruct (StoreFacts.format_class_context_shape _ _ _ _ _ _ _ Hctx)
    as [tail Hshape].
  assert (Hp : package_of (class_context c) = shown_package pkg).
  { rewrite Hshape. now apply StoreFacts.package_of_shape. }
  assert (Hc : class_name_of (class_context c) = cls).
  { rewrite Hshape. now apply StoreFacts.class_name_of_shape. }
  split; [exact Hp|]. split; [exact Hc|].
  intros md Hmd. unfold extract_metadata in Hmd.
  destruct (inherited_methods_of (class_context c)) as [inherited|];
    [|discriminate Hmd].
  apply ReturnFacts.Ok_inj_some in Hmd. subst md.
  cbn [m_package m_class_name m_signature m_method_name m_dependencies
       m_file_path].
  rewrite Hp, Hc. repeat (split; [reflexivity|]).
  split; [|reflexivity]. intros ->. reflexivity.
Qed.

Lemma store_reads_back_package_and_class_witness :
  package_of (class_context MoreSamples.dog_chunk) = lit "None"
  /\ class_name_of (class_context MoreSamples.dog_chunk) = lit "Dog"
  /\ forall md,
       extract_metadata MoreSamples.dog_chunk None = Some md ->
       m_file_path md = lit "unknown".
Proof.
  destruct (store_reads_back_package_and_class
              Samples.depth MoreSamples.animal_map (lit "None") (lit "Dog")
              [] (Some (lit "Animal")) MoreSamples.dog_chunk None)
    as [Hp [Hc Hmd]].
  - vm_compute. reflexivity.
  - reflexivity.
  - reflexivity.
  - split; [exact Hp|]. split; [exact Hc|].
    intros md H. destruct (Hmd md H) as [_ [_ [_ [_ [_ [Hf _]]]]]].
    exact (Hf eq_refl).
Defined.

(** X18: from the class context the parser builds for a class with a
    parent whose ancestors record methods, the store reads back exactly
    those inherited methods, in order, provided each is a non-empty name
    without comma, colon, closing bracket or white space and the marker
    of the list does not occur earlier in the context. *)
Theorem store_reads_back_inherited_methods :
  forall (depth : nat) (hierarchy_map : hierarchy)
         (package_name class_name : str) (fields : list str)
         (p : str) (inherited_methods : list str) (c : chunk)
         (path : option str),
    truthy p = true ->
    JavaCodeParser._get_inherited_methods depth hierarchy_map p
    = Ok inherited_methods ->
    inherited_methods <> [] ->
    forallb (fun m => truthy m && plain m) inherited_methods = true ->
    contains inherited_marker
      (JavaCodeParser.base_context package_name class_name fields
         ++ lit ", Extends: " ++ p)
    = false ->
    JavaCodeParser._format_class_context depth hierarchy_map package_name
      class_name fields (Some p)
    = Ok (class_context c) ->
    exists md,
      extract_metadata c path = Some md
      /\ m_inherited_methods md = inherited_methods.
Proof.
  intros depth hm pkg cls fields p ms c path Hp Hms Hne Hplain Hpre Hctx.
  unfold JavaCodeParser._format_class_context in Hctx.
  rewrite Hp, Hms in Hctx. cbn [bind] in Hctx.
  destruct ms as [|m ms]; [congruence|].
  apply ReturnFacts.Ok_inj in Hctx.
  unfold extract_metadata. rewrite <- Hctx.
  rewrite (StoreFacts.inherited_methods_of_shape _ (m :: ms) Hpre Hne
             Hplain).
  eexists. split; reflexivity.
Qed.


Lemma store_reads_back_inherited_methods_witness :
  exists md,
    extract_metadata MoreSamples.dog_chunk None = Some md
    /\ m_inherited_methods md
       = map lit ["eat"; "sleep"; "getName"; "makeSound"].
Proof.
  apply (store_reads_back_inherited_methods
           Samples.depth MoreSamples.animal_map (lit "None") (lit "Dog")
           [] (lit "Animal")
           (map lit ["eat"; "sleep"; "getName"; "makeSound"])
           MoreSamples.dog_chunk None).
  - reflexivity.
  - vm_compute. reflexivity.
  - discriminate.
  - vm_compute. reflexivity.
  - vm_compute. reflexivity.
  - vm_compute. reflexivity.
Defined.

(* ------------------------------------------------------------------ *)
(** ** The text hashed for an identifier *)

Module KeyFacts.

Lemma lor_disjoint (a b : Z) : Z.land a b = 0 -> Z.lor a b = a + b.
Proof. intros H. pose proof (Z.add_lor_land a b) as E. lia. Qed.

Lemma cont_value (c k : Z) :
  0 <= k -> Utf8.cont c k = 128 + (c / 2 ^ k) mod 64.
Proof.
  intros Hk. unfold Utf8.cont.
  rewrite Z.shiftr_div_pow2 by exact Hk.
  change 0x3F with (Z.ones 6).
  rewrite lor_disjoint.
  - now rewrite Z.land_ones by lia.
  - rewrite (Z.land_comm (c / 2 ^ k)), Z.land_assoc. reflexivity.
Qed.

Lemma lead_value (h c k n : Z) :
  0 <= k -> 0 <= n -> 0 <= c < 2 ^ (k + n) ->
  Z.land h (Z.ones n) = 0 ->
  Z.lor h (Z.shiftr c k) = h + c / 2 ^ k.
Proof.
  intros Hk Hn Hc Hh. rewrite Z.shiftr_div_pow2 by exact Hk.
  apply lor_disjoint.
  assert (Hsmall : 0 <= c / 2 ^ k < 2 ^ n).
  { rewrite Z.pow_add_r in Hc by assumption.
    split; [apply Z.div_pos; lia|].
    apply Z.div_lt_upper_bound; lia. }
  rewrite <- (Z.mod_small (c / 2 ^ k) (2 ^ n) Hsmall).
  rewrite <- Z.land_ones by exact Hn.
  rewrite (Z.land_comm (c / 2 ^ k)), Z.land_assoc, Hh. reflexivity.
Qed.

Lemma encode_cp_bytes (c : Z) (bs : list Z) :
  Utf8.encode_cp c = Ok bs ->
  0 <= c < 0x110000 /\ bs = bytes_of c.
Proof.
  unfold Utf8.encode_cp, bytes_of.
  rewrite !cont_value by lia.
  change (2 ^ 0) with 1. change (2 ^ 6) with 64.
  change (2 ^ 12) with 4096. rewrite Z.div_1_r.
  destruct (Z.ltb_spec c 0); [discriminate|].
  destruct (Z.ltb_spec c 0x80).
  { intros E. injection E as <-. split; [lia | reflexivity]. }
  destruct (Z.ltb_spec c 0x800).
  { rewrite (lead_value 0xC0 c 6 5) by (reflexivity || lia).
    intros E. injection E as <-. split; [lia | reflexivity]. }
  destruct (Z.ltb_spec c 0xD800).
  { rewrite (lead_value 0xE0 c 12 4) by (reflexivity || lia).
    destruct (Z.ltb_spec c 0x10000); [|lia].
    intros E. injection E as <-. split; [lia | reflexivity]. }
  destruct (Z.ltb_spec c 0xE000); [discriminate|].
  destruct (Z.ltb_spec c 0x10000).
  { rewrite (lead_value 0xE0 c 12 4) by (reflexivity || lia).
    intros E. injection E as <-. split; [lia | reflexivity]. }
  destruct (Z.ltb_spec c 0x110000); [|discriminate].
  rewrite (lead_value 0xF0 c 18 3) by (reflexivity || lia).
  intros E. injection E as <-. split; [lia | reflexivity].
Qed.

(** No encoding is the beginning of another one. *)
Lemma cons_eq {A : Type} (x y : A) (l m : list A) :
  x :: l = y :: m -> x = y /\ l = m.
Proof. intros H. injection H. auto. Qed.

Lemma bytes_of_prefix_free (c1 c2 : Z) (r1 r2 : list Z) :
  0 <= c1 < 0x110000 -> 0 <= c2 < 0x110000 ->
  bytes_of c1 ++ r1 = bytes_of c2 ++ r2 -> c1 = c2.
Proof.
  intros H1 H2. unfold bytes_of.
  destruct (Z.ltb_spec c1 0x80);
    [|destruct (Z.ltb_spec c1 0x800);
      [|destruct (Z.ltb_spec c1 0x10000)]];
    (destruct (Z.ltb_spec c2 0x80);
     [|destruct (Z.ltb_spec c2 0x800);
       [|destruct (Z.ltb_spec c2 0x10000)]]);
    cbn [app]; intros E;
    repeat match goal with
           | H : _ :: _ = _ :: _ |- _ =>
               apply cons_eq in H; destruct H as [? H]
           end;
    clear E; Z.div_mod_to_equations; lia.
Qed.

Lemma bytes_of_nonempty (c : Z) : bytes_of c <> [].
Proof.
  unfold bytes_of.
  destruct (c <? 0x80); [discriminate|].
  destruct (c <? 0x800); [discriminate|].
  destruct (c <? 0x10000); discriminate.
Qed.

Lemma mapM_encode_injective (s1 : str) :
  forall s2 bs1 bs2,
    mapM Utf8.encode_cp s1 = Ok bs1 ->
    mapM Utf8.encode_cp s2 = Ok bs2 ->
    concat bs1 = concat bs2 -> s1 = s2.
Proof.
  induction s1 as [|c1 s1 IH]; intros s2 bs1 bs2 H1 H2 E.
  - cbn [mapM] in H1. injection H1 as <-.
    destruct s2 as [|c2 s2]; [reflexivity|].
    cbn [mapM] in H2. apply ParseFacts.bind_ok in H2.
    destruct H2 as [b2 [Hb2 H2]]. apply ParseFacts.bind_ok in H2.
    destruct H2 as [t2 [_ H2]]. injection H2 as <-.
    destruct (encode_cp_bytes c2 b2 Hb2) as [_ ->].
    cbn [concat] in E. symmetry in E. apply app_eq_nil in E.
    destruct E as [E _]. now destruct (bytes_of_nonempty c2).
  - cbn [mapM] in H1. apply ParseFacts.bind_ok in H1.
    destruct H1 as [b1 [Hb1 H1]]. apply ParseFacts.bind_ok in H1.
    destruct H1 as [t1 [Ht1 H1]]. injection H1 as <-.
    destruct (encode_cp_bytes c1 b1 Hb1) as [Hc1 ->].
    destruct s2 as [|c2 s2].
    + cbn [mapM] in H2. injection H2 as <-.
      cbn [concat] in E. apply app_eq_nil in E.
      destruct E as [E _]. now destruct (bytes_of_nonempty c1).
    + cbn [mapM] in H2. apply ParseFacts.bind_ok in H2.
      destruct H2 as [b2 [Hb2 H2]]. apply ParseFacts.bind_ok in H2.
      destruct H2 as [t2 [Ht2 H2]]. injection H2 as <-.
      destruct (encode_cp_bytes c2 b2 Hb2) as [Hc2 ->].
      cbn [concat] in E.
      pose proof (bytes_of_prefix_free c1 c2 _ _ Hc1 Hc2 E) as Hc.
      subst c2. apply app_inv_head in E.
      f_equal. exact (IH s2 t1 t2 Ht1 Ht2 E).
Qed.

Lemma encode_injective (s1 s2 : str) (bytes : list Z) :
  Utf8.encode s1 = Ok bytes -> Utf8.encode s2 = Ok bytes -> s1 = s2.
Proof.
  unfold Utf8.encode. intros H1 H2.
  apply ParseFacts.bind_ok in H1. destruct H1 as [bs1 [Hb1 H1]].
  apply ParseFacts.bind_ok in H2. destruct H2 as [bs2 [Hb2 H2]].
  injection H1 as <-. injection H2 as E.
  exact (mapM_encode_injective s1 s2 bs1 bs2 Hb1 Hb2 (eq_sym E)).
Qed.

(** Text cut at its first occurrence of a character. *)
Lemma cut_at_first (c : Z) (a1 : str) :
  forall a2 r1 r2,
    existsb (Z.eqb c) a1 = false -> existsb (Z.eqb c) a2 = false ->
    a1 ++ c :: r1 = a2 ++ c :: r2 -> a1 = a2 /\ r1 = r2.
Proof.
  induction a1 as [|x a1 IH]; intros a2 r1 r2 H1 H2 E.
  - destruct a2 as [|y a2].
    + injection E as ->. auto.
    + cbn [app] in E. injection E as <- _. cbn [existsb] in H2.
      rewrite Z.eqb_refl in H2. discriminate H2.
  - destruct a2 as [|y a2].
    + cbn [app] in E. injection E as -> _. cbn [existsb] in H1.
      rewrite Z.eqb_refl in H1. discriminate H1.
    + cbn [app] in E. injection E as <- E.
      cbn [existsb] in H1, H2.
      apply orb_false_elim in H1. apply orb_false_elim in H2.
      destruct (IH a2 r1 r2 (proj2 H1) (proj2 H2) E) as [-> ->]. auto.
Qed.

Lemma existsb_rev (c : Z) (s : str) :
  existsb (Z.eqb c) (rev s) = existsb (Z.eqb c) s.
Proof.
  induction s as [|x s IH]; [reflexivity|].
  cbn [rev existsb]. rewrite existsb_app, IH. cbn [existsb].
  rewrite orb_false_r. apply orb_comm.
Qed.

Lemma key_split (c1 s1 c2 s2 : str) :
  existsb (Z.eqb 58) s1 = false -> existsb (Z.eqb 58) s2 = false ->
  c1 ++ lit "::" ++ s1 = c2 ++ lit "::" ++ s2 ->
  c1 = c2 /\ s1 = s2.
Proof.
  intros H1 H2 E. apply (f_equal (@rev Z)) in E.
  rewrite !rev_app_distr in E. change (rev (lit "::")) with [58; 58] in E.
  rewrite <- !app_assoc in E. cbn [app] in E.
  rewrite <- existsb_rev in H1, H2.
  destruct (cut_at_first 58 (rev s1) (rev s2) _ _ H1 H2 E) as [Hs Hc].
  injection Hc as Hc.
  apply (f_equal (@rev Z)) in Hs, Hc. rewrite !rev_involutive in Hs, Hc.
  auto.
Qed.

End KeyFacts.

(** X19: the bytes hashed for an identifier determine the text they
    encode: two chunks whose identifiers are digests of the same bytes
    have, within one class context, the same signature, and, when neither
    signature holds a colon, the same class context and the same
    signature.  Overloads of a class, whose signatures differ, are thus
    hashed from different bytes. *)
Theorem hashed_bytes_determine_context_and_signature :
  forall (context1 signature1 context2 signature2 : str)
         (bytes : list Z),
    Utf8.encode (context1 ++ lit "::" ++ signature1) = Ok bytes ->
    Utf8.encode (context2 ++ lit "::" ++ signature2) = Ok bytes ->
    _generate_method_id context1 signature1
    = _generate_method_id context2 signature2
    /\ (context1 = context2 -> signature1 = signature2)
    /\ (existsb (Z.eqb 58) signature1 = false ->
        existsb (Z.eqb 58) signature2 = false ->
        context1 = context2 /\ signature1 = signature2).
Proof.
  intros c1 s1 c2 s2 bytes H1 H2.
  pose proof (KeyFacts.encode_injective _ _ _ H1 H2) as E.
  split; [|split].
  - unfold _generate_method_id. now rewrite H1, H2.
  - intros ->. apply app_inv_head in E. now apply app_inv_head in E.
  - intros Hs1 Hs2. exact (KeyFacts.key_split c1 s1 c2 s2 Hs1 Hs2 E).
Qed.

Lemma hashed_bytes_determine_context_and_signature_witness :
  _generate_method_id (lit "a::b") (lit "c")
  = _generate_method_id (lit "a") (lit "b::c").
Proof.
  destruct (Utf8.encode (lit "a::b" ++ lit "::" ++ lit "c"))
    as [bytes|e] eqn:H; [|vm_compute in H; discriminate H].
  apply (hashed_bytes_determine_context_and_signature
           (lit "a::b") (lit "c") (lit "a") (lit "b::c") bytes H).
  rewrite <- H. vm_compute. reflexivity.
Defined.

(* ------------------------------------------------------------------ *)
(** ** The sizes of the batches *)

Section BatchFacts.

Variable parse_file : str -> result (list chunk).
Variables E S : Type.
Variable enrich_batch : E -> list chunk -> result (list chunk) * E.
Variable add_batch : S -> list chunk -> result unit * S.
Variable batch_size : Z.

Lemma flush_buffer_calls (b : list chunk) (w : world E S) :
  calls (snd (flush_buffer enrich_batch b w))
  = calls w
    ++ match b with
       | [] => []
       | _ => [Enrich b (fst (enrich_batch (enricher w) b))]
       end.
Proof.
  unfold flush_buffer. destruct b as [|c b]; [now rewrite app_nil_r|].
  destruct (enrich_batch (enricher w) (c :: b)) as [[r|e] e'];
    cbn [fst snd]; [reflexivity|].
  match goal with
  | |- calls (log_chunks ?l ?x ?v) = _ =>
      destruct (log_chunks_frame E S l x v) as [_ [_ [_ H4]]]
  end.
  now rewrite H4.
Qed.

Lemma write_calls (l : list chunk) (w : world E S) :
  calls (_write_to_db_sequential add_batch l w)
  = calls w
    ++ match l with
       | [] => []
       | _ => [Write l (fst (add_batch (vector_store w) l))]
       end.
Proof.
  unfold _write_to_db_sequential. destruct l as [|c l];
    [now rewrite app_nil_r|].
  destruct (add_batch (vector_store w) (c :: l)) as [[u|e] s'];
    cbn [fst]; [reflexivity|].
  match goal with
  | |- calls (log_chunks ?l ?x ?v) = _ =>
      destruct (log_chunks_frame E S l x v) as [_ [_ [_ H4]]]
  end.
  now rewrite H4.
Qed.

(** The calls of one iteration are made on full batches. *)
Lemma process_file_full (ls : loop_state E S) (f : str) :
  exists new,
    calls (the_world (process_file parse_file enrich_batch add_batch
                                   batch_size ls f))
    = calls (the_world ls) ++ new
    /\ Forall (full_batch batch_size) new.
Proof.
  unfold process_file. destruct (parse_file f) as [chunks|e].
  - set (buf := buffer ls ++ tag_chunks f chunks).
    set (w1 := with_stats _ (the_world ls)).
    destruct (Z.of_nat (length buf) >=? batch_size) eqn:Eb.
    + rewrite Z.geb_leb in Eb. apply Z.leb_le in Eb.
      pose proof (flush_buffer_calls buf w1) as Hf.
      destruct (flush_buffer enrich_batch buf w1) as [enriched w2].
      cbn [snd] in Hf.
      assert (Hfull : Forall (full_batch batch_size)
                        match buf with
                        | [] => []
                        | _ => [Enrich buf
                                  (fst (enrich_batch (enricher w1) buf))]
                        end).
      { destruct buf; constructor; [exact Eb | constructor]. }
      destruct (Z.of_nat (length (all_enriched_chunks ls ++ enriched))
                >=? batch_size * 5) eqn:Ea.
      * rewrite Z.geb_leb in Ea. apply Z.leb_le in Ea.
        cbn [the_world]. rewrite write_calls, Hf, <- app_assoc.
        eexists. split; [reflexivity|].
        apply Forall_app. split; [exact Hfull|].
        destruct (all_enriched_chunks ls ++ enriched);
          constructor; [exact Ea | constructor].
      * cbn [the_world]. rewrite Hf. eexists. split; [reflexivity|].
        exact Hfull.
    + exists []. cbn [the_world]. subst w1. cbn [with_stats calls].
      rewrite app_nil_r. split; [reflexivity | constructor].
  - exists []. cbn [the_world with_stats log_error calls].
    rewrite app_nil_r. split; [reflexivity | constructor].
Qed.

Lemma iterate_full (files : list str) (ls : loop_state E S) :
  exists new,
    calls (the_world
             (fold_left (process_file parse_file enrich_batch add_batch
                                      batch_size) files ls))
    = calls (the_world ls) ++ new
    /\ Forall (full_batch batch_size) new.
Proof.
  revert ls. induction files as [|f files IH]; intros ls.
  - exists []. cbn. rewrite app_nil_r. auto.
  - cbn [fold_left].
    destruct (process_file_full ls f) as [n1 [H1 F1]].
    destruct (IH (process_file parse_file enrich_batch add_batch
                               batch_size ls f)) as [n2 [H2 F2]].
    exists (n1 ++ n2). rewrite H2, H1, <- app_assoc.
    split; [reflexivity | now apply Forall_app].
Qed.

Lemma drain_calls (ls : loop_state E S) :
  exists last,
    calls (drain enrich_batch add_batch ls)
    = calls (the_world ls) ++ last
    /\ (length (enrich_inputs last) <= 1)%nat
    /\ (length (write_inputs last) <= 1)%nat.
Proof.
  unfold drain.
  assert (Hflush :
            match buffer ls with
            | [] => ([], the_world ls)
            | _ => flush_buffer enrich_batch (buffer ls) (the_world ls)
            end = flush_buffer enrich_batch (buffer ls) (the_world ls)).
  { unfold flush_buffer. now destruct (buffer ls). }
  rewrite Hflush.
  pose proof (flush_buffer_calls (buffer ls) (the_world ls)) as Hf.
  destruct (flush_buffer enrich_batch (buffer ls) (the_world ls))
    as [enriched w1].
  cbn [snd] in Hf.
  assert (Hwrite :
            match all_enriched_chunks ls ++ enriched with
            | [] => w1
            | _ => _write_to_db_sequential add_batch
                     (all_enriched_chunks ls ++ enriched) w1
            end = _write_to_db_sequential add_batch
                    (all_enriched_chunks ls ++ enriched) w1).
  { unfold _write_to_db_sequential.
    now destruct (all_enriched_chunks ls ++ enriched). }
  rewrite Hwrite, write_calls, Hf, <- app_assoc.
  eexists. split; [reflexivity|].
  rewrite enrich_inputs_app, write_inputs_app, !length_app.
  destruct (buffer ls); destruct (all_enriched_chunks ls ++ enriched);
    cbn; lia.
Qed.

End BatchFacts.

(** X20: every buffer handed to the enricher during the loop of Pass 2
    holds at least [batch_size] chunks and every batch handed to the
    store during the loop at least five times as many; they are followed
    by at most one call of each kind, made after the loop on what is
    left. *)
Theorem pass2_batches_are_full_until_the_end :
  forall (parse_file : str -> result (list chunk)) (E S : Type)
         (enrich_batch : E -> list chunk -> result (list chunk) * E)
         (add_batch : S -> list chunk -> result unit * S)
         (batch_size : Z) (java_files : list str) (w : world E S),
    exists during last : list call,
      calls (phase2_ingestion_loop parse_file enrich_batch add_batch
                                   batch_size java_files w)
      = calls w ++ during ++ last
      /\ Forall (full_batch batch_size) during
      /\ (length (enrich_inputs last) <= 1)%nat
      /\ (length (write_inputs last) <= 1)%nat.
Proof.
  intros parse_file E S enrich_batch add_batch batch_size files w.
  unfold phase2_ingestion_loop, run_loop.
  destruct (iterate_full parse_file E S enrich_batch add_batch batch_size
              files (loop_start files w)) as [during [Hd Hfull]].
  destruct (drain_calls E S enrich_batch add_batch
              (fold_left (process_file parse_file enrich_batch add_batch
                                       batch_size) files
                         (loop_start files w)))
    as [last [Hl [He Hw]]].
  exists during, last. rewrite Hl, Hd, <- app_assoc. auto.
Qed.

(* ------------------------------------------------------------------ *)
(** ** Parameters and their types *)

Module ParameterFacts.
Import JavaCodeParser.

Lemma scan_param_together (source_code : str) (child : node)
    (parameters parameter_types : list str) :
  Forall2 parameter_of_type parameters parameter_types ->
  Forall2 parameter_of_type
    (fst (scan_param source_code (parameters, parameter_types) child))
    (snd (scan_param source_code (parameters, parameter_types) child)).
Proof.
  intros H. unfold scan_param.
  destruct (has_type "formal_parameter" child); [|exact H].
  destruct (fold_left (scan_param_child source_code) (children child)
                      (None, None)) as [param_type param_name].
  cbn [fst snd].
  destruct param_type as [ty|]; [|exact H].
  destruct (truthy ty) eqn:Hty; [|exact H].
  assert (G : forall p,
             parameter_of_type p (clean_type ty) ->
             Forall2 parameter_of_type (parameters ++ [p])
                     (parameter_types ++ [clean_type ty])).
  { intros p Hp. apply Forall2_app; [exact H|].
    constructor; [exact Hp | constructor]. }
  destruct param_name as [name|]; [destruct (truthy name) eqn:Hn|];
    apply G; exists ty; (split; [exact Hty|]); (split; [reflexivity|]).
  - right. now exists name.
  - now left.
  - now left.
Qed.

Lemma scan_params_together (source_code : str) (l : list node)
    (acc : list str * list str) :
  Forall2 parameter_of_type (fst acc) (snd acc) ->
  Forall2 parameter_of_type
    (fst (fold_left (scan_param source_code) l acc))
    (snd (fold_left (scan_param source_code) l acc)).
Proof.
  revert acc. induction l as [|c l IH]; intros [ps ts] H; [exact H|].
  cbn [fold_left]. apply IH.
  destruct (scan_param source_code (ps, ts) c) as [ps' ts'] eqn:E.
  pose proof (scan_param_together source_code c ps ts H) as H'.
  now rewrite E in H'.
Qed.

End ParameterFacts.

(** X21: the formatted parameters and the parameter types of a parameter
    list go together: they are equally many, and the type recorded at a
    position is the cleaned form of the non-empty declared type with which
    the parameter at that position begins, the parameter being that type
    alone or the type, a space and the name.  A formal parameter without
    a type contributes to neither list. *)
Theorem parameters_and_types_go_together :
  forall (formal_params_node : node) (source_code : str),
    Forall2 parameter_of_type
      (_extract_parameters formal_params_node source_code)
      (snd (JavaCodeParser._extract_parameters_with_types
              formal_params_node source_code))
    /\ length (_extract_parameters formal_params_node source_code)
       = length (JavaCodeParser.parameter_types_of source_code
                                                   formal_params_node).
Proof.
  intros n src.
  assert (H : Forall2 parameter_of_type
                (_extract_parameters n src)
                (snd (JavaCodeParser._extract_parameters_with_types n src))).
  { unfold _extract_parameters,
           JavaCodeParser._extract_parameters_with_types.
    apply (ParameterFacts.scan_params_together src (children n) ([], [])).
    constructor. }
  split; [exact H|].
  rewrite (Forall2_length H), DependencyFacts.extract_parameter_types.
  apply length_map.
Qed.


(* ------------------------------------------------------------------ *)
(** ** What the code reads and what the source declares *)

Module JavaFacts.
Import JavaCodeParser.

(** *** ASCII sources *)

Lemma ascii_Forall (s : str) :
  Java.ascii s = true <-> Forall (fun c => 0 <= c < 128) s.
Proof.
  unfold Java.ascii. rewrite forallb_forall, Forall_forall.
  split; intros H c Hc.
  - specialize (H c Hc). apply andb_prop in H. lia.
  - specialize (H c Hc). apply andb_true_intro. lia.
Qed.

Lemma ascii_slice (s : str) (a b : nat) :
  Java.ascii s = true -> Java.ascii (slice s a b) = true.
Proof.
  rewrite !ascii_Forall. apply StringFacts.slice_ok.
Qed.


(** ASCII text is its own encoding. *)
Lemma encode_ascii (s : str) :
  Java.ascii s = true -> Utf8.encode s = Ok s.
Proof.
  rewrite ascii_Forall. intros H. unfold Utf8.encode.
  assert (G : mapM Utf8.encode_cp s = Ok (map (fun c => [c]) s)).
  { induction H as [|c s Hc _ IH]; [reflexivity|].
    cbn [mapM map]. rewrite IH.
    unfold Utf8.encode_cp.
    destruct (c <? 0) eqn:E0; [lia|].
    destruct (c <? 128) eqn:E1; [|lia]. reflexivity. }
  rewrite G. cbn [bind]. f_equal.
  clear. induction s as [|c s IH]; [reflexivity|].
  cbn [map concat app]. now rewrite IH.
Qed.

(** On an ASCII source the slice of a node of the tree is its text. *)
Lemma slice_is_text (source_code : str) (root_node n : node) :
  Java.ascii source_code = true ->
  Java.tree_of source_code root_node = true ->
  In n (subnodes root_node) ->
  src_text source_code n = text n.
Proof.
  intros Ha Ht Hn. unfold Java.tree_of in Ht.
  rewrite (encode_ascii _ Ha) in Ht.
  rewrite forallb_forall in Ht. specialize (Ht n Hn).
  destruct (Utf8.encode (text n)) as [b|e] eqn:E; [|discriminate].
  apply str_eqb_eq in Ht. subst b.
  unfold src_text. symmetry.
  apply (KeyFacts.encode_injective _ _ _ E).
  apply encode_ascii. now apply ascii_slice.
Qed.

Lemma child_subnode (n c : node) : In c (children n) -> In c (subnodes n).
Proof.
  destruct n as [t a b tx cs]. cbn [children subnodes]. intros H.
  right. apply in_flat_map. exists c. split; [assumption|].
  apply TreeFacts.subnodes_self.
Qed.

Lemma grandchild_subnode (n c g : node) :
  In c (children n) -> In g (children c) -> In g (subnodes n).
Proof.
  intros Hc Hg. apply (TreeFacts.subnodes_trans n c g).
  - now apply child_subnode.
  - now apply child_subnode.
Qed.



(** *** Searches *)

Lemma find_first {A : Type} (p : A -> bool) (before after : list A) (x : A) :
  p x = true -> (forall c, In c before -> p c = false) ->
  find p (before ++ x :: after) = Some x.
Proof.
  intros Hx Hb. induction before as [|c before IH]; cbn [app find].
  - now rewrite Hx.
  - rewrite (Hb c (or_introl eq_refl)). apply IH.
    intros c' Hc'. apply Hb. now right.
Qed.


Lemma existsb_flat_map {A B : Type} (f : B -> bool) (g : A -> list B)
    (l : list A) :
  existsb f (flat_map g l) = existsb (fun a => existsb f (g a)) l.
Proof.
  induction l as [|x l IH]; [reflexivity|].
  cbn [flat_map existsb]. now rewrite existsb_app, IH.
Qed.

Lemma existsb_filter {A : Type} (f p : A -> bool) (l : list A) :
  existsb f (filter p l) = existsb (fun a => p a && f a) l.
Proof.
  induction l as [|x l IH]; [reflexivity|].
  cbn [filter existsb]. destruct (p x); cbn [existsb andb orb];
    now rewrite IH.
Qed.

Lemma existsb_ext_in {A : Type} (f g : A -> bool) (l : list A) :
  (forall a, In a l -> f a = g a) -> existsb f l = existsb g l.
Proof.
  induction l as [|x l IH]; intros H; [reflexivity|].
  cbn [existsb]. rewrite (H x (or_introl eq_refl)), IH; [reflexivity|].
  intros a Ha. apply H. now right.
Qed.

Lemma first_some_app {A B : Type} (f : A -> option B) (l1 l2 : list A) :
  first_some f (l1 ++ l2)
  = match first_some f l1 with
    | Some b => Some b
    | None => first_some f l2
    end.
Proof.
  induction l1 as [|x l1 IH]; [reflexivity|].
  cbn [app first_some]. destruct (f x); [reflexivity | exact IH].
Qed.

(** A search below the children that pass a guard. *)
Lemma first_some_below {B : Type} (q : node -> bool)
    (f : node -> option B) (l : list node) :
  first_some (fun c => if q c then first_some f (children c) else None) l
  = first_some f (flat_map children (filter q l)).
Proof.
  induction l as [|x l IH]; [reflexivity|].
  cbn [first_some filter]. destruct (q x); [|exact IH].
  cbn [flat_map]. rewrite first_some_app, IH. reflexivity.
Qed.

(** *** Modifiers *)

(** What a [modifiers] child says of the modifier [public]. *)
Lemma modifiers_public (m c : node) :
  Java.plain_modifiers m = true ->
  In c (children m) ->
  has_type "modifiers" c = true ->
  contains (lit "public") (text c)
  = existsb (has_type "public") (children c).
Proof.
  unfold Java.plain_modifiers. rewrite forallb_forall.
  intros H Hc Ht. apply eqb_prop. apply H.
  apply filter_In. now split.
Qed.

Lemma is_public_children (m : node) :
  Java.is_public m
  = existsb (fun c => has_type "modifiers" c
                      && existsb (has_type "public") (children c))
            (children m).
Proof.
  unfold Java.is_public, Java.modifiers_of.
  now rewrite existsb_flat_map, existsb_filter.
Qed.

(** The scanner's test. *)
Lemma scanner_public (source_code : str) (m : node) :
  (forall c, In c (children m) -> src_text source_code c = text c) ->
  Java.plain_modifiers m = true ->
  existsb (HierarchyScanner.is_public_modifiers source_code) (children m)
  = Java.is_public m.
Proof.
  intros Hal Hpl. rewrite is_public_children.
  apply existsb_ext_in. intros c Hc.
  unfold HierarchyScanner.is_public_modifiers.
  destruct (has_type "modifiers" c) eqn:Ht; [|reflexivity].
  cbn [andb]. rewrite (Hal c Hc).
  now apply (modifiers_public m).
Qed.


(** *** Names *)

Lemma last_identifier_find (l : list node) :
  HierarchyScanner.last_identifier l
  = option_map text (find (has_type "identifier") (rev l)).
Proof.
  unfold HierarchyScanner.last_identifier.
  apply ChunkFacts.first_some_find.
Qed.

Lemma declared_name_is_name (m : node) :
  HierarchyScanner.declared_name m = Java.name_of m.
Proof.
  unfold HierarchyScanner.declared_name, Java.name_of.
  rewrite last_identifier_find.
  now destruct (find (has_type "identifier") (rev (children m))).
Qed.

Lemma declares_public_method_java (source_code : str) (m : node) :
  (forall c, In c (children m) -> src_text source_code c = text c) ->
  (has_type "method_declaration" m = true ->
   Java.plain_modifiers m = true) ->
  HierarchyScanner.declares_public_method source_code m
  = Java.public_method m.
Proof.
  intros Hal Hpl.
  unfold HierarchyScanner.declares_public_method, Java.public_method.
  destruct (has_type "method_declaration" m) eqn:Ht; [|reflexivity].
  rewrite (scanner_public source_code m Hal (Hpl eq_refl)).
  cbn [andb]. f_equal.
  unfold Java.name_of. rewrite last_identifier_find.
  now destruct (find (has_type "identifier") (rev (children m))).
Qed.

(** *** The parent of a class *)

Lemma upto_app (stop : Z) (a b : str) :
  existsb (Z.eqb stop) a = false ->
  Java.upto stop (a ++ stop :: b) = a.
Proof.
  induction a as [|x a IH]; intros H.
  - cbn. now rewrite Z.eqb_refl.
  - cbn [existsb] in H. apply orb_false_elim in H. destruct H as [Hx Ha].
    cbn [app Java.upto]. rewrite Z.eqb_sym, Hx. now rewrite IH.
Qed.

Lemma upto_none (stop : Z) (a : str) :
  existsb (Z.eqb stop) a = false -> Java.upto stop a = a.
Proof.
  induction a as [|x a IH]; intros H; [reflexivity|].
  cbn [existsb] in H. apply orb_false_elim in H. destruct H as [Hx Ha].
  cbn [Java.upto]. rewrite Z.eqb_sym, Hx. now rewrite IH.
Qed.

Lemma cut_at (stop : Z) (s : str) :
  (existsb (Z.eqb stop) s = false)
  \/ (exists a b, s = a ++ stop :: b /\ existsb (Z.eqb stop) a = false).
Proof.
  induction s as [|x s IH]; [now left|].
  cbn [existsb]. destruct (stop =? x) eqn:E.
  - right. apply Z.eqb_eq in E. subst x. exists [], s. auto.
  - destruct IH as [IH | [a [b [-> Ha]]]]; [now left|].
    right. exists (x :: a), b. cbn [existsb app]. rewrite E. auto.
Qed.

Lemma contains_char (c : Z) (s : str) :
  contains [c] s = existsb (Z.eqb c) s.
Proof.
  induction s as [|x s IH]; [reflexivity|].
  cbn [contains startswith existsb]. rewrite IH.
  now rewrite andb_true_r.
Qed.

(** Cutting the generic arguments: the text up to the first [<]. *)
Lemma generics_cut (s : str) :
  (if contains (lit "<") s then hd [] (split (lit "<") s) else s)
  = Java.upto 60 s.
Proof.
  change (lit "<") with [60]. rewrite contains_char.
  destruct (cut_at 60 s) as [H | [a [b [-> Ha]]]].
  - rewrite H. now rewrite upto_none.
  - rewrite existsb_app. cbn [existsb]. rewrite Z.eqb_refl, orb_true_r.
    rewrite StoreStrings.split_char_first by exact Ha.
    cbn [hd]. now rewrite upto_app.
Qed.

Lemma option_map_ext_find {A B : Type} (p : A -> bool) (f g : A -> B)
    (l : list A) :
  (forall a, In a l -> f a = g a) ->
  option_map f (find p l) = option_map g (find p l).
Proof.
  intros H. destruct (find p l) as [a|] eqn:E; [|reflexivity].
  cbn. f_equal. apply H. now apply (find_some p l).
Qed.

(** On aligned text the parent read by the code is the parent the class
    declares. *)
Lemma parent_class_java (source_code : str) (class_node : node) :
  (forall c g, In c (children class_node) -> In g (children c) ->
               src_text source_code g = text g) ->
  _get_parent_class class_node source_code = Java.parent_of class_node.
Proof.
  intros Hal. unfold _get_parent_class, Java.parent_of,
                Java.superclass_type.
  rewrite (first_some_below (has_type "superclass")).
  rewrite (ChunkFacts.first_some_find
             (type_in ["type_identifier"; "generic_type";
                       "scoped_type_identifier"])
             (fun n => strip (if contains (lit "<") (src_text source_code n)
                              then hd [] (split (lit "<")
                                            (src_text source_code n))
                              else src_text source_code n))).
  rewrite (option_map_ext_find _ _
             (fun t => strip (Java.upto 60 (text t)))).
  - now destruct (find _ _).
  - intros g Hg. apply in_flat_map in Hg. destruct Hg as [c [Hc Hg]].
    apply filter_In in Hc. destruct Hc as [Hc _].
    rewrite generics_cut. now rewrite (Hal c g Hc Hg).
Qed.

(** *** The lookup in the map *)

Lemma startswith_prefix (p s : str) :
  startswith p s = true <-> exists r, s = p ++ r.
Proof.
  revert s. induction p as [|x p IH]; intros s.
  - split; [intros _; now exists s | reflexivity].
  - destruct s as [|y s]; cbn [startswith].
    + split; [discriminate | intros [r Hr]; discriminate Hr].
    + rewrite andb_true_iff, Z.eqb_eq, IH. split.
      * intros [-> [r ->]]. now exists r.
      * intros [r Hr]. injection Hr as -> ->. split; [reflexivity|].
        now exists r.
Qed.

Lemma endswith_suffix (p s : str) :
  endswith p s = true <-> exists q, s = q ++ p.
Proof.
  unfold endswith. rewrite startswith_prefix. split.
  - intros [r Hr]. exists (rev r).
    apply (f_equal (@rev Z)) in Hr.
    rewrite rev_involutive, rev_app_distr, rev_involutive in Hr.
    exact Hr.
  - intros [q ->]. exists (rev q). now rewrite rev_app_distr.
Qed.

(** The test of the loop over the entries. *)
Lemma goes_by_test (p : str) (e : str * class_info) :
  str_eqb (simple_name (snd e)) p || endswith (lit "." ++ p) (fst e) = true
  <-> Java.goes_by p e.
Proof.
  unfold Java.goes_by, Java.ends_in_dot.
  rewrite orb_true_iff, str_eqb_eq, endswith_suffix. tauto.
Qed.

Lemma dict_get_none {V : Type} (k : str) (d : dict V) :
  dict_get k d = None <-> (forall e, In e d -> fst e <> k).
Proof.
  induction d as [|[k' v] d IH]; cbn [dict_get].
  - split; [intros _ e [] | reflexivity].
  - destruct (str_eqb k k') eqn:E.
    + apply str_eqb_eq in E. subst k'. split; [discriminate|].
      intros H. now destruct (H (k, v) (or_introl eq_refl)).
    + apply str_eqb_neq in E. rewrite IH. split.
      * intros H e [<- | He]; [cbn; congruence | now apply H].
      * intros H e He. apply H. now right.
Qed.

Lemma dict_get_first {V : Type} (k : str) (v : V) (before after : dict V) :
  (forall e, In e before -> fst e <> k) ->
  dict_get k (before ++ (k, v) :: after) = Some v.
Proof.
  intros H. induction before as [|[k' v'] before IH]; cbn [app dict_get].
  - now rewrite str_eqb_refl.
  - assert (E : str_eqb k k' = false).
    { apply str_eqb_neq. intros ->.
      now apply (H (k', v') (or_introl eq_refl)). }
    rewrite E. apply IH. intros e He. apply H. now right.
Qed.

Lemma dict_get_split {V : Type} (k : str) (v : V) (d : dict V) :
  dict_get k d = Some v ->
  exists before after,
    d = before ++ (k, v) :: after
    /\ (forall e, In e before -> fst e <> k).
Proof.
  induction d as [|[k' v'] d IH]; cbn [dict_get]; [discriminate|].
  destruct (str_eqb k k') eqn:E.
  - intros H. injection H as ->. apply str_eqb_eq in E. subst k'.
    exists [], d. split; [reflexivity | intros e []].
  - intros H. destruct (IH H) as [before [after [-> Hb]]].
    exists ((k', v') :: before), after. split; [reflexivity|].
    intros e [<- | He]; [|now apply Hb].
    cbn [fst]. apply str_eqb_neq in E. congruence.
Qed.

#[warnings="-inconsistent-scopes"]
Local Abbreviation by_name p :=
  (fun entry : str * class_info =>
     let (class_name, info) := entry in
     if str_eqb (simple_name info) p
        || endswith (lit "." ++ p) class_name
     then Some info else None).

Lemma by_name_test (p : str) (e : str * class_info) :
  by_name p e
  = if str_eqb (simple_name (snd e)) p || endswith (lit "." ++ p) (fst e)
    then Some (snd e) else None.
Proof. now destruct e. Qed.

Lemma by_name_none (p : str) (l : hierarchy) :
  first_some (by_name p) l = None
  <-> (forall e, In e l -> ~ Java.goes_by p e).
Proof.
  induction l as [|e l IH]; cbn [first_some].
  - split; [intros _ e [] | reflexivity].
  - rewrite by_name_test.
    destruct (str_eqb (simple_name (snd e)) p
              || endswith (lit "." ++ p) (fst e)) eqn:E.
    + split; [discriminate|]. intros H.
      destruct (H e (or_introl eq_refl)). now apply goes_by_test.
    + rewrite IH. split.
      * intros H e' [<- | He']; [|now apply H].
        rewrite <- goes_by_test, E. discriminate.
      * intros H e' He'. apply H. now right.
Qed.

Lemma by_name_first (p : str) (before after : hierarchy)
    (e : str * class_info) :
  Java.goes_by p e ->
  (forall e', In e' before -> ~ Java.goes_by p e') ->
  first_some (by_name p) (before ++ e :: after) = Some (snd e).
Proof.
  intros He Hb. rewrite first_some_app.
  rewrite (proj2 (by_name_none p before) Hb).
  cbn [first_some]. rewrite by_name_test.
  now rewrite (proj2 (goes_by_test p e) He).
Qed.

Lemma by_name_split (p : str) (l : hierarchy) (info : class_info) :
  first_some (by_name p) l = Some info ->
  exists before e after,
    l = before ++ e :: after /\ snd e = info /\ Java.goes_by p e
    /\ (forall e', In e' before -> ~ Java.goes_by p e').
Proof.
  induction l as [|e l IH]; cbn [first_some]; [discriminate|].
  rewrite by_name_test.
  destruct (str_eqb (simple_name (snd e)) p
            || endswith (lit "." ++ p) (fst e)) eqn:E.
  - intros H. injection H as <-. exists [], e, l.
    split; [reflexivity|]. split; [reflexivity|].
    split; [now apply goes_by_test | intros e' []].
  - intros H. destruct (IH H) as [before [e0 [after [-> [Hs [Hg Hb]]]]]].
    exists (e :: before), e0, after. split; [reflexivity|].
    split; [assumption|]. split; [assumption|].
    intros e' [<- | He']; [|now apply Hb].
    rewrite <- goes_by_test, E. discriminate.
Qed.

(** The lookup of the code follows the rule. *)
Lemma lookup_parent_resolves (hm : hierarchy) (p : str)
    (info : class_info) :
  lookup_parent hm p = Some info <-> Java.resolves hm p info.
Proof.
  unfold lookup_parent. split.
  - destruct (dict_get p hm) as [i|] eqn:E.
    + intros H. injection H as ->.
      destruct (dict_get_split p info hm E) as [before [after [-> Hb]]].
      now apply (Java.resolves_key _ p before after info).
    + intros H.
      destruct (by_name_split p hm info H)
        as [before [e [after [Hhm [<- [Hg Hb]]]]]].
      apply (Java.resolves_name hm p before after e); auto.
      now apply dict_get_none.
  - intros [before after i Hhm Hb | before after e Hno Hhm Hg Hb].
    + subst hm. now rewrite dict_get_first.
    + rewrite (proj2 (dict_get_none p hm) Hno).
      subst hm. now apply by_name_first.
Qed.

Lemma lookup_parent_unknown (hm : hierarchy) (p : str) :
  lookup_parent hm p = None <-> Java.unknown hm p.
Proof.
  unfold lookup_parent, Java.unknown. split.
  - destruct (dict_get p hm) as [i|] eqn:E; [discriminate|].
    intros H e He. split.
    + now apply (proj1 (dict_get_none p hm) E).
    + now apply (proj1 (by_name_none p hm) H).
  - intros H.
    rewrite (proj2 (dict_get_none p hm)) by (intros e He; now apply H).
    apply by_name_none. intros e He. now apply H.
Qed.

(** The lineage of a name is the chain the code walks. *)
Lemma lineage_ancestors (hm : hierarchy) (p : str)
    (chain : list class_info) :
  Java.lineage hm p chain <-> ancestors hm p chain.
Proof.
  split.
  - induction 1 as [p Hu | p info Hr Hroot | p g info chain Hr Hg Hne _ IH].
    + apply ancestors_unknown. now apply lookup_parent_unknown.
    + apply ancestors_last; [now apply lookup_parent_resolves|].
      destruct Hroot as [-> | ->]; reflexivity.
    + apply (ancestors_next hm p g info chain); auto.
      * now apply lookup_parent_resolves.
      * destruct g; [congruence | reflexivity].
  - induction 1 as [p Hu | p info Hr Hroot | p g info chain Hr Hg Hne _ IH].
    + apply Java.lineage_unknown. now apply lookup_parent_unknown.
    + apply Java.lineage_root; [now apply lookup_parent_resolves|].
      destruct (parent info) as [[|c g]|]; auto. discriminate Hroot.
    + apply (Java.lineage_step hm p g info chain); auto.
      * now apply lookup_parent_resolves.
      * intros ->. discriminate Hne.
Qed.

(** *** Bodies *)










(** *** Declarations and their chunks *)









End JavaFacts.
(* ------------------------------------------------------------------ *)
(** ** Where Pass 1 writes and what the parser loads *)

Module Phase1Facts.

Lemma longer_differs (a b : str) : a <> [] -> a ++ b <> b.
Proof.
  intros Ha E. apply (f_equal (@length Z)) in E.
  rewrite length_app in E. destruct a; [congruence|].
  cbn [length] in E. lia.
Qed.

(** Below a root other than [.] that does not end in a separator, the
    hierarchy file is the root, a separator and the name. *)
Lemma hierarchy_file_below (root_path : str) :
  str_eqb root_path (lit ".") = false ->
  endswith (lit "/") root_path = false ->
  hierarchy_file_of root_path
  = root_path ++ lit "/" ++ lit "project_hierarchy.json".
Proof.
  unfold hierarchy_file_of, FS.joinpath. intros -> ->.
  change (FS.is_absolute (lit "project_hierarchy.json")) with false.
  reflexivity.
Qed.

Lemma absolute_not_dot (root_path : str) :
  FS.is_absolute root_path = true -> str_eqb root_path (lit ".") = false.
Proof.
  intros H. apply str_eqb_neq. intros ->. discriminate H.
Qed.

Lemma plain_not_dot (root_path : str) :
  FS.plain_path root_path = true -> str_eqb root_path (lit ".") = false.
Proof.
  intros H. apply str_eqb_neq. intros ->. discriminate H.
Qed.

Lemma below_absolute (root_path rest : str) :
  truthy root_path = true ->
  FS.is_absolute (root_path ++ rest) = FS.is_absolute root_path.
Proof.
  unfold FS.is_absolute.
  destruct root_path as [|c r]; [discriminate|]. reflexivity.
Qed.

(** Below an absolute root every path is absolute. *)
Lemma joinpath_absolute (root_path p : str) :
  FS.is_absolute root_path = true ->
  FS.is_absolute (FS.joinpath root_path p) = true.
Proof.
  intros H. unfold FS.joinpath.
  destruct (FS.is_absolute p) eqn:Ep; [exact Ep|].
  rewrite (absolute_not_dot root_path H).
  assert (Ht : truthy root_path = true)
    by (destruct root_path; [discriminate H | reflexivity]).
  destruct (endswith (lit "/") root_path);
    now rewrite (below_absolute root_path _ Ht).
Qed.

(** A text that ends in a separator has an empty last component. *)
Lemma split_after_last (c : Z) (n : nat) :
  forall q, (length q <= n)%nat -> In [] (split [c] (q ++ [c])).
Proof.
  induction n as [|n IH]; intros q Hq.
  - destruct q; [|cbn [length] in Hq; lia].
    cbn. rewrite Z.eqb_refl. cbn. auto.
  - destruct (JavaFacts.cut_at c q) as [H | [a [b [-> Ha]]]].
    + rewrite StoreStrings.split_char_first by exact H.
      right. now left.
    + rewrite <- app_assoc. cbn [app].
      rewrite StoreStrings.split_char_first by exact Ha.
      right. apply IH. rewrite length_app in Hq. cbn [length] in Hq. lia.
Qed.

Lemma plain_no_separator_at_end (root_path : str) :
  FS.plain_path root_path = true -> endswith (lit "/") root_path = false.
Proof.
  intros H. destruct (endswith (lit "/") root_path) eqn:E; [|reflexivity].
  apply JavaFacts.endswith_suffix in E. destruct E as [q ->].
  unfold FS.plain_path, FS.components in H.
  rewrite forallb_forall in H.
  specialize (H [] (split_after_last 47 (length q) q (Nat.le_refl _))).
  discriminate H.
Qed.

Lemma from_separator_past (name r : str) :
  forallb (fun c => negb (c =? 47)) name = true ->
  FS.from_separator (name ++ 47 :: r) = 47 :: r.
Proof.
  induction name as [|c name IH]; intros H; [reflexivity|].
  cbn [forallb] in H. apply andb_prop in H. destruct H as [Hc Hn].
  apply negb_true_iff in Hc. cbn [app FS.from_separator].
  rewrite Hc. exact (IH Hn).
Qed.

(** The directory of a name below a directory is that directory. *)
Lemma parent_dir_below (a name : str) :
  forallb (fun c => negb (c =? 47)) name = true ->
  FS.parent_dir (a ++ 47 :: name) = a.
Proof.
  intros H. unfold FS.parent_dir.
  rewrite rev_app_distr. cbn [rev]. rewrite <- app_assoc. cbn [app].
  rewrite from_separator_past.
  - cbn [tl]. apply rev_involutive.
  - rewrite forallb_forall in *. intros c Hc. apply H.
    now apply in_rev.
Qed.

(** The scan changes no file but the one it writes. *)
Lemma build_project_map_frame (ts_parse : str -> result node)
    (json_dump : hierarchy -> str) (d d' : FS.fs)
    (root_path output_file q : str) (outcome : result hierarchy) :
  build_project_map ts_parse json_dump d root_path output_file
  = (outcome, d') ->
  q <> FS.joinpath root_path output_file ->
  dict_get q d' = dict_get q d.
Proof.
  unfold build_project_map. intros H Hq.
  destruct (negb (FS.exists_ root_path d));
    [injection H as _ <-; reflexivity|].
  destruct (FS.write_text (FS.joinpath root_path output_file)
              (json_dump (scan_files ts_parse d
                            (FS.rglob_java root_path d))) d)
    as [d1|e] eqn:Hw; injection H as _ <-; [|reflexivity].
  destruct (write_text_frame _ _ _ _ Hw) as [_ [_ Hother]].
  exact (Hother q Hq).
Qed.

(** A scan that returns has found the directory of its output. *)
Lemma build_project_map_needs_directory (ts_parse : str -> result node)
    (json_dump : hierarchy -> str) (d d' : FS.fs)
    (root_path output_file : str) (x : Z) (q : str)
    (outcome : result hierarchy) :
  build_project_map ts_parse json_dump d root_path output_file
  = (outcome, d') ->
  FS.parent_dir (FS.joinpath root_path output_file) = x :: q ->
  match outcome with
  | Ok hierarchy_map =>
      dict_get (x :: q) d = Some FS.Dir
      /\ hierarchy_map = scan_files ts_parse d (FS.rglob_java root_path d)
      /\ FS.read_text (FS.joinpath root_path output_file) d'
         = Ok (json_dump hierarchy_map)
  | Raise _ => d' = d
  end
  /\ (dict_get (x :: q) d <> Some FS.Dir ->
      exists e, outcome = Raise e).
Proof.
  unfold build_project_map. intros H Hp.
  destruct (negb (FS.exists_ root_path d)).
  { injection H as <- <-. split; [reflexivity|]. intros _. eauto. }
  destruct (FS.write_text (FS.joinpath root_path output_file)
              (json_dump (scan_files ts_parse d
                            (FS.rglob_java root_path d))) d)
    as [d1|e] eqn:Hw; injection H as <- <-.
  - destruct (write_text_frame _ _ _ _ Hw) as [_ [Hget _]].
    unfold FS.write_text in Hw. rewrite Hp in Hw.
    destruct (dict_get (x :: q) d) as [[|c0]|];
      [|discriminate Hw|discriminate Hw].
    split; [|congruence].
    split; [reflexivity|]. split; [reflexivity|].
    unfold FS.read_text. now rewrite Hget.
  - split; [reflexivity|]. intros _. eauto.
Qed.

End Phase1Facts.

(** X22: run on a relative project root in normal form that does not
    step upwards (no component is empty, [.] or [..]), Pass 1 does not
    write the file whose path it returns: the scan joins the root once
    more in front of the path it is given, so it writes to
    [root/root/project_hierarchy.json], and only when the directory
    [root/root] is there; otherwise the write raises and Pass 1 with it.
    Either way the file [root/project_hierarchy.json] that the parser is
    then told to load is left as it was; when that file did not exist,
    the parser holds an empty map. *)
Theorem phase1_on_relative_root_writes_elsewhere :
  forall (ts_parse : str -> result node) (json_dump : hierarchy -> str)
         (json_load : str -> result hierarchy)
         (d d' : FS.fs) (root_path : str) (outcome : result str),
    phase1_hierarchy_scan ts_parse json_dump d root_path = (outcome, d') ->
    truthy root_path = true ->
    FS.is_absolute root_path = false ->
    FS.plain_path root_path = true ->
    let hierarchy_file := root_path ++ lit "/project_hierarchy.json" in
    let written := root_path ++ lit "/" ++ hierarchy_file in
    hierarchy_file_of root_path = hierarchy_file
    /\ FS.joinpath root_path hierarchy_file = written
    /\ written <> hierarchy_file
    /\ dict_get hierarchy_file d' = dict_get hierarchy_file d
    /\ (FS.exists_ hierarchy_file d = false ->
        parser_hierarchy_map json_load d' hierarchy_file = [])
    /\ (forall file,
           outcome = Ok file ->
           file = hierarchy_file
           /\ dict_get (root_path ++ lit "/" ++ root_path) d = Some FS.Dir
           /\ FS.read_text written d'
              = Ok (json_dump
                      (scan_files ts_parse d (FS.rglob_java root_path d))))
    /\ (dict_get (root_path ++ lit "/" ++ root_path) d <> Some FS.Dir ->
        (exists e, outcome = Raise e) /\ d' = d).
Proof.
  intros ts_parse json_dump json_load d d' root outcome H Hroot Hrel Hplain
         file written.
  assert (Hfile : hierarchy_file_of root = file).
  { rewrite Phase1Facts.hierarchy_file_below;
      [reflexivity | now apply Phase1Facts.plain_not_dot
       | now apply Phase1Facts.plain_no_separator_at_end]. }
  assert (Hjoin : FS.joinpath root file = written).
  { unfold FS.joinpath. subst file.
    rewrite (Phase1Facts.below_absolute root _ Hroot), Hrel.
    rewrite (Phase1Facts.plain_not_dot root Hplain).
    now rewrite (Phase1Facts.plain_no_separator_at_end root Hplain). }
  assert (Hne : written <> file).
  { subst written. rewrite app_assoc. apply Phase1Facts.longer_differs.
    destruct root; discriminate. }
  assert (Hdir : FS.parent_dir written = root ++ lit "/" ++ root).
  { subst written file.
    change (root ++ lit "/" ++ root ++ lit "/project_hierarchy.json")
      with (root ++ lit "/" ++ root
            ++ 47 :: lit "project_hierarchy.json").
    rewrite !app_assoc.
    rewrite (Phase1Facts.parent_dir_below
               ((root ++ lit "/") ++ root) (lit "project_hierarchy.json"))
      by reflexivity.
    reflexivity. }
  unfold phase1_hierarchy_scan in H. rewrite Hfile in H.
  destruct (build_project_map ts_parse json_dump d root file)
    as [r d1] eqn:Hb.
  assert (Hd1 : d1 = d').
  { destruct r; now injection H as _ <-. }
  subst d1.
  assert (Hsame : dict_get file d' = dict_get file d).
  { apply (Phase1Facts.build_project_map_frame _ _ _ _ _ _ _ _ Hb).
    rewrite Hjoin. intros E. now apply Hne. }
  destruct root as [|x0 r0] eqn:Eroot; [discriminate Hroot|].
  rewrite <- Eroot in *.
  assert (Hshape : exists x q, root ++ lit "/" ++ root = x :: q).
  { rewrite Eroot. cbn [app]. eauto. }
  destruct Hshape as [x [q Hxq]].
  rewrite <- Hjoin, Hxq in Hdir.
  destruct (Phase1Facts.build_project_map_needs_directory
              _ _ _ _ _ _ _ _ _ Hb Hdir) as [Hok Hraise].
  rewrite <- Hxq in Hok, Hraise. rewrite Hjoin in Hok.
  split; [exact Hfile|]. split; [exact Hjoin|]. split; [exact Hne|].
  split; [exact Hsame|]. split; [|split].
  - intros Hex. unfold parser_hierarchy_map, _load_hierarchy_map,
                       FS.read_text.
    rewrite Hsame. unfold FS.exists_ in Hex.
    destruct (dict_get file d); [discriminate|].
    now destruct (truthy file).
  - intros f Hf. destruct r as [hm|e]; injection H as H.
    + rewrite Hf in H. injection H as <-.
      destruct Hok as [Hk [Hm Hr]]. rewrite <- Hm.
      repeat split; assumption.
    + rewrite Hf in H. discriminate H.
  - intros Hno. destruct (Hraise Hno) as [e He]. subst r.
    injection H as <-. split; [eauto | exact Hok].
Qed.

Lemma phase1_on_relative_root_writes_elsewhere_witness :
  let d := [ (lit "proj", FS.Dir);
             (lit "proj/proj", FS.Dir);
             (lit "proj/Animal.java", FS.File Samples.animal_src) ] in
  let r := phase1_hierarchy_scan Samples.ts_parse Samples.json_dump d
                                 (lit "proj") in
  fst r = Ok (lit "proj/project_hierarchy.json")
  /\ FS.exists_ (lit "proj/project_hierarchy.json") (snd r) = false
  /\ FS.read_text (lit "proj/proj/project_hierarchy.json") (snd r)
     = Ok (lit "Animal")
  /\ parser_hierarchy_map (fun _ => Ok MoreSamples.animal_map) (snd r)
                          (lit "proj/project_hierarchy.json")
     = [].
Proof.
  cbv zeta.
  destruct (phase1_hierarchy_scan Samples.ts_parse Samples.json_dump
              [ (lit "proj", FS.Dir);
                (lit "proj/proj", FS.Dir);
                (lit "proj/Animal.java", FS.File Samples.animal_src) ]
              (lit "proj")) as [outcome d'] eqn:H.
  destruct (phase1_on_relative_root_writes_elsewhere
              Samples.ts_parse Samples.json_dump
              (fun _ => Ok MoreSamples.animal_map) _ d' (lit "proj")
              outcome H eq_refl eq_refl eq_refl)
    as [_ [_ [_ [Hsame [Hload [Hok _]]]]]].
  assert (Ho : outcome = Ok (lit "proj/project_hierarchy.json")).
  { vm_compute in H. now injection H as <- _. }
  destruct (Hok _ Ho) as [_ [_ Hread]].
  cbn [fst snd]. split; [exact Ho|]. split; [|split].
  - assert (Hn : dict_get (lit "proj/project_hierarchy.json") d' = None)
      by (etransitivity; [exact Hsame | vm_compute; reflexivity]).
    unfold FS.exists_. now rewrite Hn.
  - etransitivity; [exact Hread | vm_compute; reflexivity].
  - apply Hload. reflexivity.
Defined.

(** X23: run on an absolute project root, Pass 1 returns the path of the
    file the scan wrote, that file holds the serialised map of the scan,
    and the parser holds whatever the deserialiser makes of it. *)
Theorem phase1_on_absolute_root_feeds_the_parser :
  forall (ts_parse : str -> result node) (json_dump : hierarchy -> str)
         (json_load : str -> result hierarchy)
         (d d' : FS.fs) (root_path hierarchy_file : str),
    phase1_hierarchy_scan ts_parse json_dump d root_path
    = (Ok hierarchy_file, d') ->
    FS.is_absolute root_path = true ->
    let hierarchy_map :=
      scan_files ts_parse d (FS.rglob_java root_path d) in
    hierarchy_file = hierarchy_file_of root_path
    /\ FS.read_text hierarchy_file d' = Ok (json_dump hierarchy_map)
    /\ parser_hierarchy_map json_load d' hierarchy_file
       = match json_load (json_dump hierarchy_map) with
         | Ok loaded => loaded
         | Raise _ => []
         end.
Proof.
  intros ts_parse json_dump json_load d d' root file H Habs hm.
  unfold phase1_hierarchy_scan in H.
  destruct (build_project_map ts_parse json_dump d root
                              (hierarchy_file_of root))
    as [[m|e] d1] eqn:Hb; [|discriminate H].
  injection H as <- <-.
  assert (Hroot : truthy root = true).
  { destruct root; [discriminate Habs | reflexivity]. }
  assert (Habsf : FS.is_absolute (hierarchy_file_of root) = true)
    by now apply Phase1Facts.joinpath_absolute.
  assert (Hjoin : FS.joinpath root (hierarchy_file_of root)
                  = hierarchy_file_of root).
  { unfold FS.joinpath at 1. now rewrite Habsf. }
  unfold build_project_map in Hb. rewrite Hjoin in Hb.
  destruct (negb (FS.exists_ root d)); [discriminate Hb|].
  fold hm in Hb.
  destruct (FS.write_text (hierarchy_file_of root) (json_dump hm) d)
    as [d2|e] eqn:Hw; [|discriminate Hb].
  injection Hb as _ <-.
  destruct (write_text_frame _ _ _ _ Hw) as [_ [Hget _]].
  assert (Hread : FS.read_text (hierarchy_file_of root) d2
                  = Ok (json_dump hm)).
  { unfold FS.read_text. now rewrite Hget. }
  split; [reflexivity|]. split; [exact Hread|].
  unfold parser_hierarchy_map, _load_hierarchy_map. rewrite Hread.
  destruct (hierarchy_file_of root); [discriminate Habsf|].
  reflexivity.
Qed.

Lemma phase1_on_absolute_root_feeds_the_parser_witness :
  FS.read_text (lit "/proj/project_hierarchy.json")
    (snd (phase1_hierarchy_scan Samples.ts_parse Samples.json_dump
            Samples.project (lit "/proj")))
  = Ok (lit "Animal,Dog").
Proof.
  destruct (phase1_hierarchy_scan Samples.ts_parse Samples.json_dump
              Samples.project (lit "/proj")) as [[file|e] d'] eqn:H;
    [|vm_compute in H; discriminate H].
  destruct (phase1_on_absolute_root_feeds_the_parser
              Samples.ts_parse Samples.json_dump
              (fun _ => Raise OSError) Samples.project d' (lit "/proj")
              file H eq_refl) as [Hf [Hr _]].
  cbn [snd]. rewrite Hf in Hr.
  etransitivity; [exact Hr | vm_compute; reflexivity].
Defined.


(* ------------------------------------------------------------------ *)
(** ** Class contexts, recorded methods and chunks

    The statements below speak of an ASCII source and of the tree that
    lies over it, where the slice the code takes for a node is the text
    of the node.  What the code reads elsewhere is shown on a sample at
    the end. *)

(** Finds an element in a list that evaluates. *)
Ltac pick :=
  vm_compute;
  repeat match goal with
         | |- _ \/ _ => first [left; reflexivity | right]
         end.

(** C2, as the code has it: in an ASCII source, for a class declaration
    whose extends clause names the parent [p], the class context is the
    base context, then [Extends: p], then, only when the methods recorded
    along the lineage of [p] are not empty, [Inherited Methods: [...]]
    listing the recorded methods of the parent in their recorded order
    followed by those of each further ancestor.  The parent resolves to
    the entry whose key it is, else to the first entry whose simple name
    it is or whose key ends in [.p]; the lineage is followed as long as an
    ancestor records a parent that resolves, and has to be shorter than
    the recursion depth.  When the parent is not in the map the lineage is
    empty and the context ends with the Extends clause. *)
Theorem class_context_extends_then_inherited :
  forall (depth : nat) (hierarchy_map : hierarchy)
         (source_code package_name : str) (class_node : node)
         (p : str) (chain : list class_info),
    Java.ascii source_code = true ->
    Java.tree_of source_code class_node = true ->
    Java.parent_of class_node = Some p ->
    p <> [] ->
    Java.lineage hierarchy_map p chain ->
    (length chain < depth)%nat ->
    let inherited := flat_map methods chain in
    let base :=
      JavaCodeParser.base_context package_name
        (JavaCodeParser._get_class_name class_node)
        (JavaCodeParser._extract_fields class_node source_code) in
    JavaCodeParser.context_of_class depth hierarchy_map source_code
                                    package_name class_node
    = Ok (base ++ lit ", Extends: " ++ p
          ++ match inherited with
             | [] => []
             | _ :: _ => lit ", Inherited Methods: ["
                         ++ join (lit ", ") inherited ++ lit "]"
             end)
    /\ (chain = [] <-> Java.unknown hierarchy_map p)
    /\ (Java.unknown hierarchy_map p ->
        JavaCodeParser.context_of_class depth hierarchy_map source_code
                                        package_name class_node
        = Ok (base ++ lit ", Extends: " ++ p)).
Proof.
  intros depth hm src pkg class_node p chain Ha Ht Hparent Hp Hchain Hdepth
         inherited base.
  assert (Hctx :
            JavaCodeParser.context_of_class depth hm src pkg class_node
            = Ok (base ++ lit ", Extends: " ++ p
                  ++ match inherited with
                     | [] => []
                     | _ :: _ => lit ", Inherited Methods: ["
                                 ++ join (lit ", ") inherited ++ lit "]"
                     end)).
  { unfold JavaCodeParser.context_of_class.
    rewrite JavaFacts.parent_class_java, Hparent.
    - apply ContextFacts.format_class_context_of_chain.
      + destruct p; [congruence | reflexivity].
      + now apply JavaFacts.lineage_ancestors.
      + exact Hdepth.
    - intros c g Hc Hg.
      apply (JavaFacts.slice_is_text src class_node g Ha Ht).
      now apply (JavaFacts.grandchild_subnode class_node c g). }
  assert (Hempty : Java.unknown hm p -> chain = []).
  { intros Hu.
    inversion Hchain as [| q info Hr | q g info c Hr]; subst;
      [reflexivity | |];
      apply JavaFacts.lookup_parent_resolves in Hr;
      apply JavaFacts.lookup_parent_unknown in Hu; congruence. }
  split; [exact Hctx|]. split.
  - split; [|exact Hempty]. intros ->. now inversion Hchain.
  - intros Hu. rewrite Hctx. subst inherited.
    rewrite (Hempty Hu). cbn [flat_map]. now rewrite !app_nil_r.
Qed.

Lemma class_context_extends_then_inherited_witness :
  JavaCodeParser.context_of_class Samples.depth
    (HierarchyScanner.class_info_of_tree Samples.animal_src
                                         Samples.animal_tree)
    Samples.dog_src (lit "None") (Samples.class_of Samples.dog_tree)
  = Ok (lit "Package: None, Class: Dog, Fields: None, Extends: Animal, Inherited Methods: [eat, sleep, getName, makeSound]").
Proof.
  destruct (class_context_extends_then_inherited
              Samples.depth
              (HierarchyScanner.class_info_of_tree Samples.animal_src
                                                   Samples.animal_tree)
              Samples.dog_src (lit "None")
              (Samples.class_of Samples.dog_tree)
              (lit "Animal")
              [ClassInfo None
                 (map lit ["eat"; "sleep"; "getName"; "makeSound"])
                 (lit "Animal")])
    as [H _].
  - vm_compute. reflexivity.
  - vm_compute. reflexivity.
  - vm_compute. reflexivity.
  - discriminate.
  - apply Java.lineage_root; [|now left].
    apply (Java.resolves_key _ _ [] []); [vm_compute; reflexivity|].
    intros e [].
  - vm_compute. lia.
  - etransitivity; [exact H | vm_compute; reflexivity].
Defined.

(** C3, as the code has it: for a class of an ASCII source, the list of
    public methods that the scanner records holds, in declaration order,
    the name of every public method declaration of the class body, once
    per declaration, so that a name declared by several public overloads
    appears once per overload.  The class body is the first child of that
    type; a public method declaration is a method declaration with the
    modifier [public] and a name; the word [public] is taken to stand in
    the modifiers of a method as the modifier only. *)
Theorem public_methods_one_entry_per_declaration :
  forall (source_code : str) (class_node class_body : node)
         (before after : list node),
    Java.ascii source_code = true ->
    Java.tree_of source_code class_node = true ->
    children class_node = before ++ class_body :: after ->
    has_type "class_body" class_body = true ->
    (forall c, In c before -> has_type "class_body" c = false) ->
    (forall m, In m (children class_body) ->
               has_type "method_declaration" m = true ->
               Java.plain_modifiers m = true) ->
    let declared := filter Java.public_method (children class_body) in
    HierarchyScanner._get_public_method_names class_node source_code
    = map Java.name_of declared
    /\ length (HierarchyScanner._get_public_method_names class_node
                                                         source_code)
       = length declared
    /\ (forall package_name class_info class_name,
           HierarchyScanner._get_class_name class_node = Some class_name ->
           class_name <> [] ->
           exists key recorded_parent,
             HierarchyScanner.add_class source_code package_name class_info
                                        class_node
             = dict_set key
                 (ClassInfo recorded_parent (map Java.name_of declared)
                            class_name)
                 class_info).
Proof.
  intros src class_node body before after Ha Ht Hch Hbody Hbefore Hplain
         declared.
  assert (Hnames :
            HierarchyScanner._get_public_method_names class_node src
            = map Java.name_of declared).
  { unfold HierarchyScanner._get_public_method_names, class_body_of.
    rewrite Hch, (JavaFacts.find_first _ before after body Hbody Hbefore).
    rewrite ScannerFacts.flat_map_public_name. subst declared.
    assert (Hin : In body (children class_node))
      by (rewrite Hch; apply in_or_app; right; now left).
    rewrite (filter_ext_in
               (HierarchyScanner.declares_public_method src)
               Java.public_method).
    - apply map_ext. apply JavaFacts.declared_name_is_name.
    - intros m Hm. apply JavaFacts.declares_public_method_java.
      + intros c Hc.
        apply (JavaFacts.slice_is_text src class_node c Ha Ht).
        apply (TreeFacts.subnodes_trans class_node body c).
        * now apply JavaFacts.child_subnode.
        * now apply (JavaFacts.grandchild_subnode body m c).
      + now apply Hplain. }
  split; [exact Hnames|]. split; [rewrite Hnames; apply length_map|].
  intros pkg hm name Hname Hne.
  unfold HierarchyScanner.add_class. rewrite Hname, Hnames.
  destruct name as [|x name]; [congruence|]. cbn [truthy negb].
  eauto.
Qed.

Lemma public_methods_one_entry_per_declaration_witness :
  HierarchyScanner._get_public_method_names
    (Samples.class_of Samples.calc_tree) Samples.calc_src
  = map lit ["add"; "add"; "neg"].
Proof.
  destruct (public_methods_one_entry_per_declaration
              Samples.calc_src (Samples.class_of Samples.calc_tree)
              (nth 3 (children (Samples.class_of Samples.calc_tree))
                   Samples.calc_tree)
              (firstn 3 (children (Samples.class_of Samples.calc_tree)))
              [])
    as [H _].
  - vm_compute. reflexivity.
  - vm_compute. reflexivity.
  - vm_compute. reflexivity.
  - vm_compute. reflexivity.
  - intros c Hc. vm_compute in Hc.
    repeat (destruct Hc as [<- | Hc]; [vm_compute; reflexivity|]).
    destruct Hc.
  - intros m Hm _. vm_compute in Hm.
    repeat (destruct Hm as [<- | Hm]; [vm_compute; reflexivity|]).
    destruct Hm.
  - rewrite H. vm_compute. reflexivity.
Defined.




(** C5, where the code departs from it: the parameter list
    [(Order... orders)] declares one parameter, of type [Order], which is
    not in the exclusion set, so its dependency types are [Order]; the
    code looks at [formal_parameter] children only, finds no parameter
    and records no dependency type, and the signature loses the
    parameter.  In a source with a character of two bytes in front, the
    parameter list [(Order o)] has the same dependency types, and the code
    records [rder], the slice taken one character too far. *)
Lemma varargs_parameter_type_is_lost :
  Java.tree_of EdgeSamples.depot_src EdgeSamples.depot_tree = true
  /\ map type (Java.parameters_of EdgeSamples.depot_parameters)
     = [lit "spread_parameter"]
  /\ Java.dependencies EdgeSamples.depot_parameters = [lit "Order"]
  /\ JavaCodeParser._extract_parameters_with_types
       EdgeSamples.depot_parameters EdgeSamples.depot_src
     = ([], [])
  /\ match JavaCodeParser.parse_tree Samples.depth [] EdgeSamples.depot_src
                                     EdgeSamples.depot_tree with
     | Ok chunks =>
         map (fun c => (method_signature c, dependency_types c)) chunks
     | Raise _ => []
     end
     = [(lit "public void ship()", [])]
  /\ Java.tree_of EdgeSamples.kiosk_src EdgeSamples.kiosk_tree = true
  /\ Java.dependencies EdgeSamples.kiosk_parameters = [lit "Order"]
  /\ JavaCodeParser._filter_complex_types
       (snd (JavaCodeParser._extract_parameters_with_types
               EdgeSamples.kiosk_parameters EdgeSamples.kiosk_src))
     = [lit "rder"].
Proof. vm_compute. repeat split; reflexivity. Qed.

(** In a source with a character of two bytes in front of the class, the
    code reads every node one character too far: the parent [Base] is
    taken for [ase], the modifier [public] is not found, and the public
    method with a line of code is not returned. *)
Example byte_offsets_read_as_character_offsets :
  Java.tree_of EdgeSamples.kiosk_src EdgeSamples.kiosk_tree = true
  /\ Java.ascii EdgeSamples.kiosk_src = false
  /\ Java.parent_of EdgeSamples.kiosk_class = Some (lit "Base")
  /\ _get_parent_class EdgeSamples.kiosk_class EdgeSamples.kiosk_src
     = Some (lit "ase")
  /\ JavaCodeParser.context_of_class Samples.depth [] EdgeSamples.kiosk_src
       (lit "None") EdgeSamples.kiosk_class
     = Ok (lit "Package: None, Class: Kiosk, Fields: None, Extends: ase")
  /\ Java.is_public EdgeSamples.kiosk_method = true
  /\ Java.no_code (Java.body_text EdgeSamples.kiosk_method) = false
  /\ JavaCodeParser._is_public_method EdgeSamples.kiosk_method
                                      EdgeSamples.kiosk_src = false
  /\ JavaCodeParser.parse_tree Samples.depth [] EdgeSamples.kiosk_src
                               EdgeSamples.kiosk_tree = Ok []
  /\ HierarchyScanner.class_info_of_tree EdgeSamples.kiosk_src
                                         EdgeSamples.kiosk_tree
     = [(lit "Kiosk", ClassInfo (Some (lit "ase")) [] (lit "Kiosk"))].
Proof. vm_compute. repeat split; reflexivity. Qed.

(** A method that is not public, under an annotation whose name holds the
    word: the parser and the scanner take it for public. *)
Example annotation_text_taken_for_the_modifier :
  Java.is_public EdgeSamples.vault_method = false
  /\ Java.plain_modifiers EdgeSamples.vault_method = false
  /\ JavaCodeParser._is_public_method EdgeSamples.vault_method
                                      EdgeSamples.vault_src = true
  /\ HierarchyScanner.class_info_of_tree EdgeSamples.vault_src
                                         EdgeSamples.vault_tree
     = [(lit "Vault", ClassInfo None [lit "peek"] (lit "Vault"))]
  /\ match JavaCodeParser.parse_tree Samples.depth [] EdgeSamples.vault_src
                                     EdgeSamples.vault_tree with
     | Ok chunks => map method_signature chunks
     | Raise _ => []
     end
     = [lit "@publicApi int peek()"].
Proof. vm_compute. repeat split; reflexivity. Qed.

(* ------------------------------------------------------------------ *)
(** ** The dependency types of a parameter list *)

Module ParameterTypeFacts.
Import JavaCodeParser.

Lemma generics_head (t : str) :
  hd [] (split (lit "<") t) = Java.upto 60 t.
Proof.
  change (lit "<") with [60].
  destruct (JavaFacts.cut_at 60 t) as [H | [a [b [-> Ha]]]].
  - rewrite StoreStrings.split_char_none by exact H.
    cbn [hd]. now rewrite JavaFacts.upto_none.
  - rewrite StoreStrings.split_char_first by exact Ha.
    cbn [hd]. now rewrite JavaFacts.upto_app.
Qed.

Lemma clean_type_erased (t : str) : clean_type t = Java.erased t.
Proof.
  unfold clean_type, Java.erased. now rewrite generics_head.
Qed.

(** The exclusion set of the code holds the common types, in another
    order. *)
Lemma excluded_common (t : str) :
  excluded t = mem t Java.common_types.
Proof.
  unfold excluded.
  assert (H1 : forallb (fun x => mem x Java.common_types)
                       primitives_and_common = true)
    by (vm_compute; reflexivity).
  assert (H2 : forallb (fun x => mem x primitives_and_common)
                       Java.common_types = true)
    by (vm_compute; reflexivity).
  rewrite forallb_forall in H1, H2.
  destruct (mem t primitives_and_common) eqn:E1;
    destruct (mem t Java.common_types) eqn:E2; try reflexivity.
  - apply DependencyFacts.mem_In in E1. rewrite (H1 t E1) in E2.
    discriminate.
  - apply DependencyFacts.mem_In in E2. rewrite (H2 t E2) in E1.
    discriminate.
Qed.

Lemma nodup_snoc (l : list str) (x : str) :
  nodup str_eq_dec (l ++ [x])
  = filter (fun y => negb (str_eqb y x)) (nodup str_eq_dec l) ++ [x].
Proof.
  induction l as [|y l IH]; [reflexivity|].
  cbn [app nodup].
  destruct (in_dec str_eq_dec y (l ++ [x])) as [Hi | Hn];
    destruct (in_dec str_eq_dec y l) as [Hl | Hl].
  - exact IH.
  - apply in_app_or in Hi. destruct Hi as [Hi | [<- | []]];
      [contradiction|].
    cbn [filter]. rewrite str_eqb_refl. cbn [negb]. exact IH.
  - exfalso. apply Hn. apply in_or_app. now left.
  - cbn [filter].
    assert (E : str_eqb y x = false).
    { apply str_eqb_neq. intros ->. apply Hn. apply in_or_app.
      right. now left. }
    rewrite E. cbn [negb app]. now rewrite IH.
Qed.

Lemma filter_rev {A : Type} (p : A -> bool) (l : list A) :
  filter p (rev l) = rev (filter p l).
Proof.
  induction l as [|x l IH]; [reflexivity|].
  cbn [rev filter]. rewrite filter_app, IH. cbn [filter].
  destruct (p x); cbn [rev]; [reflexivity | now rewrite app_nil_r].
Qed.

Lemma first_seen_distinct (l : list str) : first_seen l = Java.distinct l.
Proof.
  unfold first_seen. induction l as [|x l IH]; [reflexivity|].
  cbn [rev Java.distinct]. rewrite nodup_snoc, rev_app_distr.
  cbn [rev app]. f_equal. rewrite <- filter_rev. now rewrite IH.
Qed.

(** The types the code finds in a parameter list without a parameter of
    variable arity. *)
Lemma parameter_types_java (source_code : str) (l : list node) :
  (forall c g, In c l -> In g (children c) ->
               src_text source_code g = text g) ->
  (forall c, In c l -> has_type "spread_parameter" c = false) ->
  flat_map
    (fun child =>
       if has_type "formal_parameter" child then
         match declared_type source_code child with
         | Some ty => if truthy ty then [ty] else []
         | None => []
         end
       else []) l
  = filter truthy
      (map Java.type_of
           (filter (type_in ["formal_parameter"; "spread_parameter"]) l)).
Proof.
  intros Hal Hno. induction l as [|c l IH]; [reflexivity|].
  assert (E : type_in ["formal_parameter"; "spread_parameter"] c
              = has_type "formal_parameter" c).
  { unfold type_in. cbn [existsb].
    now rewrite (Hno c (or_introl eq_refl)), !orb_false_r. }
  cbn [flat_map filter]. rewrite IH, E.
  - destruct (has_type "formal_parameter" c); [|reflexivity].
    cbn [map filter]. unfold declared_type, Java.type_of.
    rewrite (ChunkFacts.first_some_find
               (type_in ["type_identifier"; "integral_type";
                         "floating_point_type"; "boolean_type";
                         "generic_type"; "array_type";
                         "scoped_type_identifier"; "void_type"])
               (fun n => strip (src_text source_code n))).
    change Java.type_kinds
      with ["type_identifier"; "integral_type"; "floating_point_type";
            "boolean_type"; "generic_type"; "array_type";
            "scoped_type_identifier"; "void_type"].
    destruct (find _ (rev (children c))) as [t|] eqn:Ef;
      [|reflexivity].
    cbn [option_map]. apply find_some in Ef. destruct Ef as [Ht _].
    apply in_rev in Ht.
    rewrite (Hal c t (or_introl eq_refl) Ht).
    now destruct (truthy (strip (text t))).
  - intros c' g Hc' Hg. apply (Hal c' g); [now right | exact Hg].
  - intros c' Hc'. apply Hno. now right.
Qed.

End ParameterTypeFacts.

(** X24: for a parameter list without a parameter of variable arity, in
    an ASCII source, the dependency types the code records are the
    declared types of the parameters, each without its generic arguments
    and array suffixes, without the types of the exclusion set, every type
    kept once at the place of its first occurrence. *)
Theorem dependency_types_of_fixed_arity_parameters :
  forall (source_code : str) (root_node formal_params_node : node),
    Java.ascii source_code = true ->
    Java.tree_of source_code root_node = true ->
    In formal_params_node (subnodes root_node) ->
    (forall c, In c (children formal_params_node) ->
               has_type "spread_parameter" c = false) ->
    JavaCodeParser._filter_complex_types
      (snd (JavaCodeParser._extract_parameters_with_types
              formal_params_node source_code))
    = Java.dependencies formal_params_node.
Proof.
  intros src root fp Ha Ht Hfp Hno.
  rewrite DependencyFacts.extract_parameter_types,
          DependencyFacts.filter_complex_types_spec,
          ParameterTypeFacts.first_seen_distinct.
  unfold Java.dependencies, Java.parameters_of,
         JavaCodeParser.parameter_types_of.
  rewrite (ParameterTypeFacts.parameter_types_java src
             (children fp)).
  - f_equal.
    rewrite (map_ext _ _ ParameterTypeFacts.clean_type_erased).
    apply filter_ext. intros t.
    now rewrite ParameterTypeFacts.excluded_common.
  - intros c g Hc Hg.
    apply (JavaFacts.slice_is_text src root g Ha Ht).
    apply (TreeFacts.subnodes_trans root fp g Hfp).
    now apply (JavaFacts.grandchild_subnode fp c g).
  - exact Hno.
Qed.

Lemma dependency_types_of_fixed_arity_parameters_witness :
  let pay := nth 3 (children (Samples.member 1
                                (Samples.class_of Samples.bank_tree)))
                 Samples.bank_tree in
  JavaCodeParser._filter_complex_types
    (snd (JavaCodeParser._extract_parameters_with_types pay
                                                        Samples.bank_src))
  = [lit "Transaction"].
Proof.
  intros pay.
  rewrite (dependency_types_of_fixed_arity_parameters
             Samples.bank_src Samples.bank_tree pay).
  - vm_compute. reflexivity.
  - vm_compute. reflexivity.
  - vm_compute. reflexivity.
  - pick.
  - intros c Hc. vm_compute in Hc.
    repeat (destruct Hc as [<- | Hc]; [vm_compute; reflexivity|]).
    destruct Hc.
Defined.

(* ------------------------------------------------------------------ *)
(** ** Byte offsets read as character offsets *)

Module OffsetFacts.

Lemma mapM_app {A B : Type} (f : A -> result B) (l1 l2 : list A)
    (r1 r2 : list B) :
  mapM f l1 = Ok r1 -> mapM f l2 = Ok r2 ->
  mapM f (l1 ++ l2) = Ok (r1 ++ r2).
Proof.
  revert r1. induction l1 as [|a l1 IH]; intros r1 H1 H2.
  - cbn [mapM] in H1. injection H1 as <-. exact H2.
  - cbn [mapM app] in *. apply ParseFacts.bind_ok in H1.
    destruct H1 as [b [Hb H1]]. apply ParseFacts.bind_ok in H1.
    destruct H1 as [bs [Hbs H1]]. injection H1 as <-.
    rewrite Hb. cbn [bind]. rewrite (IH bs Hbs H2). reflexivity.
Qed.

Lemma encode_app (a b ra rb : str) :
  Utf8.encode a = Ok ra -> Utf8.encode b = Ok rb ->
  Utf8.encode (a ++ b) = Ok (ra ++ rb).
Proof.
  unfold Utf8.encode. intros Ha Hb.
  apply ParseFacts.bind_ok in Ha. destruct Ha as [la [Hla Ha]].
  apply ParseFacts.bind_ok in Hb. destruct Hb as [lb [Hlb Hb]].
  injection Ha as <-. injection Hb as <-.
  rewrite (mapM_app _ _ _ _ _ Hla Hlb). cbn [bind].
  now rewrite concat_app.
Qed.

(** A character of two bytes. *)
Lemma encode_two_bytes (c : Z) :
  128 <= c < 2048 ->
  exists b1 b2, Utf8.encode [c] = Ok [b1; b2].
Proof.
  intros H. unfold Utf8.encode. cbn [mapM]. unfold Utf8.encode_cp.
  destruct (c <? 0) eqn:E0; [lia|].
  destruct (c <? 128) eqn:E1; [lia|].
  destruct (c <? 2048) eqn:E2; [|lia].
  cbn. eauto.
Qed.

Lemma skipn_past_prefix {A : Type} (a b : list A) (k : nat) :
  skipn (length a + k) (a ++ b) = skipn k b.
Proof.
  induction a as [|x a IH]; [reflexivity|]. exact IH.
Qed.

Lemma slice_past_prefix (a b : str) (i j : nat) :
  slice (a ++ b) (length a + i) (length a + j) = slice b i j.
Proof.
  unfold slice. rewrite skipn_past_prefix.
  replace (length a + j - (length a + i))%nat with (j - i)%nat by lia.
  reflexivity.
Qed.

End OffsetFacts.

(** X25: the code slices the decoded source at the byte offsets of a
    node.  In a source that is ASCII but for one character of two bytes,
    a node that starts [i] bytes and ends [j] bytes behind that character
    has as text the characters [i] to [j] behind it, and the slice the
    code takes holds the characters [i + 1] to [j + 1]: every node behind
    the character is read one character too far. *)
Theorem slice_after_a_two_byte_character :
  forall (before after : str) (c : Z) (root_node n : node) (i j : nat),
    Java.ascii before = true ->
    Java.ascii after = true ->
    128 <= c < 2048 ->
    let source_code := before ++ c :: after in
    Java.tree_of source_code root_node = true ->
    In n (subnodes root_node) ->
    start_byte n = (length before + 2 + i)%nat ->
    end_byte n = (length before + 2 + j)%nat ->
    text n = slice after i j
    /\ src_text source_code n = slice after (i + 1) (j + 1).
Proof.
  intros before after c root n i j Hb Ha Hc source_code Ht Hn Hs He.
  destruct (OffsetFacts.encode_two_bytes c Hc) as [b1 [b2 Hcb]].
  assert (Henc : Utf8.encode source_code
                 = Ok (before ++ [b1; b2] ++ after)).
  { subst source_code.
    apply OffsetFacts.encode_app; [now apply JavaFacts.encode_ascii|].
    change (c :: after) with ([c] ++ after).
    apply OffsetFacts.encode_app; [exact Hcb|].
    now apply JavaFacts.encode_ascii. }
  split.
  - unfold Java.tree_of in Ht. rewrite Henc in Ht.
    rewrite forallb_forall in Ht. specialize (Ht n Hn).
    destruct (Utf8.encode (text n)) as [b|e] eqn:E; [|discriminate].
    apply str_eqb_eq in Ht. subst b.
    apply (KeyFacts.encode_injective _ _ _ E).
    rewrite Hs, He.
    replace (length before + 2 + i)%nat
      with (length before + (2 + i))%nat by lia.
    replace (length before + 2 + j)%nat
      with (length before + (2 + j))%nat by lia.
    rewrite OffsetFacts.slice_past_prefix.
    rewrite (OffsetFacts.slice_past_prefix [b1; b2] after i j
             : slice ([b1; b2] ++ after) (2 + i) (2 + j) = slice after i j).
    apply JavaFacts.encode_ascii. now apply JavaFacts.ascii_slice.
  - unfold src_text, source_code. rewrite Hs, He.
    replace (length before + 2 + i)%nat
      with (length before + (1 + (i + 1)))%nat by lia.
    replace (length before + 2 + j)%nat
      with (length before + (1 + (j + 1)))%nat by lia.
    rewrite OffsetFacts.slice_past_prefix.
    exact (OffsetFacts.slice_past_prefix [c] after (i + 1) (j + 1)).
Qed.

Lemma slice_after_a_two_byte_character_witness :
  let parent := nth 1 (children (nth 2 (children EdgeSamples.kiosk_class)
                                     EdgeSamples.kiosk_tree))
                    EdgeSamples.kiosk_tree in
  text parent = lit "Base"
  /\ src_text EdgeSamples.kiosk_src parent = lit "ase ".
Proof.
  intros parent.
  destruct (slice_after_a_two_byte_character
              (lit "// caf") (skipn 7 EdgeSamples.kiosk_src) 233
              EdgeSamples.kiosk_tree parent 21 25)
    as [Htext Hslice].
  - vm_compute. reflexivity.
  - vm_compute. reflexivity.
  - lia.
  - vm_compute. reflexivity.
  - pick.
  - vm_compute. reflexivity.
  - vm_compute. reflexivity.
  - split.
    + etransitivity; [exact Htext | vm_compute; reflexivity].
    + etransitivity; [exact Hslice | vm_compute; reflexivity].
Defined.
